(** * trainer_stage_two_new.py: a shallow embedding of the [Trainer] class

    The development follows the methods of [Trainer] that the specification
    makes promises about:

    - [Checkpoint]: [load_model] (partial loading of saved weights);
    - [Poses]: name resolution in [predict_poses];
    - [Ransac]: the control flow of [pose_by_ransac];
    - [F32], [Torch], [Losses]: [compute_reprojection_loss] and
      [compute_losses] over IEEE binary32 scalars.

    and, beyond them, the code around these methods:

    - [Saving]: [save_model];
    - [Setup]: the modules [__init__] builds, [set_train] and [set_eval];
    - [Warping]: [generate_images_pred];
    - [Validation]: the batches [val] works on;
    - [Schedule]: the counters of [train] and [run_epoch];
    - [LossesVal]: [compute_losses_val];
    - [Batch]: [process_batch] and [process_batch_val];
    - [Training]: what a run of [train] writes to the modules.

    Python exceptions are values of [exn]; a method that can raise returns a
    [result].  Dictionaries are [gmap]s. *)

From Stdlib Require Import ZArith List Bool Lia Permutation.
From Stdlib Require Import Floats.SpecFloat.
From stdpp Require Import base option list gmap strings pretty fin_maps.

Local Open Scope string_scope.
Local Open Scope Z_scope.

(** ** Exceptions and results *)

Inductive exn :=
| AssertionError (msg : string)
| KeyError (key : string)
| NameError (name : string)
| UnboundLocalError (name : string)
| AttributeError (name : string)
| TypeError (what : string)
| IndexError (what : string)
| RuntimeError (what : string)
| ValueError (what : string)
| FileNotFoundError (path : string)
| ZeroDivisionError.

Inductive result (A : Type) :=
| Ok (a : A)
| Raise (e : exn).
Arguments Ok {A} a.
Arguments Raise {A} e.

Definition rbind {A B} (r : result A) (k : A -> result B) : result B :=
  match r with
  | Ok a => k a
  | Raise e => Raise e
  end.

Notation "x <- r ;; k" := (rbind r (fun x => k))
  (at level 100, r at next level, right associativity, only parsing).

(** [d[k]] on a dictionary with string keys. *)
Definition getitem {V} (d : gmap string V) (k : string) : result V :=
  match d !! k with
  | Some v => Ok v
  | None => Raise (KeyError k)
  end.

(** A [for] loop whose body may raise: the state is threaded left to right
    and the first exception leaves the loop. *)
Fixpoint for_each {S A} (body : S -> A -> result S) (xs : list A) (s : S)
  : result S :=
  match xs with
  | [] => Ok s
  | x :: xs' => s' <- body s x ;; for_each body xs' s'
  end.

(** [try: body except: handler] with a bare [except]: every exception of the
    body is caught; an exception of the handler propagates. *)
Definition try_except {A} (body : result A) (handler : exn -> result A)
  : result A :=
  match body with
  | Ok a => Ok a
  | Raise e => handler e
  end.

(** [NameError] and its subclass [UnboundLocalError]. *)
Definition is_NameError (e : exn) : bool :=
  match e with
  | NameError _ | UnboundLocalError _ => true
  | _ => false
  end.

(** ** [load_model]: partial checkpoint loading (lines 664-692) *)

Module Checkpoint.
Section WithTensor.

(** Tensors are opaque here; [load_state_dict] only looks at shapes. *)
Context {tensor : Type}.
Variable shape : tensor -> list nat.

(** What [torch.load] can find under a key of a saved file: a tensor, or
    one of the plain values [save_model] adds to the encoder's file
    (["height"], ["width"], ["use_stereo"]). *)
Inductive saved :=
| STensor (t : tensor)
| SPlain (z : Z).

Record parameter := { data : tensor; requires_grad : bool }.

(** An [nn.Module]: named parameters, named buffers, and the train/eval
    flag. *)
Record nn_module := {
  params : gmap string parameter;
  buffers : gmap string tensor;
  training : bool
}.

(** [m.state_dict()]: parameters and buffers by name. *)
Definition state_dict (m : nn_module) : gmap string tensor :=
  (data <$> params m) ∪ buffers m.

Definition compatible (old : tensor) (v : option saved) : bool :=
  match v with
  | Some (STensor t) => bool_decide (shape t = shape old)
  | _ => false
  end.

Definition new_value (old : tensor) (v : option saved) : tensor :=
  match v with
  | Some (STensor t) => t
  | _ => old
  end.

(** [m.load_state_dict(d)] (strict): the keys of [d] must be those of
    [m.state_dict()], every value a tensor of the shape of the entry it
    replaces; then every entry is overwritten in place. *)
Definition load_state_dict (m : nn_module) (d : gmap string saved)
  : result nn_module :=
  if bool_decide (dom d = dom (state_dict m)) then
    if bool_decide (map_Forall (fun k old => compatible old (d !! k) = true)
                      (state_dict m))
    then Ok {| params := map_imap (fun k p =>
                  Some {| data := new_value (data p) (d !! k);
                          requires_grad := requires_grad p |}) (params m);
               buffers := map_imap (fun k b =>
                  Some (new_value b (d !! k))) (buffers m);
               training := training m |}
    else Raise (RuntimeError "size mismatch")
  else Raise (RuntimeError "missing or unexpected keys").

(** [m.eval()]. *)
Definition eval (m : nn_module) : nn_module :=
  {| params := params m; buffers := buffers m; training := false |}.

(** [for param in m.parameters(): param.requires_grad = False]. *)
Definition freeze (m : nn_module) : nn_module :=
  {| params := (fun p => {| data := data p; requires_grad := false |})
                 <$> params m;
     buffers := buffers m;
     training := training m |}.

(** The part of the trainer [load_model] reads and writes. *)
Record trainer := {
  models : gmap string nn_module;
  models_to_load : list string;
  (** [os.path.isdir(load_weights_folder)] *)
  folder_isdir : bool;
  (** the files [<folder>/<n>.pth], by [n] *)
  folder : gmap string (gmap string saved)
}.

(** [torch.load(path)]. *)
Definition torch_load (t : trainer) (n : string)
  : result (gmap string saved) :=
  match folder t !! n with
  | Some d => Ok d
  | None => Raise (FileNotFoundError (n +:+ ".pth"))
  end.

(** The body of the loop, lines 674-683. *)
Definition load_weights (t : trainer) (ms : gmap string nn_module)
    (n : string) : result (gmap string nn_module) :=
  m <- getitem ms n ;;
  let model_dict : gmap string saved := STensor <$> state_dict m in
  pretrained_dict <- torch_load t n ;;
  let pretrained_dict :=
    filter (fun kv => is_Some (model_dict !! kv.1)) pretrained_dict in
  (* model_dict.update(pretrained_dict) *)
  let model_dict := pretrained_dict ∪ model_dict in
  m <- load_state_dict m model_dict ;;
  Ok (<[n := freeze (eval m)]> ms).

Definition load_model (t : trainer) : result trainer :=
  if folder_isdir t then
    ms <- for_each (load_weights t) (models_to_load t) (models t) ;;
    Ok {| models := ms; models_to_load := models_to_load t;
          folder_isdir := folder_isdir t; folder := folder t |}
  else Raise (AssertionError "Cannot find folder").

(** A module in eval mode none of whose parameters takes gradients. *)
Definition frozen (m : nn_module) : Prop :=
  training m = false /\
  forall k p, params m !! k = Some p -> requires_grad p = false.

End WithTensor.
End Checkpoint.

(** A small trainer to run [load_model] on: one encoder with a weight and a
    batch-norm buffer, and a saved file that holds a new weight and the
    sizes [save_model] adds, but no entry for the buffer. *)
Module CheckpointExample.
Import Checkpoint.

Definition shape (t : list Z) : list nat := [length t].

Definition encoder : nn_module :=
  {| params := {[ "conv1.weight" := {| data := [1; 2]; requires_grad := true |} ]};
     buffers := {[ "bn1.running_mean" := [0] ]};
     training := true |}.

Definition encoder_pth : gmap string saved :=
  {[ "conv1.weight" := STensor [7; 8];
     "height" := SPlain 256;
     "width" := SPlain 320 ]}.

Definition trainer0 : trainer :=
  {| models := {[ "encoder" := encoder ]};
     models_to_load := ["encoder"];
     folder_isdir := true;
     folder := {[ "encoder" := encoder_pth ]} |}.

Definition encoder_loaded : nn_module :=
  {| params := {[ "conv1.weight" := {| data := [7; 8]; requires_grad := false |} ]};
     buffers := {[ "bn1.running_mean" := [0] ]};
     training := false |}.

Definition trainer1 : trainer :=
  {| models := {[ "encoder" := encoder_loaded ]};
     models_to_load := ["encoder"];
     folder_isdir := true;
     folder := {[ "encoder" := encoder_pth ]} |}.

End CheckpointExample.

(** ** [predict_poses]: name resolution (lines 292-374) *)

Module Poses.

(** Entries of [opt.frame_ids]: Python ints, and the string ["s"] that
    [__init__] appends for stereo training. *)
Inductive frame_id :=
| Frame (i : Z)
| Stereo.

Definition frame_id_enc (f : frame_id) : option Z :=
  match f with Frame i => Some i | Stereo => None end.
Definition frame_id_dec (o : option Z) : frame_id :=
  match o with Some i => Frame i | None => Stereo end.

#[global] Instance frame_id_eq_dec : EqDecision frame_id.
Proof. solve_decision. Defined.
#[global] Instance frame_id_countable : Countable frame_id :=
  inj_countable' frame_id_enc frame_id_dec
    (fun f => match f with Frame _ => eq_refl | Stereo => eq_refl end).

(** [str(f_i)] *)
Definition str_frame (f : frame_id) : string :=
  match f with Frame i => pretty i | Stereo => "s" end.

(** The options [__init__] and [predict_poses] read. *)
Record options := {
  opt_frame_ids : list frame_id;
  opt_use_stereo : bool;
  opt_pose_model_type : string;
  opt_pose_model_input : string
}.

(** The attributes [__init__] derives from them (lines 31-40). *)
Record trainer := {
  frame_ids : list frame_id;
  pose_model_type : string;
  num_input_frames : nat;
  num_pose_frames : nat;
  use_pose_net : bool
}.

Definition init (opt : options) : result trainer :=
  let num_input_frames := length (opt_frame_ids opt) in
  let num_pose_frames :=
    if bool_decide (opt_pose_model_input opt = "pairs") then 2%nat
    else num_input_frames in
  match opt_frame_ids opt with
  | [] => Raise (IndexError "list index out of range")
  | f0 :: _ =>
    if bool_decide (f0 = Frame 0) then
      let use_pose_net :=
        negb (opt_use_stereo opt && bool_decide (opt_frame_ids opt = [Frame 0])) in
      (* if self.opt.use_stereo: self.opt.frame_ids.append("s") *)
      let frame_ids :=
        if opt_use_stereo opt then (opt_frame_ids opt ++ [Stereo])%list
        else opt_frame_ids opt in
      Ok {| frame_ids := frame_ids;
            pose_model_type := opt_pose_model_type opt;
            num_input_frames := num_input_frames;
            num_pose_frames := num_pose_frames;
            use_pose_net := use_pose_net |}
    else Raise (AssertionError "frame_ids must start with 0")
  end.

Section WithValue.

(** Tensors and the other objects the method passes around are opaque. *)
Context {value : Type}.

(** What a module-level name can be bound to, as far as the method can
    tell: [None], or something else. *)
Inductive binding :=
| PyNone
| PyObj (v : value).

Definition is_not_None (b : binding) : bool :=
  match b with PyNone => false | PyObj _ => true end.

(** The names bound at module level (the module's own imports and whatever
    [from utils import *] and [from layers import *] bring in). *)
Definition globals := gmap string binding.

(** Reading a name the function never assigns: a global lookup. *)
Definition load_global (G : globals) (x : string) : result binding :=
  match G !! x with
  | Some b => Ok b
  | None => Raise (NameError x)
  end.

(** Reading a name the function assigns somewhere: a local slot, unbound
    until the first assignment runs. *)
Definition load_fast (slot : option value) (x : string) : result value :=
  match slot with
  | Some v => Ok v
  | None => Raise (UnboundLocalError x)
  end.

(** The sub-networks, [torch.cat] and the slicing of a tensor. *)
Variable position_encoder : value -> value -> value.
Variable position : value -> value.
Variable slice_hw : value -> binding -> binding -> result value.

(** [self.pose_by_ransac(flow_2D, ref, target, intrinsic_inv_gpu, h_side,
    w_side, pose_gt=pose_gt, img_path=img_path)] once its arguments have
    been evaluated. *)
Variable pose_by_ransac_call : value -> list binding -> result (value * value).

(** Lines 336-371 for one frame: they fill [outputs] from the flow
    predictions. *)
Variable fill_outputs :
  gmap string value -> frame_id -> value -> value -> result (gmap string value).

Definition show_input_key (k : string * frame_id * Z) : string :=
  "(" +:+ k.1.1 +:+ ", " +:+ str_frame k.1.2 +:+ ", " +:+ pretty k.2 +:+ ")".

(** [inputs[key, f_i, s]] *)
Definition input_item (inputs : gmap (string * frame_id * Z) value)
    (k : string * frame_id * Z) : result value :=
  match inputs !! k with
  | Some v => Ok v
  | None => Raise (KeyError (show_input_key k))
  end.

Definition frame_item (d : gmap frame_id value) (f : frame_id) : result value :=
  match d !! f with
  | Some v => Ok v
  | None => Raise (KeyError (str_frame f))
  end.

(** Lines 297-300: the dictionary comprehension that builds [pose_feats]. *)
Definition pose_feats (self : trainer)
    (inputs : gmap (string * frame_id * Z) value)
    (features : gmap frame_id value) : result (gmap frame_id value) :=
  for_each (fun d f_i =>
      v <- (if bool_decide (pose_model_type self = "shared")
            then frame_item features f_i
            else input_item inputs ("color_aug", f_i, 0)) ;;
      Ok (<[f_i := v]> d))
    (frame_ids self) ∅.

(** The local state the loop carries: [outputs] and the slot of [conf]. *)
Definition loop_state : Type := gmap string value * option value.

(** Lines 320-321. *)
Definition crop_flow (G : globals) (flow_2D : value) : result value :=
  h <- load_global G "h_side" ;;
  cond <- (if is_not_None h then Ok true
           else w <- load_global G "w_side" ;; Ok (is_not_None w)) ;;
  if cond : bool then
    h <- load_global G "h_side" ;;
    w <- load_global G "w_side" ;;
    slice_hw flow_2D h w
  else Ok flow_2D.

(** Lines 322-325. *)
Definition crop_conf (G : globals) (conf : option value) : result (option value) :=
  try_except
    (c <- load_fast conf "conf" ;;
     h <- load_global G "h_side" ;;
     w <- load_global G "w_side" ;;
     c' <- slice_hw c h w ;;
     Ok (Some c'))
    (fun _ => c <- load_fast conf "conf" ;; Ok (Some c)).

(** Lines 330-331: the arguments are evaluated left to right, then the
    method is called. *)
Definition call_pose_by_ransac (G : globals) (flow_2D : value)
  : result (value * value) :=
  ref <- load_global G "ref" ;;
  target <- load_global G "target" ;;
  intrinsic_inv_gpu <- load_global G "intrinsic_inv_gpu" ;;
  h <- load_global G "h_side" ;;
  w <- load_global G "w_side" ;;
  pose_gt <- load_global G "pose_gt" ;;
  img_path <- load_global G "img_path" ;;
  pose_by_ransac_call flow_2D [ref; target; intrinsic_inv_gpu; h; w; pose_gt; img_path].

(** The body of the loop over [frame_ids[1:]], lines 305-371. *)
Definition predict_frame (G : globals) (feats : gmap frame_id value)
    (st : loop_state) (f_i : frame_id) : result loop_state :=
  if bool_decide (f_i <> Stereo) then
    a <- frame_item feats f_i ;;
    b <- frame_item feats (Frame 0) ;;
    let position_inputs := position_encoder a b in
    let position_inputs_reverse := position_encoder b a in
    let outputs_0 := position position_inputs in
    let outputs_1 := position position_inputs_reverse in
    let flow_2D := position_inputs in
    flow_2D <- crop_flow G flow_2D ;;
    conf <- crop_conf G st.2 ;;
    _ <- call_pose_by_ransac G flow_2D ;;
    outputs <- fill_outputs st.1 f_i outputs_0 outputs_1 ;;
    Ok (outputs, conf)
  else Ok st.

Definition predict_poses (G : globals) (self : trainer)
    (inputs : gmap (string * frame_id * Z) value)
    (features : gmap frame_id value) : result (gmap string value) :=
  if bool_decide (num_pose_frames self = 2%nat) then
    feats <- pose_feats self inputs features ;;
    st <- for_each (predict_frame G feats) (tail (frame_ids self)) (∅, None) ;;
    Ok st.1
  else Ok ∅.

End WithValue.

(** The shipped three-frame sequence, with the pose network fed all frames at
    once ([--pose_model_input all]) or in pairs. *)
Definition opt_all : options :=
  {| opt_frame_ids := [Frame 0; Frame (-1); Frame 1];
     opt_use_stereo := false;
     opt_pose_model_type := "separate_resnet";
     opt_pose_model_input := "all" |}.

Definition opt_pairs : options :=
  {| opt_frame_ids := [Frame 0; Frame (-1); Frame 1];
     opt_use_stereo := false;
     opt_pose_model_type := "separate_resnet";
     opt_pose_model_input := "pairs" |}.

(** A batch with its three augmented frames (the tensors are left out). *)
Definition batch3 : gmap (string * frame_id * Z) unit :=
  {[ ("color_aug", Frame 0, 0) := tt;
     ("color_aug", Frame (-1), 0) := tt;
     ("color_aug", Frame 1, 0) := tt ]}.

End Poses.

(** ** [pose_by_ransac]: the choice of correspondences (lines 694-791) *)

Module Ransac.

(** [cv2.DMatch]: a distance (a Python float, IEEE binary64) and the indices
    of the two keypoints. *)
Record dmatch := {
  distance : spec_float;
  queryIdx : nat;
  trainIdx : nat
}.

(** The Python float [0.8]. *)
Definition ratio : spec_float := S754_finite false 7205759403792794 (-53).

(** [m.distance < 0.8*n.distance] *)
Definition ratio_test (m n : dmatch) : bool :=
  SFltb (distance m) (SFmul 53 1024 ratio (distance n)).

(** [l[start:-stop]] for [stop > 0]. *)
Definition py_slice {A} (start stop : nat) (l : list A) : list A :=
  take (length l - stop - start)%nat (drop start l).

Section WithData.

(** Images, descriptors, keypoint positions, tensor entries, intrinsics and
    the two matrices RANSAC returns are opaque. *)
Context {image descriptor point scalar matrix pose flow : Type}.

(** What the method reads from [self] and [cfg].  None of these attributes
    is set in this file; they are taken as given. *)
Variable min_matches : Z.
Variable SIFT_POSE SAMPLE_SP : bool.
Variable sift surf : image -> list point * descriptor.
Variable flann_knnMatch : descriptor -> descriptor -> result (list (list dmatch)).

(** Lines 711-717: one frame of the batch as an 8-bit BGR image. *)
Variable to_cv : option nat -> option nat -> image -> image.

(** One channel of a coordinate field, [H] rows of [W] entries, and the three
    channels [flow2coord] gives for one item of the batch. *)
Definition plane : Type := list (list scalar).
Definition field : Type := plane * plane * plane.
(** A [3 x N] tensor of homogeneous coordinates. *)
Definition coords : Type := list scalar * list scalar * list scalar.

Variable flow2coord : flow -> field * field.

(** [torch.FloatTensor(pts)] with a column of ones (lines 750-753);
    [F.grid_sample] at the matches (lines 762-766); rounding the matches and
    indexing the field with them (lines 769-771). *)
Variable sift_coords : list point -> result coords.
Variable sample_sp : field -> list point -> result coords.
Variable gather : field -> list point -> result coords.

(** Lines 776-780 and the five-point RANSAC of [compute_P_matrix_ransac]. *)
Variable project : matrix -> coords -> list (scalar * scalar).
Variable compute_P_matrix_ransac :
  list (scalar * scalar) -> list (scalar * scalar) -> matrix -> result (pose * pose).

(** An entry of [PTS1] or [PTS2]: the array of matched positions, or the
    list [[None]] the handler at line 742 appends. *)
Inductive pts :=
| PtsArray (l : list point)
| PtsNone.

(** [len(PTS[batch])] *)
Definition len (p : pts) : Z :=
  match p with
  | PtsArray l => Z.of_nat (length l)
  | PtsNone => 1
  end.

(** An array operation applied to an entry: [[None]] is no array of
    numbers. *)
Definition as_array (p : pts) : result (list point) :=
  match p with
  | PtsArray l => Ok l
  | PtsNone => Raise (TypeError "NoneType")
  end.

Definition list_item {A} (l : list A) (i : nat) : result A :=
  match l !! i with
  | Some a => Ok a
  | None => Raise (IndexError "index out of range")
  end.

(** [for i,(m,n) in enumerate(matches)]: unpacking one entry. *)
Definition unpack_pair (e : list dmatch) : result (dmatch * dmatch) :=
  match e with
  | [m; n] => Ok (m, n)
  | _ => Raise (ValueError "unpack")
  end.

(** The loops at lines 731-732 and 737-738: the matches that pass [keep],
    with the positions of their keypoints. *)
Definition collect (keep : dmatch -> dmatch -> bool) (kp1 kp2 : list point)
    (matches : list (list dmatch))
  : result (list dmatch * list point * list point) :=
  for_each (fun acc e =>
      mn <- unpack_pair e ;;
      if keep mn.1 mn.2 then
        p1 <- list_item kp1 (queryIdx mn.1) ;;
        p2 <- list_item kp2 (trainIdx mn.1) ;;
        Ok (acc.1.1 ++ [mn.1], acc.1.2 ++ [p1], acc.2 ++ [p2])%list
      else Ok acc)
    matches ([], [], []).

(** The body of [try], lines 729-739. *)
Definition match_keypoints (kp1 kp2 : list point) (des1 des2 : descriptor)
  : result (pts * pts) :=
  matches <- flann_knnMatch des1 des2 ;;
  r <- collect ratio_test kp1 kp2 matches ;;
  r <- (if Z.of_nat (length r.1.1) <? min_matches
        then collect (fun _ _ => true) kp1 kp2 matches
        else Ok r) ;;
  Ok (PtsArray r.1.2, PtsArray r.2).

(** Lines 719-725: keypoints and descriptors of the two frames. *)
Definition detect (ref_cv tar_cv : image)
  : list point * descriptor * (list point * descriptor) :=
  let '(kp1, des1) := sift ref_cv in
  let '(kp2, des2) := sift tar_cv in
  if (Z.of_nat (length kp1) <? min_matches) || (Z.of_nat (length kp2) <? min_matches)
  then (surf ref_cv, surf tar_cv)
  else ((kp1, des1), (kp2, des2)).

(** Lines 719-742 for one item of the batch: what is appended to [PTS1]
    and [PTS2]. *)
Definition match_item (ref_cv tar_cv : image) : pts * pts :=
  let d := detect ref_cv tar_cv in
  match match_keypoints d.1.1 d.2.1 d.1.2 d.2.2 with
  | Ok r => r
  | Raise _ => (PtsNone, PtsNone)
  end.

(** The margin-trimmed grid of lines 757-758:
    [coord[batch,:,margin:-margin,margin:-margin].contiguous().view(3,-1)]
    with [margin = 10]. *)
Definition margin : nat := 10.

Definition trim_plane (p : plane) : list scalar :=
  concat (map (py_slice margin margin) (py_slice margin margin p)).

Definition dense (c : field) : coords :=
  (trim_plane c.1.1, trim_plane c.1.2, trim_plane c.2).

(** Lines 747-771: the correspondences of one item. *)
Definition select_coords (p1 p2 : pts) (c1 c2 : field) : result (coords * coords) :=
  if SIFT_POSE then
    l1 <- as_array p1 ;; a <- sift_coords l1 ;;
    l2 <- as_array p2 ;; b <- sift_coords l2 ;;
    Ok (a, b)
  else if (len p1 <? min_matches) || (len p2 <? min_matches) then
    Ok (dense c1, dense c2)
  else
    l1 <- as_array p1 ;;
    if SAMPLE_SP then
      a <- sample_sp c1 l1 ;; b <- sample_sp c2 l1 ;; Ok (a, b)
    else
      a <- gather c1 l1 ;; b <- gather c2 l1 ;; Ok (a, b).

(** Lines 773-787: the correspondences are normalized by the intrinsics of
    the item and handed to RANSAC. *)
Definition run_ransac (intrinsic_inv_gpu : list matrix) (batch : nat)
    (ab : coords * coords) : result (pose * pose) :=
  K_inv <- list_item intrinsic_inv_gpu batch ;;
  compute_P_matrix_ransac (project K_inv ab.1) (project K_inv ab.2) K_inv.

(** Lines 747-787 for one item: its essential matrix and pose. *)
Definition estimate_item (intrinsic_inv_gpu : list matrix) (batch : nat)
    (p1 p2 : pts) (c1 c2 : field) : result (pose * pose) :=
  ab <- select_coords p1 p2 c1 c2 ;;
  run_ransac intrinsic_inv_gpu batch ab.

(** The method: [flow_2D], [ref], [target] and [intrinsic_inv_gpu] are given
    by item of the batch.  It returns the rows of [P_mat] and [E_mat]. *)
Definition pose_by_ransac (flow_2D : list flow)
    (ref target : list image) (intrinsic_inv_gpu : list matrix)
    (h_side w_side : option nat) : result (list pose * list pose) :=
  let b := length flow_2D in
  let coord := map flow2coord flow_2D in
  PTS <- for_each (fun acc b_cv =>
      r <- list_item ref b_cv ;;
      t <- list_item target b_cv ;;
      Ok (acc ++ [match_item (to_cv h_side w_side r) (to_cv h_side w_side t)])%list)
    (seq 0 b) [] ;;
  if bool_decide (length PTS = b) then
    for_each (fun acc batch =>
        p <- list_item PTS batch ;;
        c <- list_item coord batch ;;
        EP <- estimate_item intrinsic_inv_gpu batch p.1 p.2 c.1 c.2 ;;
        Ok (acc.1 ++ [EP.2], acc.2 ++ [EP.1])%list)
      (seq 0 b) ([], [])
  else Raise (AssertionError "len(PTS1)==b").

End WithData.

Arguments plane scalar : clear implicits.
Arguments field scalar : clear implicits.
Arguments coords scalar : clear implicits.

End Ransac.

(** A batch to run [pose_by_ransac] on.  Images are numbers; image [0] has
    no texture (no keypoints, no descriptors, and the matcher fails on it),
    every other image has the single keypoint [(5, 5)].  Coordinate fields
    are 32 by 32.  RANSAC is replaced by a function that returns the points
    it is given. *)
Module RansacExample.

Definition min_matches : Z := 8.

Definition sift (im : nat) : list (Z * Z) * bool :=
  match im with
  | O => ([], false)
  | _ => ([(5, 5)], true)
  end.

Definition one : spec_float := S754_finite false 4503599627370496 (-52).

Definition flann_knnMatch (des1 des2 : bool) : result (list (list Ransac.dmatch)) :=
  if des1 && des2
  then Ok [[ {| Ransac.distance := S754_zero false; Ransac.queryIdx := 0; Ransac.trainIdx := 0 |};
             {| Ransac.distance := one; Ransac.queryIdx := 0; Ransac.trainIdx := 0 |} ]]
  else Raise (RuntimeError "cv2.error").

Definition grid (f : Z -> Z -> Z) : list (list Z) :=
  map (fun y => map (fun x => f (Z.of_nat x) (Z.of_nat y)) (seq 0 32)) (seq 0 32).

Definition flow2coord (shift : Z)
  : (list (list Z) * list (list Z) * list (list Z))
    * (list (list Z) * list (list Z) * list (list Z)) :=
  ((grid (fun x _ => x), grid (fun _ y => y), grid (fun _ _ => 1)),
   (grid (fun x _ => x + shift), grid (fun _ y => y), grid (fun _ _ => 1))).

Definition sift_coords (l : list (Z * Z)) : result (list Z * list Z * list Z) :=
  Ok (map fst l, map snd l, map (fun _ => 1) l).

Definition gather (c : list (list Z) * list (list Z) * list (list Z))
    (l : list (Z * Z)) : result (list Z * list Z * list Z) :=
  sift_coords l.

Definition project (K_inv : unit) (c : list Z * list Z * list Z) : list (Z * Z) :=
  zip c.1.1 c.1.2.

Definition ransac (a b : list (Z * Z)) (K_inv : unit)
  : result (list (Z * Z) * list (Z * Z)) := Ok (a, b).

Definition pose_by_ransac (SIFT_POSE : bool) (ref target : list nat) :=
  Ransac.pose_by_ransac min_matches SIFT_POSE false sift sift flann_knnMatch
    (fun _ _ im => im) flow2coord sift_coords gather gather project ransac
    (map (fun _ => 1) ref) ref target (map (fun _ => tt) ref) None None.

Definition select_coords (SIFT_POSE : bool) (p1 p2 : Ransac.pts) :=
  Ransac.select_coords (scalar:=Z) min_matches SIFT_POSE false sift_coords gather gather
    p1 p2 (flow2coord 1).1 (flow2coord 1).2.

End RansacExample.

(** ** Scalars: IEEE binary32 *)

(** The tensors of the trainer are [torch.float32]; a zero-dimensional
    tensor (a loss) is one such number.  Arithmetic is that of
    [SpecFloat] at precision 24, round to nearest even, with a single NaN.
    Python [int] and [float] operands of a tensor operation are converted to
    binary32 first. *)
Module F32.

Definition prec : Z := 24.
Definition emax : Z := 128.

Definition add : spec_float -> spec_float -> spec_float := SFadd prec emax.
Definition sub : spec_float -> spec_float -> spec_float := SFsub prec emax.
Definition mul : spec_float -> spec_float -> spec_float := SFmul prec emax.
Definition div : spec_float -> spec_float -> spec_float := SFdiv prec emax.
Definition abs : spec_float -> spec_float := SFabs.

Definition of_Z (z : Z) : spec_float := binary_normalize prec emax z 0 false.
Definition of_nat (n : nat) : spec_float := of_Z (Z.of_nat n).

Definition zero : spec_float := S754_zero false.
Definition nan : spec_float := S754_nan.
Definition one : spec_float := of_Z 1.
Definition two : spec_float := of_Z 2.

(** [2 ** scale] *)
Definition pow2 (scale : N) : spec_float := of_Z (2 ^ Z.of_N scale).

(** The Python floats [0.85], [0.15] and [1e-7], rounded to binary32. *)
Definition c085 : spec_float := S754_finite false 14260634 (-24).
Definition c015 : spec_float := S754_finite false 10066330 (-26).
Definition c1e7 : spec_float := S754_finite false 14073749 (-47).

Definition is_zero (x : spec_float) : bool :=
  match x with S754_zero _ => true | _ => false end.

(** Neither an infinity nor NaN. *)
Definition is_finite (x : spec_float) : bool :=
  match x with S754_zero _ | S754_finite _ _ _ => true | _ => false end.

(** A number other than zero: not a zero, not NaN. *)
Definition is_nonzero (x : spec_float) : bool :=
  match x with S754_infinity _ | S754_finite _ _ _ => true | _ => false end.

(** What [x * 0] can be: a zero, or NaN when [x] is infinite or NaN. *)
Definition is_zero_or_nan (x : spec_float) : bool :=
  match x with S754_zero _ | S754_nan => true | _ => false end.

(** A positive number, [+inf] included, whose exponent is not below the
    smallest exponent of the format, [3 - emax - prec = -149]. *)
Definition pos (x : spec_float) : Prop :=
  match x with
  | S754_infinity false => True
  | S754_finite false _ e => -149 <= e
  | _ => False
  end.

End F32.

(** ** Tensors and the [torch] operations of the loss *)

(** A tensor of shape [B x C x H x W] is a list of items, each a list of
    channels, each a list of rows.  Reductions add in row-major order; torch
    leaves the order open, and the facts below that depend on it say so. *)
Module Torch.

Definition row : Type := list spec_float.
Definition plane : Type := list row.
Definition tensor : Type := list (list plane).

Fixpoint mapM {A B} (f : A -> result B) (l : list A) : result (list B) :=
  match l with
  | [] => Ok []
  | a :: l' => b <- f a ;; bs <- mapM f l' ;; Ok (b :: bs)
  end.

(** One dimension of a broadcasting binary operation: the sizes agree, or
    one of them is 1. *)
Definition broadcast2 {A B C} (f : A -> B -> result C) (xs : list A) (ys : list B)
  : result (list C) :=
  if bool_decide (length xs = length ys) then
    mapM (fun xy => f xy.1 xy.2) (zip xs ys)
  else
    match xs, ys with
    | [x], _ => mapM (f x) ys
    | _, [y] => mapM (fun x => f x y) xs
    | _, _ => Raise (RuntimeError "The size of tensor a must match the size of tensor b")
    end.

Definition pointwise (f : spec_float -> spec_float -> spec_float) (a b : tensor)
  : result tensor :=
  broadcast2 (broadcast2 (broadcast2 (broadcast2 (fun x y => Ok (f x y))))) a b.

Definition tadd : tensor -> tensor -> result tensor := pointwise F32.add.
Definition tsub : tensor -> tensor -> result tensor := pointwise F32.sub.
Definition tmul : tensor -> tensor -> result tensor := pointwise F32.mul.
Definition tdiv : tensor -> tensor -> result tensor := pointwise F32.div.

Definition tmap (f : spec_float -> spec_float) (t : tensor) : tensor :=
  map (map (map (map f))) t.

(** [torch.abs(t)], [c * t] and [t + c] for a Python number [c]. *)
Definition tabs : tensor -> tensor := tmap F32.abs.
Definition smul (c : spec_float) : tensor -> tensor := tmap (F32.mul c).
Definition sadd (c : spec_float) : tensor -> tensor := tmap (fun x => F32.add x c).

(** [t.detach()]: the same values, cut off from the gradient graph. *)
Definition detach (t : tensor) : tensor := t.

Definition entries (t : tensor) : list spec_float := concat (concat (concat t)).

(** Every entry of [t] satisfies [P]. *)
Definition all_entries (P : spec_float -> Prop) (t : tensor) : Prop :=
  Forall (Forall (Forall (Forall P))) t.

(** [t.sum()] *)
Definition tsum (t : tensor) : spec_float := fold_left F32.add (entries t) F32.zero.

Definition row_add : row -> row -> row := zip_with F32.add.
Definition plane_add : plane -> plane -> plane := zip_with row_add.

(** [t.mean(1, True)].  A tensor with no channel has no rows to read its
    height and width from; the model refuses it. *)
Definition mean_dim1 (t : tensor) : result tensor :=
  mapM (fun channels : list plane =>
      match channels with
      | [] => Raise (RuntimeError "no channel")
      | p :: ps =>
        let n := F32.of_nat (length channels) in
        Ok [map (map (fun x => F32.div x n)) (fold_left plane_add ps p)]
      end) t.

(** [t.mean(2, True)] *)
Definition mean_dim2 (t : tensor) : result tensor :=
  mapM (mapM (fun rows : plane =>
      match rows with
      | [] => Raise (RuntimeError "no row")
      | r :: rs =>
        let n := F32.of_nat (length rows) in
        Ok [map (fun x => F32.div x n) (fold_left row_add rs r)]
      end)) t.

(** [t.mean(3, True)] *)
Definition mean_dim3 (t : tensor) : tensor :=
  map (map (map (fun r : row =>
      [F32.div (fold_left F32.add r F32.zero) (F32.of_nat (length r))]))) t.

(** [torch.full((b, c, h, w), v)] *)
Definition full (b c h w : nat) (v : spec_float) : tensor :=
  repeat (repeat (repeat (repeat v w) h) c) b.

(** [torch.zeros_like(t)] *)
Definition zeros_like : tensor -> tensor := tmap (fun _ => F32.zero).

(** Two tensors of one shape. *)
Definition same_shape (a b : tensor) : Prop :=
  Forall2 (Forall2 (Forall2 (Forall2 (fun _ _ : spec_float => True)))) a b.

End Torch.

(** ** [compute_reprojection_loss] and [compute_losses] (lines 436-498) *)

Module Losses.
Import Torch.

Record options := {
  scales : list N;
  frame_ids : list Poses.frame_id;
  no_ssim : bool;
  transform_constraint : spec_float;
  transform_smoothness : spec_float;
  disparity_smoothness : spec_float
}.

(** The keys of [outputs]. *)
Definition key_disp (scale : N) : string := "disp_" +:+ pretty scale.
Definition key_omaskb (f : Poses.frame_id) : string :=
  "omaskb_" +:+ pretty 0%N +:+ "_" +:+ Poses.str_frame f.
Definition key_color (f : Poses.frame_id) (scale : N) : string :=
  "color_" +:+ Poses.str_frame f +:+ "_" +:+ pretty scale.
Definition key_r (scale : N) (f : Poses.frame_id) : string :=
  "r_" +:+ pretty scale +:+ "_" +:+ Poses.str_frame f.
Definition key_th (scale : N) (f : Poses.frame_id) : string :=
  "th_" +:+ pretty scale +:+ "_" +:+ Poses.str_frame f.
(** ["loss/{}".format(scale)] *)
Definition key_loss (scale : N) : string := "loss/" +:+ pretty scale.

(** [(x * mask).sum() / mask.sum()] *)
Definition masked_mean (x mask : tensor) : result spec_float :=
  p <- tmul x mask ;;
  Ok (F32.div (tsum p) (tsum mask)).

(** The loss after the four [loss += ...] of lines 488-491, from the three
    sums over the neighbour frames and the disparity smoothness. *)
Definition weighted_total (opt : options) (scale : N)
    (loss_reprojection loss_transform loss_cvt smooth_loss : spec_float)
  : spec_float :=
  let loss := F32.zero in
  let loss := F32.add loss (F32.div loss_reprojection F32.two) in
  let loss := F32.add loss
    (F32.mul (transform_constraint opt) (F32.div loss_transform F32.two)) in
  let loss := F32.add loss
    (F32.mul (transform_smoothness opt) (F32.div loss_cvt F32.two)) in
  let loss := F32.add loss
    (F32.div (F32.mul (disparity_smoothness opt) smooth_loss) (F32.pow2 scale)) in
  loss.

(** The mean of a list of numbers with equal weights. *)
Definition average (l : list spec_float) : spec_float :=
  F32.div (fold_left F32.add l F32.zero) (F32.of_nat (length l)).

(** The per-scale total in the words of the specification: each of the
    three per-frame terms averaged with equal weight over the neighbour
    frames, then weighted. *)
Definition averaged_total (opt : options) (scale : N)
    (terms : list (spec_float * spec_float * spec_float)) (smooth_loss : spec_float)
  : spec_float :=
  let loss := F32.zero in
  let loss := F32.add loss (average (map (fun t => t.1.1) terms)) in
  let loss := F32.add loss
    (F32.mul (transform_constraint opt) (average (map (fun t => t.1.2) terms))) in
  let loss := F32.add loss
    (F32.mul (transform_smoothness opt) (average (map (fun t => t.2) terms))) in
  let loss := F32.add loss
    (F32.div (F32.mul (disparity_smoothness opt) smooth_loss) (F32.pow2 scale)) in
  loss.

Section WithLayers.

(** [SSIM], [get_smooth_bright] and [get_smooth_loss] come from [layers]. *)
Variable ssim : tensor -> tensor -> tensor.
Variable get_smooth_bright : tensor -> tensor -> tensor -> tensor -> spec_float.
Variable get_smooth_loss : tensor -> tensor -> spec_float.

Variable opt : options.
Variable inputs : gmap (string * Poses.frame_id * Z) tensor.
Variable outputs : gmap string tensor.

(** Lines 436-447. *)
Definition compute_reprojection_loss (pred target : tensor) : result tensor :=
  d <- tsub target pred ;;
  let abs_diff := tabs d in
  l1_loss <- mean_dim1 abs_diff ;;
  if no_ssim opt then Ok l1_loss
  else
    ssim_loss <- mean_dim1 (ssim pred target) ;;
    tadd (smul F32.c085 ssim_loss) (smul F32.c015 l1_loss).

(** The summand of line 476-477. *)
Definition reprojection_term (scale : N) (f : Poses.frame_id) (occu : tensor)
  : result spec_float :=
  pred <- getitem outputs (key_color f scale) ;;
  target <- getitem outputs (key_r scale f) ;;
  l <- compute_reprojection_loss pred target ;;
  masked_mean l occu.

(** The summand of lines 478-479. *)
Definition transform_term (scale : N) (f : Poses.frame_id) (occu : tensor)
  : result spec_float :=
  r <- getitem outputs (key_r scale f) ;;
  r' <- getitem outputs (key_r scale f) ;;
  d <- tsub r (detach r') ;;
  m <- mean_dim1 (tabs d) ;;
  masked_mean m occu.

(** The summand of lines 481-482. *)
Definition cvt_term (scale : N) (f : Poses.frame_id) (occu : tensor)
  : result spec_float :=
  th <- getitem outputs (key_th scale f) ;;
  color <- Poses.input_item inputs ("color", Poses.Frame 0, 0) ;;
  r <- getitem outputs (key_r scale f) ;;
  Ok (get_smooth_bright th color (detach r) occu).

(** The three terms of one neighbour frame, lines 474-482. *)
Definition frame_terms (scale : N) (f : Poses.frame_id)
  : result (spec_float * spec_float * spec_float) :=
  occu <- getitem outputs (key_omaskb f) ;;
  let occu_mask_backward := detach occu in
  t1 <- reprojection_term scale f occu_mask_backward ;;
  t2 <- transform_term scale f occu_mask_backward ;;
  t3 <- cvt_term scale f occu_mask_backward ;;
  Ok (t1, t2, t3).

(** The body of the loop over [frame_ids[1:]]: the three running sums. *)
Definition accumulate_frame (scale : N)
    (acc : spec_float * spec_float * spec_float) (f : Poses.frame_id)
  : result (spec_float * spec_float * spec_float) :=
  t <- frame_terms scale f ;;
  Ok (F32.add acc.1.1 t.1.1, F32.add acc.1.2 t.1.2, F32.add acc.2 t.2).

(** Lines 484-486. *)
Definition smooth_term (scale : N) (disp color : tensor) : result spec_float :=
  m <- mean_dim2 disp ;;
  let mean_disp := mean_dim3 m in
  norm_disp <- tdiv disp (sadd F32.c1e7 mean_disp) ;;
  Ok (get_smooth_loss norm_disp color).

(** The body of the loop over the scales up to line 491: the loss of one
    scale, for the neighbour frames [fs]. *)
Definition scale_loss_over (fs : list Poses.frame_id) (scale : N)
  : result spec_float :=
  disp <- getitem outputs (key_disp scale) ;;
  color <- Poses.input_item inputs ("color", Poses.Frame 0, Z.of_N scale) ;;
  acc <- for_each (accumulate_frame scale) fs (F32.zero, F32.zero, F32.zero) ;;
  smooth_loss <- smooth_term scale disp color ;;
  Ok (weighted_total opt scale acc.1.1 acc.1.2 acc.2 smooth_loss).

Definition scale_loss (scale : N) : result spec_float :=
  scale_loss_over (tail (frame_ids opt)) scale.

(** Lines 449-498. *)
Definition compute_losses : result (gmap string spec_float) :=
  st <- for_each (fun (st : spec_float * gmap string spec_float) scale =>
      loss <- scale_loss scale ;;
      Ok (F32.add st.1 loss, <[key_loss scale := loss]> st.2))
    (scales opt) (F32.zero, ∅) ;;
  (* total_loss /= self.num_scales: without a scale, total_loss is still the
     int 0 *)
  if bool_decide (length (scales opt) = 0%nat) then Raise ZeroDivisionError
  else Ok (<["loss" := F32.div st.1 (F32.of_nat (length (scales opt)))]> st.2).

End WithLayers.
End Losses.

(** A batch of one item of 32 by 32 pixels, with up to three neighbour
    frames.  The warped images are black; the registered frame [-1] is white
    and the registered frames [1] and [2] have the constant value [2^-24].
    The layers that are not part of this file are replaced by constants. *)
Module LossesExample.
Import Torch.

Definition eps : spec_float := S754_finite false 8388608 (-47).

Definition img (v : spec_float) : tensor := full 1 3 32 32 v.
Definition mask (v : spec_float) : tensor := full 1 1 32 32 v.

(** [outputs], with every pixel of every occlusion mask set to [m]. *)
Definition outputs (m : spec_float) : gmap string tensor :=
  list_to_map
    [ ("disp_0", mask F32.one);
      ("omaskb_0_-1", mask m); ("omaskb_0_1", mask m); ("omaskb_0_2", mask m);
      ("color_-1_0", img F32.zero); ("color_1_0", img F32.zero);
      ("color_2_0", img F32.zero);
      ("r_0_-1", img F32.one); ("r_0_1", img eps); ("r_0_2", img eps);
      ("th_0_-1", img F32.zero); ("th_0_1", img F32.zero);
      ("th_0_2", img F32.zero) ].

Definition inputs : gmap (string * Poses.frame_id * Z) tensor :=
  {[ ("color", Poses.Frame 0, 0) := img F32.one ]}.

Definition opt (fs : list Z) : Losses.options :=
  {| Losses.scales := [0%N];
     Losses.frame_ids := map Poses.Frame fs;
     Losses.no_ssim := true;
     Losses.transform_constraint := F32.one;
     Losses.transform_smoothness := F32.one;
     Losses.disparity_smoothness := F32.one |}.

Definition ssim (pred target : tensor) : tensor :=
  match tsub pred target with
  | Ok d => tabs d
  | Raise _ => pred
  end.
Definition get_smooth_bright (th color r occu : tensor) : spec_float := F32.zero.
Definition get_smooth_loss (disp color : tensor) : spec_float := F32.zero.

Definition compute_losses (fs : list Z) (m : spec_float) :=
  Losses.compute_losses ssim get_smooth_bright get_smooth_loss (opt fs) inputs (outputs m).

Definition frame_terms (fs : list Z) (m : spec_float) (f : Z) :=
  Losses.frame_terms ssim get_smooth_bright (opt fs) inputs (outputs m) 0%N (Poses.Frame f).

(** The loss of scale 0 with the neighbour frames visited in the order
    [fs], under masks of ones. *)
Definition scale_loss_over (fs : list Z) :=
  Losses.scale_loss_over ssim get_smooth_bright get_smooth_loss (opt [0]) inputs
    (outputs F32.one) (map Poses.Frame fs) 0%N.

(** [0.5], and the next binary32 number above it. *)
Definition half : spec_float := S754_finite false 8388608 (-24).
Definition half_up : spec_float := S754_finite false 8388609 (-24).

Definition losses (v : spec_float) : gmap string spec_float :=
  {[ "loss/0" := v; "loss" := v ]}.

(** The same batch with SSIM switched on and the warped frame [1] equal to
    its registration. *)
Definition opt_ssim : Losses.options :=
  {| Losses.scales := [0%N];
     Losses.frame_ids := [Poses.Frame 0; Poses.Frame (-1); Poses.Frame 1];
     Losses.no_ssim := false;
     Losses.transform_constraint := F32.one;
     Losses.transform_smoothness := F32.one;
     Losses.disparity_smoothness := F32.one |}.

Definition outputs_same : gmap string tensor :=
  <["color_1_0" := img eps]> (outputs F32.one).

Definition inf : spec_float := S754_infinity false.

(** The batch with the warped frame [1] and its registration both
    saturated: every pixel is [+inf]. *)
Definition outputs_inf : gmap string tensor :=
  <["color_1_0" := img inf]> (<["r_0_1" := img inf]> (outputs F32.one)).

(** The batch of [outputs_same] with a mask of no item for the frame
    [1]. *)
Definition outputs_no_mask : gmap string tensor :=
  <["omaskb_0_1" := []]> outputs_same.

(** The batch with masks of ones, and the mask of the frame [-1] replaced
    by zeros. *)
Definition outputs_zeroed : gmap string tensor :=
  <["omaskb_0_-1" := zeros_like (mask F32.one)]> (outputs F32.one).

End LossesExample.

(** ** [save_model] (lines 634-662) *)

Module Saving.
Import Checkpoint.

(** The options the method reads. *)
Record options := {
  height : Z;
  width : Z;
  use_stereo : bool
}.

Section WithTensor.

Context {tensor : Type}.

(** [torch.jit.script(model)] followed by [sm.save(save_path2)]: the export
    of a module as TorchScript, which can fail. *)
Variable jit_script : string -> nn_module (tensor:=tensor) -> result unit.

(** Lines 644-650: what [torch.save] writes for one module. *)
Definition to_save (opt : options) (model_name : string)
    (model : nn_module (tensor:=tensor)) : gmap string saved :=
  let to_save := STensor <$> state_dict model in
  if bool_decide (model_name = "encoder") then
    <["use_stereo" := SPlain (if use_stereo opt then 1 else 0)]>
      (<["width" := SPlain (width opt)]>
         (<["height" := SPlain (height opt)]> to_save))
  else to_save.

Definition scripted : list string := ["encoder"; "depth"; "pose"; "pose_encoder"].

(** The body of the loop, lines 642-656, on the [.pth] files of the folder
    (by name, as in [Checkpoint.folder]). *)
Definition save_one (opt : options)
    (files : gmap string (gmap string (saved (tensor:=tensor))))
    (item : string * nn_module) : result (gmap string (gmap string saved)) :=
  let files := <[item.1 := to_save opt item.1 item.2]> files in
  if bool_decide (item.1 ∈ scripted) then
    _ <- jit_script item.1 item.2 ;; Ok files
  else Ok files.

(** The method.  [models] is [self.models.items()], in insertion order;
    [adam] is the state of the optimizer; [files] is what the folder
    [weights_<epoch>] held before (nothing, unless the epoch was saved
    before). *)
Definition save_model (opt : options)
    (models : list (string * nn_module (tensor:=tensor)))
    (adam : gmap string saved) (files : gmap string (gmap string saved))
  : result (gmap string (gmap string saved)) :=
  files <- for_each (save_one opt) models files ;;
  Ok (<["adam" := adam]> files).

(** A saved file agrees with a module when every entry it has under a key
    of the module is the module's own tensor. *)
Definition agrees (m : nn_module (tensor:=tensor)) (pre : gmap string saved)
  : Prop :=
  forall k old v, state_dict m !! k = Some old -> pre !! k = Some v ->
    v = STensor old.

End WithTensor.
End Saving.

(** Two modules to save and load: the encoder of [CheckpointExample] and a
    depth decoder with one weight. *)
Module SavingExample.
Import Checkpoint.

Definition depth : nn_module :=
  {| params := {[ "conv.weight" := {| data := [3]; requires_grad := true |} ]};
     buffers := ∅;
     training := true |}.

Definition items : list (string * nn_module) :=
  [("encoder", CheckpointExample.encoder); ("depth", depth)].

Definition opt : Saving.options :=
  {| Saving.height := 256; Saving.width := 320; Saving.use_stereo := false |}.

Definition jit_script (n : string) (m : nn_module (tensor:=list Z)) : result unit :=
  Ok tt.

Definition files : gmap string (gmap string saved) :=
  {[ "encoder" :=
       {[ "conv1.weight" := STensor [1; 2]; "bn1.running_mean" := STensor [0];
          "height" := SPlain 256; "width" := SPlain 320;
          "use_stereo" := SPlain 0 ]};
     "depth" := {[ "conv.weight" := STensor [3] ]};
     "adam" := ∅ ]}.

(** A trainer that loads the encoder only, from [CheckpointExample]'s file. *)
Definition trainer0 : trainer :=
  {| models := list_to_map items;
     models_to_load := ["encoder"];
     folder_isdir := true;
     folder := {[ "encoder" := CheckpointExample.encoder_pth ]} |}.

End SavingExample.

(** ** [__init__], [set_train] and [set_eval] (lines 18-108 and 191-209) *)

Module Setup.
Import Checkpoint.

Record options := {
  height : Z;
  width : Z;
  pose_options : Poses.options;
  predictive_mask : bool;
  disable_automasking : bool
}.

Section WithTensor.

Context {tensor : Type}.

(** The constructors of the [networks] package, by the key the new module
    is stored under. *)
Variable network : string -> nn_module (tensor:=tensor).

(** [parameters_to_train] is kept as the names of the modules whose
    parameters were appended to it, in order. *)
Record trainer := {
  poses : Poses.trainer;
  models : gmap string (nn_module (tensor:=tensor));
  parameters_to_train : list string
}.

(** [self.models[name] = networks...], followed, when [train] is set, by
    [self.parameters_to_train += list(self.models[name].parameters())]. *)
Definition add (train : bool)
    (s : gmap string (nn_module (tensor:=tensor)) * list string)
    (name : string) : gmap string nn_module * list string :=
  (<[name := network name]> s.1, if train then (s.2 ++ [name])%list else s.2).

(** Lines 23-108. *)
Definition init (opt : options) : result trainer :=
  if bool_decide (height opt `mod` 32 = 0) then
    if bool_decide (width opt `mod` 32 = 0) then
      self <- Poses.init (pose_options opt) ;;
      let s := add true (∅, []) "encoder" in
      let s := add true s "depth" in
      let s := add false s "position_encoder" in
      let s := add false s "position" in
      let s := add true s "transform_encoder" in
      let s := add true s "transform" in
      s <- (if Poses.use_pose_net self then
              let s :=
                if bool_decide (Poses.pose_model_type self = "separate_resnet")
                then add false (add true s "pose_encoder") "pose"
                else if bool_decide (Poses.pose_model_type self = "shared")
                then add false s "pose"
                else if bool_decide (Poses.pose_model_type self = "posecnn")
                then add false s "pose"
                else s in
              (* self.models["pose"].to(self.device) *)
              _ <- getitem s.1 "pose" ;;
              Ok (s.1, (s.2 ++ ["pose"])%list)
            else Ok s) ;;
      s <- (if predictive_mask opt then
              if disable_automasking opt then Ok (add true s "predictive_mask")
              else Raise (AssertionError
                     "When using predictive_mask, please disable automasking with --disable_automasking")
            else Ok s) ;;
      Ok {| poses := self; models := s.1; parameters_to_train := s.2 |}
    else Raise (AssertionError "'width' must be a multiple of 32")
  else Raise (AssertionError "'height' must be a multiple of 32").

(** Lines 169-171: the height and width of the layers built for a scale. *)
Definition size_at (opt : options) (scale : N) : Z * Z :=
  (height opt / 2 ^ Z.of_N scale, width opt / 2 ^ Z.of_N scale).

(** [m.train()]. *)
Definition train_mode (m : nn_module (tensor:=tensor)) : nn_module :=
  {| params := params m; buffers := buffers m; training := true |}.

(** [self.models[name].train()] or [self.models[name].eval()]. *)
Definition switch (mode : nn_module -> nn_module)
    (ms : gmap string (nn_module (tensor:=tensor)))
    (name : string) : result (gmap string nn_module) :=
  m <- getitem ms name ;;
  Ok (<[name := mode m]> ms).

(** The modules [set_train] and [set_eval] name, in order. *)
Definition switched : list string :=
  ["encoder"; "depth"; "transform_encoder"; "transform"; "pose_encoder"; "pose"].

Definition set_train (ms : gmap string (nn_module (tensor:=tensor)))
  : result (gmap string nn_module) :=
  for_each (switch train_mode) switched ms.

Definition set_eval (ms : gmap string (nn_module (tensor:=tensor)))
  : result (gmap string nn_module) :=
  for_each (switch eval) switched ms.

End WithTensor.
End Setup.

(** Options for [__init__]: the three-frame sequence of [Poses], 256 by 320
    pixels, with a given pose network. *)
Module SetupExample.

Definition opt (pose_model_type : string) : Setup.options :=
  {| Setup.height := 256;
     Setup.width := 320;
     Setup.pose_options :=
       {| Poses.opt_frame_ids := [Poses.Frame 0; Poses.Frame (-1); Poses.Frame 1];
          Poses.opt_use_stereo := false;
          Poses.opt_pose_model_type := pose_model_type;
          Poses.opt_pose_model_input := "pairs" |};
     Setup.predictive_mask := false;
     Setup.disable_automasking := false |}.

(** Every network is a module with one trainable weight. *)
Definition network (name : string) : Checkpoint.nn_module (tensor:=list Z) :=
  {| Checkpoint.params :=
       {[ "weight" := {| Checkpoint.data := [0]; Checkpoint.requires_grad := true |} ]};
     Checkpoint.buffers := ∅;
     Checkpoint.training := true |}.

(** What [__init__] builds from [opt pose_model_type]: the six networks
    every trainer has, the pose decoder, and the pose encoder of the
    ["separate_resnet"] variant. *)
Definition self (pose_model_type : string) : Setup.trainer :=
  let separate := bool_decide (pose_model_type = "separate_resnet") in
  {| Setup.poses :=
       {| Poses.frame_ids := [Poses.Frame 0; Poses.Frame (-1); Poses.Frame 1];
          Poses.pose_model_type := pose_model_type;
          Poses.num_input_frames := 3;
          Poses.num_pose_frames := 2;
          Poses.use_pose_net := true |};
     Setup.models :=
       list_to_map
         ((fun n => (n, network n)) <$>
            (["encoder"; "depth"; "position_encoder"; "position";
              "transform_encoder"; "transform"; "pose"]
             ++ (if separate then ["pose_encoder"] else []))%list);
     Setup.parameters_to_train :=
       (["encoder"; "depth"; "transform_encoder"; "transform"]
        ++ (if separate then ["pose_encoder"] else []) ++ ["pose"])%list |}.

(** A trainer for [load_model] whose encoder is to be loaded, and the
    same after loading. *)
Definition loading : Checkpoint.trainer :=
  {| Checkpoint.models := Setup.models (self "separate_resnet");
     Checkpoint.models_to_load := ["encoder"; "position"];
     Checkpoint.folder_isdir := true;
     Checkpoint.folder :=
       {[ "encoder" := {[ "weight" := Checkpoint.STensor [5] ]};
          "position" := {[ "weight" := Checkpoint.STensor [6] ]} ]} |}.

End SetupExample.

(** ** [generate_images_pred] (lines 376-423) *)

Module Warping.
Import Torch.

Record options := {
  scales : list N;
  frame_ids : list Poses.frame_id;
  v1_multiscale : bool;
  pose_model_type : string
}.

(** The batch: its entries under 3-tuples ([("color", f, s)]), those under
    pairs ([("K", s)], [("inv_K", s)]), and the entry ["stereo_T"]. *)
Record batch := {
  items : gmap (string * Poses.frame_id * Z) tensor;
  pairs : gmap (string * Z) tensor;
  stereo_T : option tensor
}.

(** The keys of [outputs] the method writes and reads ([disp_] and [color_]
    are those of [Losses]). *)
Definition key_depth (scale : N) : string := "depth_" +:+ pretty scale.
Definition key_sample (f : Poses.frame_id) (scale : N) : string :=
  "sample_" +:+ Poses.str_frame f +:+ "_" +:+ pretty scale.
Definition key_pose (f : Poses.frame_id) : string :=
  "cam_T_cam_0_" +:+ Poses.str_frame f.

(** A key the method never writes. *)
Definition untouched (k : string) : Prop :=
  forall s f, k <> key_depth s /\ k <> key_sample f s /\ k <> Losses.key_color f s.

Definition pair_item (inputs : batch) (k : string * Z) : result tensor :=
  match pairs inputs !! k with
  | Some v => Ok v
  | None => Raise (KeyError ("(" +:+ k.1 +:+ ", " +:+ pretty k.2 +:+ ")"))
  end.

Section WithLayers.

(** What a module-level name may hold is opaque, up to [str]. *)
Context {value : Type}.
Variable str : Poses.binding (value:=value) -> string.

(** [F.interpolate], [disp_to_depth], the layers [BackprojectDepth] and
    [Project3D] built for a scale, [F.grid_sample], and lines 407-411 (the
    pose of the posecnn variant, from the axis-angle, the translation, the
    depth and the frame). *)
Variable interpolate : tensor -> result tensor.
Variable disp_to_depth : tensor -> result tensor.
Variable backproject_depth : N -> tensor -> tensor -> result tensor.
Variable project_3d : N -> tensor -> tensor -> tensor -> result tensor.
Variable grid_sample : tensor -> tensor -> result tensor.
Variable posecnn_pose :
  tensor -> tensor -> tensor -> Poses.frame_id -> result tensor.

Variable G : Poses.globals (value:=value).
Variable opt : options.
Variable inputs : batch.

(** [self.backproject_depth[s]], [self.project_3d[s]]: [__init__] builds
    one layer for each entry of [opt.scales] (lines 169-177). *)
Definition layer_at {L} (layers : N -> L) (s : N) : result L :=
  if bool_decide (s ∈ scales opt) then Ok (layers s)
  else Raise (KeyError (pretty s)).

(** Lines 382-389. *)
Definition depth_of (outputs : gmap string tensor) (scale : N) : result tensor :=
  disp <- getitem outputs (Losses.key_disp scale) ;;
  disp <- (if v1_multiscale opt then Ok disp else interpolate disp) ;;
  disp_to_depth disp.

(** Lines 396-399. *)
Definition pose_of (outputs : gmap string tensor) (frame_id : Poses.frame_id)
  : result tensor :=
  if bool_decide (frame_id = Poses.Stereo) then
    match stereo_T inputs with
    | Some T => Ok T
    | None => Raise (KeyError "stereo_T")
    end
  else getitem outputs (key_pose frame_id).

(** The body of the loop over [frame_ids[1:]], lines 396-423; [source_scale]
    is 0 (line 393). *)
Definition warp_frame (scale : N) (depth : tensor)
    (outputs : gmap string tensor) (frame_id : Poses.frame_id)
  : result (gmap string tensor) :=
  let source_scale := 0%N in
  T <- pose_of outputs frame_id ;;
  T <- (if bool_decide (pose_model_type opt = "posecnn") then
          f_i <- Poses.load_global G "f_i" ;;
          axisangle <- getitem outputs ("axisangle_0_" +:+ str f_i) ;;
          f_i <- Poses.load_global G "f_i" ;;
          translation <- getitem outputs ("translation_0_" +:+ str f_i) ;;
          posecnn_pose axisangle translation depth frame_id
        else Ok T) ;;
  backproject <- layer_at backproject_depth source_scale ;;
  inv_K <- pair_item inputs ("inv_K", Z.of_N source_scale) ;;
  cam_points <- backproject depth inv_K ;;
  project <- layer_at project_3d source_scale ;;
  K <- pair_item inputs ("K", Z.of_N source_scale) ;;
  pix_coords <- project cam_points K T ;;
  let outputs := <[key_sample frame_id scale := pix_coords]> outputs in
  color <- Poses.input_item (items inputs)
             ("color", frame_id, Z.of_N source_scale) ;;
  sample <- getitem outputs (key_sample frame_id scale) ;;
  warped <- grid_sample color sample ;;
  Ok (<[Losses.key_color frame_id scale := warped]> outputs).

(** The body of the loop over the scales. *)
Definition warp_scale (outputs : gmap string tensor) (scale : N)
  : result (gmap string tensor) :=
  depth <- depth_of outputs scale ;;
  let outputs := <[key_depth scale := depth]> outputs in
  for_each (warp_frame scale depth) (tail (frame_ids opt)) outputs.

(** The method; it returns [outputs] as it has left it. *)
Definition generate_images_pred (outputs : gmap string tensor)
  : result (gmap string tensor) :=
  for_each warp_scale (scales opt) outputs.

End WithLayers.
End Warping.

(** A batch of one pixel to warp: one scale, the neighbour frames [-1] and
    [1] with their poses in [outputs], and layers that hand their first
    argument on. *)
Module WarpingExample.
Import Torch.

Definition px (v : spec_float) : tensor := [[[[v]]]].

Definition opt (pose_model_type : string) : Warping.options :=
  {| Warping.scales := [0%N];
     Warping.frame_ids := [Poses.Frame 0; Poses.Frame (-1); Poses.Frame 1];
     Warping.v1_multiscale := false;
     Warping.pose_model_type := pose_model_type |}.

Definition inputs : Warping.batch :=
  {| Warping.items :=
       {[ ("color", Poses.Frame (-1), 0) := px F32.one;
          ("color", Poses.Frame 1, 0) := px F32.two ]};
     Warping.pairs :=
       {[ ("K", 0) := px F32.one; ("inv_K", 0) := px F32.one ]};
     Warping.stereo_T := None |}.

Definition outputs : gmap string tensor :=
  {[ "disp_0" := px F32.one;
     "cam_T_cam_0_-1" := px F32.one;
     "cam_T_cam_0_1" := px F32.one ]}.

Definition generate_images_pred (pose_model_type : string) :=
  Warping.generate_images_pred (value:=unit) (fun _ => "0")
    Ok Ok (fun _ depth _ => Ok depth) (fun _ points _ _ => Ok points)
    (fun color _ => Ok color) (fun _ _ depth _ => Ok depth)
    ∅ (opt pose_model_type) inputs outputs.

(** [outputs] after [generate_images_pred "separate_resnet"]. *)
Definition warped : gmap string tensor :=
  <["color_1_0" := px F32.two]>
    (<["sample_1_0" := px F32.one]>
       (<["color_-1_0" := px F32.one]>
          (<["sample_-1_0" := px F32.one]>
             (<["depth_0" := px F32.one]> outputs)))).

End WarpingExample.

(** ** [val]: the validation stream (lines 504-508) *)

Module Validation.
Section WithBatch.

Context {batch : Type}.

(** [it.next()] on the iterator of a [DataLoader] that does not shuffle: the
    iterator is the list of the batches still to come, and [None] stands for
    [StopIteration]. *)
Definition next (it : list batch) : option (batch * list batch) :=
  match it with
  | [] => None
  | inputs :: it' => Some (inputs, it')
  end.

(** Lines 504-508: the batch [val] works on and the iterator it leaves in
    [self.val_iter]. *)
Definition fetch (val_loader val_iter : list batch)
  : option (batch * list batch) :=
  match next val_iter with
  | Some r => Some r
  | None =>
    (* self.val_iter = iter(self.val_loader) *)
    next val_loader
  end.

(** The batches that [k] calls of [val] in a row work on. *)
Fixpoint fetches (val_loader : list batch) (k : nat) (val_iter : list batch)
  : option (list batch) :=
  match k with
  | O => Some []
  | S k' =>
    match fetch val_loader val_iter with
    | Some r => cons r.1 <$> fetches val_loader k' r.2
    | None => None
    end
  end.

End WithBatch.
End Validation.

(** ** [train] and [run_epoch] (lines 211-252) *)

Module Schedule.

Record options := {
  num_epochs : Z;
  save_frequency : Z;
  log_frequency : Z
}.

(** [a % b] on Python integers. *)
Definition py_mod (a b : Z) : result Z :=
  if bool_decide (b = 0) then Raise ZeroDivisionError else Ok (a `mod` b).

Section WithState.

(** [state] is everything of the trainer but the two counters: the models,
    the optimizer, the validation iterator, the files on disk. *)
Context {state batch : Type}.

Record trainer := {
  epoch : Z;
  step : Z;
  rest : state
}.

(** [set_train]; lines 234-238 (the forward pass, the backward pass and the
    optimizer step); lines 246-248 ([log_time], [log] and [val]);
    [model_lr_scheduler.step()]; [save_model]. *)
Variable set_train : state -> result state.
Variable process_batch : state -> batch -> result state.
Variable log_and_val : trainer -> Z -> batch -> result state.
Variable lr_scheduler_step : state -> state.
Variable save_model : trainer -> result state.

Variable opt : options.

(** The body of the loop of [run_epoch], lines 232-250. *)
Definition run_batch (self : trainer) (item : nat * batch) : result trainer :=
  let batch_idx := Z.of_nat item.1 in
  s <- process_batch (rest self) item.2 ;;
  let self := {| epoch := epoch self; step := step self; rest := s |} in
  r <- py_mod batch_idx (log_frequency opt) ;;
  s <- (if bool_decide (r = 0) then log_and_val self batch_idx item.2
        else Ok s) ;;
  Ok {| epoch := epoch self; step := step self + 1; rest := s |}.

(** [enumerate(l)] *)
Definition enumerate {A} (l : list A) : list (nat * A) :=
  zip (seq 0 (length l)) l.

Definition run_epoch (train_loader : list batch) (self : trainer)
  : result trainer :=
  s <- set_train (rest self) ;;
  let self := {| epoch := epoch self; step := step self; rest := s |} in
  self <- for_each run_batch (enumerate train_loader) self ;;
  Ok {| epoch := epoch self; step := step self;
        rest := lr_scheduler_step (rest self) |}.

(** The body of the loop of [train], lines 217-220. *)
Definition run_and_save (train_loader : Z -> list batch) (self : trainer)
    (e : Z) : result trainer :=
  let self := {| epoch := e; step := step self; rest := rest self |} in
  self <- run_epoch (train_loader e) self ;;
  r <- py_mod (epoch self + 1) (save_frequency opt) ;;
  if bool_decide (r = 0) then
    s <- save_model self ;;
    Ok {| epoch := epoch self; step := step self; rest := s |}
  else Ok self.

(** [range(n)] *)
Definition range (n : Z) : list Z := Z.of_nat <$> seq 0 (Z.to_nat n).

(** The method.  [train_loader e] is the batches the shuffling loader
    yields in epoch [e]. *)
Definition train (train_loader : Z -> list batch) (s : state)
  : result trainer :=
  for_each (run_and_save train_loader) (range (num_epochs opt))
    {| epoch := 0; step := 0; rest := s |}.

End WithState.
End Schedule.

(** A run of [train] that only counts: the state is the list of the epochs
    [save_model] was called in. *)
Module ScheduleExample.

Definition opt (save_frequency : Z) : Schedule.options :=
  {| Schedule.num_epochs := 4;
     Schedule.save_frequency := save_frequency;
     Schedule.log_frequency := 2 |}.

(** Three batches in every epoch. *)
Definition train_loader (e : Z) : list unit := [tt; tt; tt].

Definition save_model (self : Schedule.trainer (state:=list Z)) : result (list Z) :=
  Ok (Schedule.rest self ++ [Schedule.epoch self])%list.

Definition train (save_frequency : Z) : result (Schedule.trainer (state:=list Z)) :=
  Schedule.train
    Ok (fun s _ => Ok s) (fun self _ _ => Ok (Schedule.rest self)) (fun s => s)
    save_model (opt save_frequency) train_loader [].

(** Where [train 2] ends. *)
Definition trained : Schedule.trainer (state:=list Z) :=
  {| Schedule.epoch := 3; Schedule.step := 12; Schedule.rest := [1; 3] |}.

End ScheduleExample.
(** ** [compute_losses_val] (lines 553-580) *)

Module LossesVal.
Import Torch.

(** [t.mean()]: the mean of all the entries. *)
Definition tmean (t : tensor) : spec_float :=
  F32.div (tsum t) (F32.of_nat (length (entries t))).

Section WithLayers.

(** [ncc_loss] comes from [layers]; [min_dim1] is [torch.cat(l, 1)] followed
    by [torch.min(., dim=1)], on a list with an entry. *)
Variable ncc_loss : tensor -> tensor -> tensor.
Variable min_dim1 : list tensor -> result tensor.

Variable opt : Losses.options.
Variable inputs : gmap (string * Poses.frame_id * Z) tensor.
Variable outputs : gmap string tensor.

(** Lines 567-568 for one neighbour frame. *)
Definition registration_loss (scale : N) (target : tensor) (f : Poses.frame_id)
  : result tensor :=
  r <- getitem outputs (Losses.key_r scale f) ;;
  r <- mean_dim1 r ;;
  t <- mean_dim1 target ;;
  Ok (ncc_loss r t).

(** Lines 570-571. *)
Definition cat_min (l : list tensor) : result tensor :=
  match l with
  | [] => Raise (RuntimeError "torch.cat(): expected a non-empty list of Tensors")
  | _ => min_dim1 l
  end.

(** The body of the loop over the scales up to line 573. *)
Definition scale_loss (scale : N) : result spec_float :=
  let loss := F32.zero in
  target <- Poses.input_item inputs ("color", Poses.Frame 0, 0) ;;
  registration_losses <-
    mapM (registration_loss scale target) (tail (Losses.frame_ids opt)) ;;
  registration_losses <- cat_min registration_losses ;;
  Ok (F32.add loss (tmean registration_losses)).

Definition compute_losses_val : result (gmap string spec_float) :=
  st <- for_each (fun (st : spec_float * gmap string spec_float) scale =>
      loss <- scale_loss scale ;;
      Ok (F32.add st.1 loss, <[Losses.key_loss scale := loss]> st.2))
    (Losses.scales opt) (F32.zero, ∅) ;;
  if bool_decide (length (Losses.scales opt) = 0%nat) then Raise ZeroDivisionError
  else
    let total_loss := F32.div st.1 (F32.of_nat (length (Losses.scales opt))) in
    Ok (<["loss" := F32.mul (F32.of_Z (-1)) total_loss]> st.2).

End WithLayers.
End LossesVal.

(** ** [process_batch] and [process_batch_val] (lines 254-290 and 517-551) *)

Module Batch.
Import Torch.

Record options := {
  scales : list N;
  v1_multiscale : bool;
  predictive_mask : bool;
  no_ssim : bool;
  transform_constraint : spec_float;
  transform_smoothness : spec_float;
  disparity_smoothness : spec_float
}.

(** The options as [generate_images_pred] and the losses read them. *)
Definition warping_options (self : Poses.trainer) (opt : options) : Warping.options :=
  {| Warping.scales := scales opt;
     Warping.frame_ids := Poses.frame_ids self;
     Warping.v1_multiscale := v1_multiscale opt;
     Warping.pose_model_type := Poses.pose_model_type self |}.

Definition losses_options (self : Poses.trainer) (opt : options) : Losses.options :=
  {| Losses.scales := scales opt;
     Losses.frame_ids := Poses.frame_ids self;
     Losses.no_ssim := no_ssim opt;
     Losses.transform_constraint := transform_constraint opt;
     Losses.transform_smoothness := transform_smoothness opt;
     Losses.disparity_smoothness := disparity_smoothness opt |}.

Section WithNetworks.

(** What the encoder returns is opaque. *)
Context {features : Type}.

(** Lines 261-278: the encoder and the depth decoder give the features and
    the first [outputs]; [frame_features] is [features[f_i]], which
    [predict_poses] reads with the shared encoder; [predictive_mask_net] is
    [self.models["predictive_mask"](features)]. *)
Variable forward : Warping.batch -> result (features * gmap string tensor).
Variable frame_features : features -> gmap Poses.frame_id tensor.
Variable predictive_mask_net : features -> result tensor.

(** The parts of [predict_poses], [generate_images_pred] and the losses
    that are not in this file, as in [Poses], [Warping], [Losses] and
    [LossesVal]. *)
Variable position_encoder : tensor -> tensor -> tensor.
Variable position : tensor -> tensor.
Variable slice_hw :
  tensor -> Poses.binding (value:=tensor) -> Poses.binding (value:=tensor) ->
  result tensor.
Variable pose_by_ransac_call :
  tensor -> list (Poses.binding (value:=tensor)) -> result (tensor * tensor).
Variable fill_outputs :
  gmap string tensor -> Poses.frame_id -> tensor -> tensor ->
  result (gmap string tensor).
Variable str : Poses.binding (value:=tensor) -> string.
Variable interpolate : tensor -> result tensor.
Variable disp_to_depth : tensor -> result tensor.
Variable backproject_depth : N -> tensor -> tensor -> result tensor.
Variable project_3d : N -> tensor -> tensor -> tensor -> result tensor.
Variable grid_sample : tensor -> tensor -> result tensor.
Variable posecnn_pose :
  tensor -> tensor -> tensor -> Poses.frame_id -> result tensor.
Variable ssim : tensor -> tensor -> tensor.
Variable get_smooth_bright : tensor -> tensor -> tensor -> tensor -> spec_float.
Variable get_smooth_loss : tensor -> tensor -> spec_float.
Variable ncc_loss : tensor -> tensor -> tensor.
Variable min_dim1 : list tensor -> result tensor.

Variable G : Poses.globals (value:=tensor).
Variable self : Poses.trainer.
Variable opt : options.

(** [if self.use_pose_net: outputs.update(self.predict_poses(...))] *)
Definition add_poses (inputs : Warping.batch) (feats : features)
    (outputs : gmap string tensor) : result (gmap string tensor) :=
  if Poses.use_pose_net self then
    poses <- Poses.predict_poses position_encoder position slice_hw
               pose_by_ransac_call fill_outputs G self (Warping.items inputs)
               (frame_features feats) ;;
    Ok (poses ∪ outputs)
  else Ok outputs.

Definition process_batch (inputs : Warping.batch)
  : result (gmap string tensor * gmap string spec_float) :=
  fo <- forward inputs ;;
  outputs <- add_poses inputs fo.1 fo.2 ;;
  outputs <- Warping.generate_images_pred str interpolate disp_to_depth
               backproject_depth project_3d grid_sample posecnn_pose G
               (warping_options self opt) inputs outputs ;;
  losses <- Losses.compute_losses ssim get_smooth_bright get_smooth_loss
              (losses_options self opt) (Warping.items inputs) outputs ;;
  Ok (outputs, losses).

Definition process_batch_val (inputs : Warping.batch)
  : result (gmap string tensor * gmap string spec_float) :=
  fo <- forward inputs ;;
  outputs <- (if predictive_mask opt then
                m <- predictive_mask_net fo.1 ;;
                Ok (<["predictive_mask" := m]> fo.2)
              else Ok fo.2) ;;
  outputs <- add_poses inputs fo.1 outputs ;;
  outputs <- Warping.generate_images_pred str interpolate disp_to_depth
               backproject_depth project_3d grid_sample posecnn_pose G
               (warping_options self opt) inputs outputs ;;
  losses <- LossesVal.compute_losses_val ncc_loss min_dim1
              (losses_options self opt) (Warping.items inputs) outputs ;;
  Ok (outputs, losses).

End WithNetworks.
End Batch.

(** A batch of one pixel on which both methods return: the three-frame
    trainer with the pose network fed all frames at once (so that
    [predict_poses] is skipped), and a depth decoder that hands out the
    poses, masks, registrations and transforms itself. *)
Module BatchExample.
Import Torch.

Definition px (v : spec_float) : tensor := [[[[v]]]].

Definition self : Poses.trainer :=
  {| Poses.frame_ids := [Poses.Frame 0; Poses.Frame (-1); Poses.Frame 1];
     Poses.pose_model_type := "separate_resnet";
     Poses.num_input_frames := 3;
     Poses.num_pose_frames := 3;
     Poses.use_pose_net := true |}.

Definition opt : Batch.options :=
  {| Batch.scales := [0%N];
     Batch.v1_multiscale := false;
     Batch.predictive_mask := false;
     Batch.no_ssim := true;
     Batch.transform_constraint := F32.one;
     Batch.transform_smoothness := F32.one;
     Batch.disparity_smoothness := F32.one |}.

Definition inputs : Warping.batch :=
  {| Warping.items :=
       {[ ("color", Poses.Frame 0, 0) := px F32.one;
          ("color", Poses.Frame (-1), 0) := px F32.one;
          ("color", Poses.Frame 1, 0) := px F32.one ]};
     Warping.pairs :=
       {[ ("K", 0) := px F32.one; ("inv_K", 0) := px F32.one ]};
     Warping.stereo_T := None |}.

Definition decoded : gmap string tensor :=
  list_to_map
    [ ("disp_0", px F32.one);
      ("cam_T_cam_0_-1", px F32.one); ("cam_T_cam_0_1", px F32.one);
      ("omaskb_0_-1", px F32.one); ("omaskb_0_1", px F32.one);
      ("r_0_-1", px F32.one); ("r_0_1", px F32.one);
      ("th_0_-1", px F32.zero); ("th_0_1", px F32.zero) ].

Definition forward (inputs : Warping.batch) : result (unit * gmap string tensor) :=
  Ok (tt, decoded).

Definition process_batch :=
  Batch.process_batch forward (fun _ => ∅)
    (fun a _ => a) (fun a => a) (fun a _ _ => Ok a) (fun a _ => Ok (a, a))
    (fun o _ _ _ => Ok o)
    (fun _ => "0") Ok Ok (fun _ depth _ => Ok depth) (fun _ points _ _ => Ok points)
    (fun color _ => Ok color) (fun _ _ depth _ => Ok depth)
    LossesExample.ssim LossesExample.get_smooth_bright LossesExample.get_smooth_loss
    ∅ self opt inputs.

Definition process_batch_val :=
  Batch.process_batch_val forward (fun _ => ∅) (fun _ => Ok (px F32.one))
    (fun a _ => a) (fun a => a) (fun a _ _ => Ok a) (fun a _ => Ok (a, a))
    (fun o _ _ _ => Ok o)
    (fun _ => "0") Ok Ok (fun _ depth _ => Ok depth) (fun _ points _ _ => Ok points)
    (fun color _ => Ok color) (fun _ _ depth _ => Ok depth)
    (fun r _ => r) (fun l => Ok (hd (px F32.zero) l))
    ∅ self opt inputs.

(** What [compute_losses_val] returns on this batch: [1] for the scale and
    [-1] overall. *)
Definition losses_val : gmap string spec_float :=
  {[ "loss/0" := F32.one; "loss" := S754_finite true 8388608 (-23) ]}.

End BatchExample.

(** ** The training run and the modules (lines 211-252 and 500-515) *)

(** [train] as far as it writes to [self.models]: [set_train] and
    [set_eval] switch modes, and the optimizer writes parameter values.
    Forward passes, logging and saving read the modules; a forward pass may
    also refresh buffers (the running statistics of a batch-norm layer). *)
Module Training.
Import Checkpoint.

Section WithTensor.

Context {tensor batch : Type}.

(** [parameters_to_train], the parameters [model_optimizer] was built on
    (line 110), by module as in [Setup.trainer]. *)
Variable parameters_to_train : list string.

(** [adam b n k v]: the value Adam gives parameter [k] of module [n], now
    [v], from the gradient of the loss of batch [b].
    [refresh b n m]: the buffers of module [n] after the forward pass on
    [b]. *)
Variable adam : batch -> string -> string -> tensor -> tensor.
Variable refresh : batch -> string -> nn_module (tensor:=tensor) -> gmap string tensor.

(** [process_batch] (the forward pass and the losses), [log_time] with
    [log], [process_batch_val] with [log], and [save_model]: they can
    raise. *)
Variable forward : gmap string (nn_module (tensor:=tensor)) -> batch -> result unit.
Variable log : gmap string (nn_module (tensor:=tensor)) -> Z -> batch -> result unit.
Variable validate : gmap string (nn_module (tensor:=tensor)) -> result unit.
Variable save : Z -> gmap string (nn_module (tensor:=tensor)) -> result unit.

(** [losses["loss"].backward()] computes a gradient for a parameter only
    when its [requires_grad] is on, and [model_optimizer.step()] skips a
    parameter without a gradient. *)
Definition step_parameter (b : batch) (n k : string) (p : parameter)
  : parameter :=
  if requires_grad p
  then {| data := adam b n k (data p); requires_grad := true |}
  else p.

(** One module after the forward pass, the backward pass and the optimizer
    step on a batch. *)
Definition step_module (b : batch) (n : string) (m : nn_module) : nn_module :=
  {| params :=
       if bool_decide (n ∈ parameters_to_train)
       then map_imap (fun k p => Some (step_parameter b n k p)) (params m)
       else params m;
     buffers := refresh b n m;
     training := training m |}.

(** Lines 234-238: [process_batch], then [zero_grad], [backward] and the
    optimizer step. *)
Definition train_step (ms : gmap string (nn_module (tensor:=tensor)))
    (b : batch) : result (gmap string nn_module) :=
  _ <- forward ms b ;;
  Ok (map_imap (fun n m => Some (step_module b n m)) ms).

(** Lines 500-515. *)
Definition val (ms : gmap string (nn_module (tensor:=tensor)))
  : result (gmap string nn_module) :=
  ms <- Setup.set_eval ms ;;
  _ <- validate ms ;;
  Setup.set_train ms.

(** Lines 246-248. *)
Definition log_and_val
    (self : Schedule.trainer (state:=gmap string (nn_module (tensor:=tensor))))
    (batch_idx : Z) (b : batch) : result (gmap string nn_module) :=
  _ <- log (Schedule.rest self) batch_idx b ;;
  val (Schedule.rest self).

Definition save_model
    (self : Schedule.trainer (state:=gmap string (nn_module (tensor:=tensor))))
  : result (gmap string nn_module) :=
  _ <- save (Schedule.epoch self) (Schedule.rest self) ;;
  Ok (Schedule.rest self).

(** [train] on the modules [ms]; [model_lr_scheduler.step()] changes the
    learning rate only. *)
Definition train (opt : Schedule.options) (train_loader : Z -> list batch)
    (ms : gmap string (nn_module (tensor:=tensor)))
  : result (Schedule.trainer (state:=gmap string nn_module)) :=
  Schedule.train Setup.set_train train_step log_and_val (fun ms => ms)
    save_model opt train_loader ms.

(** What the run keeps of a module [n]: its parameters [ps], and eval mode
    unless [set_train] names the module. *)
Definition kept (n : string) (ps : gmap string (parameter (tensor:=tensor)))
    (ms : gmap string (nn_module (tensor:=tensor))) : Prop :=
  exists m, ms !! n = Some m /\ params m = ps /\
    (n ∉ Setup.switched -> training m = false).

(** Every module [set_train] names is in training mode. *)
Definition in_train_mode (ms : gmap string (nn_module (tensor:=tensor))) : Prop :=
  forall n m, n ∈ Setup.switched -> ms !! n = Some m -> training m = true.

End WithTensor.
End Training.

(** Four epochs of three batches on the modules of [SetupExample]; a batch
    is a number, and the optimizer adds it to every entry of a weight it
    updates. *)
Module TrainingExample.

Definition adam (b : Z) (n k : string) (v : list Z) : list Z := map (Z.add b) v.

Definition refresh (b : Z) (n : string) (m : Checkpoint.nn_module (tensor:=list Z))
  : gmap string (list Z) := Checkpoint.buffers m.

Definition train_loader (e : Z) : list Z := [1; 2; 3].

Definition train (ms : gmap string (Checkpoint.nn_module (tensor:=list Z))) :=
  Training.train
    (Setup.parameters_to_train (SetupExample.self "separate_resnet"))
    adam refresh (fun _ _ => Ok tt) (fun _ _ _ => Ok tt) (fun _ => Ok tt)
    (fun _ _ => Ok tt) (ScheduleExample.opt 2) train_loader ms.

(** The encoder, loaded with the weight [5] before the run, and the depth
    decoder, which starts from the weight [0], as the run leaves them. *)
Definition encoder_trained : Checkpoint.nn_module (tensor:=list Z) :=
  {| Checkpoint.params :=
       {[ "weight" := {| Checkpoint.data := [5]; Checkpoint.requires_grad := false |} ]};
     Checkpoint.buffers := ∅;
     Checkpoint.training := true |}.

Definition depth_trained : Checkpoint.nn_module (tensor:=list Z) :=
  {| Checkpoint.params :=
       {[ "weight" := {| Checkpoint.data := [24]; Checkpoint.requires_grad := true |} ]};
     Checkpoint.buffers := ∅;
     Checkpoint.training := true |}.

End TrainingExample.

(** Membership in a list that is written out. *)
Ltac elem_of_list :=
  solve [repeat (first [apply list_elem_of_here | apply list_elem_of_further])].

(** * Facts *)

(** ** The result monad *)

Lemma rbind_Ok {A B} (r : result A) (k : A -> result B) b :
  rbind r k = Ok b -> exists a, r = Ok a /\ k a = Ok b.
Proof. destruct r as [a|e]; simpl; [eauto | discriminate]. Qed.

Lemma getitem_Ok {V} (d : gmap string V) k v :
  getitem d k = Ok v <-> d !! k = Some v.
Proof.
  unfold getitem. destruct (d !! k); split; intros H; congruence.
Qed.

Lemma for_each_app {S A} (body : S -> A -> result S) xs ys s :
  for_each body (xs ++ ys) s = (s' <- for_each body xs s ;; for_each body ys s').
Proof.
  revert s. induction xs as [|x xs IH]; intros s; simpl; [reflexivity|].
  destruct (body s x); simpl; auto.
Qed.


(** ** [load_model] *)

Section CheckpointFacts.
Import Checkpoint.
Context {tensor : Type} (shape : tensor -> list nat).

Lemma new_value_idem (old : tensor) v :
  new_value (new_value old v) v = new_value old v.
Proof. destruct v as [[?|?]|]; reflexivity. Qed.

Lemma state_dict_freeze_eval (m : nn_module (tensor:=tensor)) :
  state_dict (freeze (eval m)) = state_dict m.
Proof.
  unfold state_dict, freeze, eval; simpl.
  rewrite <- map_fmap_compose. reflexivity.
Qed.

(** What a successful [load_state_dict] leaves in the module. *)
Lemma load_state_dict_lookup (m m' : nn_module) d k :
  load_state_dict shape m d = Ok m' ->
  state_dict m' !! k =
    (fun old => new_value old (d !! k)) <$> (state_dict m !! k).
Proof.
  unfold load_state_dict.
  repeat case_bool_decide; try discriminate.
  intros [= <-]. unfold state_dict; simpl.
  rewrite !lookup_union, !lookup_fmap, !map_lookup_imap.
  destruct (params m !! k) as [p|]; simpl.
  - destruct (buffers m !! k); reflexivity.
  - destruct (buffers m !! k); reflexivity.
Qed.

Lemma load_state_dict_params (m m' : nn_module) d :
  load_state_dict shape m d = Ok m' ->
  training m' = training m /\
  forall k, requires_grad <$> (params m' !! k) = requires_grad <$> (params m !! k).
Proof.
  unfold load_state_dict.
  repeat case_bool_decide; try discriminate.
  intros [= <-]; simpl. split; [reflexivity|]. intros k.
  rewrite map_lookup_imap. destruct (params m !! k); reflexivity.
Qed.

Lemma load_state_dict_compatible (m m' : nn_module) d k old :
  load_state_dict shape m d = Ok m' ->
  state_dict m !! k = Some old ->
  exists t, d !! k = Some (STensor t) /\ shape t = shape old.
Proof.
  unfold load_state_dict.
  repeat case_bool_decide; try discriminate.
  intros _ Hk.
  match goal with H : map_Forall _ _ |- _ => specialize (H k old Hk) end.
  unfold compatible in *.
  destruct (d !! k) as [[t|z]|]; try discriminate.
  case_bool_decide; [eauto | discriminate].
Qed.

(** The dictionary handed to [load_state_dict] at line 680. *)
Lemma merged_lookup (sd : gmap string tensor) (pre : gmap string saved) k :
  (filter (fun kv => is_Some ((STensor <$> sd) !! kv.1)) pre
     ∪ (STensor <$> sd)) !! k =
  match sd !! k with
  | Some old => Some (default (STensor old) (pre !! k))
  | None => None
  end.
Proof.
  rewrite lookup_union, lookup_fmap.
  destruct (sd !! k) as [old|] eqn:Hsd; simpl.
  - destruct (pre !! k) as [v|] eqn:Hpre; simpl.
    + erewrite (proj2 (map_lookup_filter_Some _ _ _ _)); [reflexivity|].
      split; [exact Hpre|]. simpl. rewrite lookup_fmap, Hsd. eauto.
    + rewrite map_lookup_filter_None_2; [reflexivity|]. left. exact Hpre.
  - rewrite map_lookup_filter_None_2; [reflexivity|]. right.
    intros v _. simpl. rewrite lookup_fmap, Hsd. intros [? ?]; discriminate.
Qed.

(** One round of the loop: which module it rewrites, and to what. *)
Lemma load_weights_Ok (t : trainer) ms ms' n :
  load_weights shape t ms n = Ok ms' ->
  exists m pre m',
    ms !! n = Some m /\ folder t !! n = Some pre /\
    ms' = <[n := freeze (eval m')]> ms /\
    training m' = training m /\
    (forall k, state_dict m' !! k =
       (fun old => new_value old (pre !! k)) <$> (state_dict m !! k)) /\
    (forall k old, state_dict m !! k = Some old ->
       forall v, pre !! k = Some v -> exists t', v = STensor t' /\ shape t' = shape old).
Proof.
  unfold load_weights. intros H.
  apply rbind_Ok in H as (m & Hm & H). apply getitem_Ok in Hm.
  apply rbind_Ok in H as (pre & Hpre & H).
  unfold torch_load in Hpre.
  destruct (folder t !! n) as [pre'|] eqn:Hf; [|discriminate].
  injection Hpre as ->.
  apply rbind_Ok in H as (m' & Hl & H). injection H as <-.
  exists m, pre, m'. repeat split; auto.
  - apply (load_state_dict_params _ _ _ Hl).
  - intros k. rewrite (load_state_dict_lookup _ _ _ k Hl), merged_lookup.
    destruct (state_dict m !! k) as [old|]; simpl; [|reflexivity].
    destruct (pre !! k) as [[?|?]|]; reflexivity.
  - intros k old Hk v Hv.
    destruct (load_state_dict_compatible _ _ _ k old Hl Hk) as (t' & Ht' & Hs).
    rewrite merged_lookup, Hk, Hv in Ht'. simpl in Ht'.
    injection Ht' as ->. eauto.
Qed.

End CheckpointFacts.

Section CheckpointLoop.
Import Checkpoint.
Context {tensor : Type} (shape : tensor -> list nat).

(** The effect of the whole loop on the module named [n]: entries are
    replaced by the saved ones when [n] was loaded, and kept otherwise;
    loading [n] a second time changes nothing. *)
Lemma load_loop_state_dict (t : trainer) l :
  forall ms ms', for_each (load_weights shape t) l ms = Ok ms' ->
  forall n m, ms !! n = Some m ->
  exists m', ms' !! n = Some m' /\
    (forall k, state_dict m' !! k =
       (fun old => if bool_decide (n ∈ l)
                   then new_value old (folder t !! n ≫= (.!! k)) else old)
         <$> (state_dict m !! k)) /\
    (n ∈ l -> forall k old pre v, state_dict m !! k = Some old ->
       folder t !! n = Some pre -> pre !! k = Some v -> exists t', v = STensor t').
Proof.
  induction l as [|x l IH]; intros ms ms' H n m Hn.
  - injection H as <-. exists m. split; [exact Hn|]. split.
    + intros k. rewrite bool_decide_eq_false_2 by apply not_elem_of_nil.
      destruct (state_dict m !! k); reflexivity.
    + intros Hin. apply not_elem_of_nil in Hin. contradiction.
  - simpl in H. apply rbind_Ok in H as (ms1 & H1 & H).
    apply (load_weights_Ok shape) in H1
      as (mx & pre & mx' & Hx & Hpre & -> & _ & Hsd & Hcompat).
    destruct (decide (n = x)) as [->|Hne].
    + rewrite Hx in Hn. injection Hn as <-.
      destruct (IH _ _ H x (freeze (eval mx')) (lookup_insert_eq _ _ _))
        as (m' & Hm' & Hk & Hv).
      exists m'. split; [exact Hm'|]. split.
      * intros k. rewrite Hk, state_dict_freeze_eval, Hsd.
        rewrite (bool_decide_eq_true_2 (x ∈ x :: l)) by apply list_elem_of_here.
        rewrite Hpre; simpl.
        destruct (state_dict mx !! k) as [old|]; simpl; [|reflexivity].
        case_bool_decide; [|reflexivity]. f_equal. apply new_value_idem.
      * intros _ k old pre' v Hold Hpre' Hv'.
        rewrite Hpre in Hpre'. injection Hpre' as <-.
        destruct (Hcompat k old Hold v Hv') as (t' & -> & _). eauto.
    + destruct (IH _ _ H n m) as (m' & Hm' & Hk & Hv).
      { rewrite lookup_insert_ne by congruence. exact Hn. }
      exists m'. split; [exact Hm'|]. split.
      * intros k. rewrite Hk.
        destruct (state_dict m !! k) as [old|]; simpl; [|reflexivity].
        f_equal. repeat case_bool_decide; try reflexivity.
        -- exfalso. match goal with H : n ∉ x :: l |- _ => apply H end.
           apply list_elem_of_further. assumption.
        -- exfalso. match goal with H : n ∈ x :: l |- _ =>
             apply elem_of_cons in H as [?|?] end; [congruence | contradiction].
      * intros Hin. apply elem_of_cons in Hin as [?|Hin]; [congruence|].
        apply Hv, Hin.
Qed.

Lemma frozen_freeze_eval (m : nn_module (tensor:=tensor)) :
  frozen (freeze (eval m)).
Proof.
  split; [reflexivity|]. intros k p. unfold freeze, eval; simpl.
  rewrite lookup_fmap. destruct (params m !! k); simpl; [|discriminate].
  intros [= <-]. reflexivity.
Qed.

(** Once a module is in eval mode with frozen parameters, later rounds of
    the loop keep it so; every round leaves the module it loads so. *)
Lemma load_loop_frozen (t : trainer) l :
  forall ms ms', for_each (load_weights shape t) l ms = Ok ms' ->
  (forall n, n ∈ l -> exists m', ms' !! n = Some m' /\ frozen m') /\
  (forall n m, ms !! n = Some m -> frozen m ->
     exists m', ms' !! n = Some m' /\ frozen m').
Proof.
  induction l as [|x l IH]; intros ms ms' H.
  - injection H as <-. split.
    + intros n Hin. apply not_elem_of_nil in Hin. contradiction.
    + eauto.
  - simpl in H. apply rbind_Ok in H as (ms1 & H1 & H).
    apply (load_weights_Ok shape) in H1
      as (mx & pre & mx' & Hx & Hpre & -> & _).
    destruct (IH _ _ H) as [IHl IHk].
    assert (Hxf : exists m', ms' !! x = Some m' /\ frozen m').
    { apply (IHk x (freeze (eval mx'))); [apply lookup_insert_eq|].
      apply frozen_freeze_eval. }
    split.
    + intros n Hin. apply elem_of_cons in Hin as [->|Hin]; auto.
    + intros n m Hn Hfr. destruct (decide (n = x)) as [->|Hne]; [exact Hxf|].
      apply (IHk n m); [|exact Hfr]. rewrite lookup_insert_ne by congruence.
      exact Hn.
Qed.

End CheckpointLoop.

Section CheckpointClaims.
Import Checkpoint.
Context {tensor : Type} (shape : tensor -> list nat).

(** C5.  When [load_model] returns, a module [n] named in [models_to_load]
    keeps exactly its own keys; every key that the saved file also has now
    holds the saved tensor, and every key the saved file lacks holds what it
    held before.  Keys that only the saved file has are not added.  (A saved
    file with a superset of the module's keys is the case where every key
    is replaced.) *)
Theorem load_model_updates_common_keys (t t' : trainer) n m pre :
  load_model shape t = Ok t' ->
  n ∈ models_to_load t ->
  models t !! n = Some m ->
  folder t !! n = Some pre ->
  exists m',
    models t' !! n = Some m' /\
    dom (state_dict m') = dom (state_dict m) /\
    (forall k v, k ∈ dom (state_dict m) -> pre !! k = Some v ->
       STensor <$> (state_dict m' !! k) = Some v) /\
    (forall k, k ∉ dom pre -> state_dict m' !! k = state_dict m !! k).
Proof.
  unfold load_model. intros H Hin Hm Hpre.
  destruct (folder_isdir t); [|discriminate].
  apply rbind_Ok in H as (ms & Hloop & H). injection H as <-. simpl.
  destruct (load_loop_state_dict shape t _ _ _ Hloop n m Hm)
    as (m' & Hm' & Hk & Hv).
  exists m'. split; [exact Hm'|].
  assert (Hk' : forall k, state_dict m' !! k =
            (fun old => new_value old (pre !! k)) <$> (state_dict m !! k)).
  { intros k. rewrite Hk, bool_decide_eq_true_2, Hpre by exact Hin.
    reflexivity. }
  split; [|split].
  - apply set_eq. intros k. rewrite !elem_of_dom, Hk'.
    destruct (state_dict m !! k); simpl; split; intros [? ?]; eauto; discriminate.
  - intros k v Hdom Hv'. apply elem_of_dom in Hdom as [old Hold].
    destruct (Hv Hin k old pre v Hold Hpre Hv') as (t0 & ->).
    rewrite Hk', Hold, Hv'. reflexivity.
  - intros k Hnot. apply not_elem_of_dom in Hnot.
    rewrite Hk', Hnot. destruct (state_dict m !! k); reflexivity.
Qed.

End CheckpointClaims.

(** C5 on the example trainer: the saved weight replaces the old one, the
    buffer the file does not mention keeps its value, and the sizes stored
    in the file do not become entries of the module. *)
Lemma load_model_updates_common_keys_witness :
  exists m',
    Checkpoint.models CheckpointExample.trainer1 !! "encoder" = Some m' /\
    dom (Checkpoint.state_dict m') =
      dom (Checkpoint.state_dict CheckpointExample.encoder) /\
    (forall k v, k ∈ dom (Checkpoint.state_dict CheckpointExample.encoder) ->
       CheckpointExample.encoder_pth !! k = Some v ->
       Checkpoint.STensor <$> (Checkpoint.state_dict m' !! k) = Some v) /\
    (forall k, k ∉ dom CheckpointExample.encoder_pth ->
       Checkpoint.state_dict m' !! k =
       Checkpoint.state_dict CheckpointExample.encoder !! k).
Proof.
  apply (load_model_updates_common_keys CheckpointExample.shape
           CheckpointExample.trainer0 CheckpointExample.trainer1 "encoder"
           CheckpointExample.encoder CheckpointExample.encoder_pth).
  - vm_compute. reflexivity.
  - apply list_elem_of_here.
  - reflexivity.
  - reflexivity.
Defined.

Lemma load_model_example :
  Checkpoint.load_model CheckpointExample.shape CheckpointExample.trainer0
  = Ok CheckpointExample.trainer1.
Proof. vm_compute. reflexivity. Qed.

(** ** [predict_poses] *)

Section PosesFacts.
Import Poses.
Context {value : Type}.
Variable position_encoder : value -> value -> value.
Variable position : value -> value.
Variable slice_hw : value -> binding (value:=value) -> binding (value:=value) -> result value.
Variable pose_by_ransac_call : value -> list (binding (value:=value)) -> result (value * value).
Variable fill_outputs :
  gmap string value -> frame_id -> value -> value -> result (gmap string value).

Abbreviation predict_frame :=
  (predict_frame position_encoder position slice_hw pose_by_ransac_call fill_outputs).
Abbreviation predict_poses :=
  (predict_poses position_encoder position slice_hw pose_by_ransac_call fill_outputs).

(** [conf] is assigned in the function, so it is a local; nothing binds it
    before line 323 reads it, and the handler at line 325 reads it again. *)
Lemma crop_conf_unbound (G : globals) :
  crop_conf slice_hw G None = Raise (UnboundLocalError "conf").
Proof. reflexivity. Qed.

Lemma crop_flow_undefined (G : globals) flow :
  G !! "h_side" = None ->
  crop_flow slice_hw G flow = Raise (NameError "h_side").
Proof. intros H. unfold crop_flow, load_global. rewrite H. reflexivity. Qed.

(** With [conf] unbound, only a stereo frame gets through the loop body. *)
Lemma predict_frame_Ok (G : globals) feats outputs f st :
  predict_frame G feats (outputs, None) f = Ok st ->
  f = Stereo /\ st = (outputs, None).
Proof.
  unfold Poses.predict_frame. case_bool_decide as Hf.
  - intros H. exfalso.
    apply rbind_Ok in H as (a & _ & H). apply rbind_Ok in H as (b & _ & H).
    apply rbind_Ok in H as (fl & _ & H). apply rbind_Ok in H as (c & Hc & _).
    simpl in Hc. rewrite crop_conf_unbound in Hc. discriminate.
  - intros [= <-]. split; [|reflexivity].
    destruct (decide (f = Stereo)); [assumption | contradiction].
Qed.

Lemma predict_loop_Ok (G : globals) feats fs : forall outputs st,
  for_each (predict_frame G feats) fs (outputs, None) = Ok st ->
  Forall (fun f => f = Stereo) fs.
Proof.
  induction fs as [|f fs IH]; intros outputs st H; [constructor|].
  simpl in H. apply rbind_Ok in H as (st1 & H1 & H).
  apply predict_frame_Ok in H1 as [-> ->]. constructor; [reflexivity|].
  exact (IH _ _ H).
Qed.

(** The loop stops at its first monocular frame, at the read of [h_side]. *)
Lemma predict_loop_NameError (G : globals) feats fs : forall outputs,
  G !! "h_side" = None ->
  (forall f, f ∈ fs -> is_Some (feats !! f)) ->
  is_Some (feats !! Frame 0) ->
  Exists (fun f => f <> Stereo) fs ->
  for_each (predict_frame G feats) fs (outputs, None) = Raise (NameError "h_side").
Proof.
  intros outputs HG Hfs [b Hb] Hex. revert outputs.
  induction Hex as [f fs Hf | f fs Hex IH]; intros outputs.
  - simpl. unfold Poses.predict_frame.
    rewrite bool_decide_eq_true_2 by exact Hf.
    destruct (Hfs f (list_elem_of_here _ _)) as [a Ha].
    unfold frame_item. rewrite Ha, Hb. simpl.
    rewrite crop_flow_undefined by exact HG. reflexivity.
  - simpl. destruct (decide (f = Stereo)) as [->|Hf].
    + unfold Poses.predict_frame at 1.
      rewrite bool_decide_eq_false_2 by (intros H; apply H; reflexivity).
      simpl. apply IH. intros g Hg. apply Hfs, list_elem_of_further, Hg.
    + unfold Poses.predict_frame at 1.
      rewrite bool_decide_eq_true_2 by exact Hf.
      destruct (Hfs f (list_elem_of_here _ _)) as [a Ha].
      unfold frame_item. rewrite Ha, Hb. simpl.
      rewrite crop_flow_undefined by exact HG. reflexivity.
Qed.

Lemma pose_feats_loop_keys (self : trainer) inputs features fs :
  forall (d d' : gmap frame_id value),
  for_each (fun d f_i =>
      v <- (if bool_decide (pose_model_type self = "shared")
            then frame_item features f_i
            else input_item inputs ("color_aug", f_i, 0)) ;;
      Ok (<[f_i := v]> d)) fs d = Ok d' ->
  forall f, f ∈ fs \/ is_Some (d !! f) -> is_Some (d' !! f).
Proof.
  induction fs as [|g fs IH]; intros d d' H f Hf.
  - injection H as <-. destruct Hf as [Hf|Hf]; [|exact Hf].
    apply not_elem_of_nil in Hf. contradiction.
  - simpl in H. apply rbind_Ok in H as (d1 & H1 & H).
    apply rbind_Ok in H1 as (v & _ & [= <-]).
    apply (IH _ _ H). rewrite lookup_insert.
    destruct Hf as [Hf|Hf].
    + apply elem_of_cons in Hf as [->|Hf]; [|left; exact Hf].
      right. rewrite decide_True by reflexivity. eauto.
    + right. destruct (decide (g = f)); eauto.
Qed.

Lemma pose_feats_keys (self : trainer) inputs features (feats : gmap frame_id value) :
  pose_feats self inputs features = Ok feats ->
  forall f, f ∈ frame_ids self -> is_Some (feats !! f).
Proof.
  intros H f Hf. apply (pose_feats_loop_keys _ _ _ _ _ _ H). left. exact Hf.
Qed.

Lemma init_frame_ids (opt : options) (self : trainer) :
  init opt = Ok self -> exists fs, frame_ids self = Frame 0 :: fs.
Proof.
  unfold init. destruct (opt_frame_ids opt) as [|f0 fs] eqn:Hfs; [discriminate|].
  case_bool_decide as H0; [|discriminate]. subst f0.
  intros [= <-]. simpl. destruct (opt_use_stereo opt); simpl; eauto.
Qed.

(** Whatever the module level binds, lines 320-325 end in a [NameError]
    (or its subclass [UnboundLocalError]) unless the slicing itself fails. *)
Lemma crop_raises_NameError (G : globals) flow :
  (forall v a b, exists v', slice_hw v a b = Ok v') ->
  exists e,
    (flow' <- crop_flow slice_hw G flow ;; crop_conf slice_hw G None) = Raise e /\
    is_NameError e = true.
Proof.
  intros Hslice. unfold crop_flow, load_global.
  destruct (G !! "h_side") as [h|]; simpl; [|eauto].
  destruct (is_not_None h); simpl.
  - destruct (G !! "w_side") as [w|]; simpl; [|eauto].
    destruct (Hslice flow h w) as (v' & ->). simpl. eauto.
  - destruct (G !! "w_side") as [w|]; simpl; [|eauto].
    destruct (is_not_None w); simpl; [|eauto].
    destruct (Hslice flow h w) as (v' & ->). simpl. eauto.
Qed.

Lemma predict_loop_raises_NameError (G : globals) feats fs : forall outputs,
  (forall v a b, exists v', slice_hw v a b = Ok v') ->
  (forall f, f ∈ fs -> is_Some (feats !! f)) ->
  is_Some (feats !! Frame 0) ->
  Exists (fun f => f <> Stereo) fs ->
  exists e, for_each (predict_frame G feats) fs (outputs, None) = Raise e /\
            is_NameError e = true.
Proof.
  intros outputs Hslice Hfs [b Hb] Hex. revert outputs.
  assert (Hmono : forall f fs' outputs, f <> Stereo -> is_Some (feats !! f) ->
            exists e, for_each (predict_frame G feats) (f :: fs') (outputs, None) = Raise e /\
                      is_NameError e = true).
  { intros f fs' outputs Hf [a Ha]. simpl. unfold Poses.predict_frame.
    rewrite bool_decide_eq_true_2 by exact Hf.
    unfold frame_item. rewrite Ha, Hb. simpl.
    destruct (crop_raises_NameError G (position_encoder a b) Hslice) as (e & He & Hn).
    exists e. split; [|exact Hn].
    destruct (crop_flow slice_hw G (position_encoder a b)) as [fl|e'];
      simpl in He; injection He as <-; reflexivity. }
  induction Hex as [f fs Hf | f fs Hex IH]; intros outputs.
  - apply Hmono; [exact Hf|]. apply Hfs, list_elem_of_here.
  - destruct (decide (f = Stereo)) as [->|Hf].
    + assert (Hskip : predict_frame G feats (outputs, None) Stereo = Ok (outputs, None)).
      { unfold Poses.predict_frame.
        rewrite bool_decide_eq_false_2 by (intros H; apply H; reflexivity).
        reflexivity. }
      cbn [for_each]. rewrite Hskip. cbn [rbind].
      apply IH. intros g Hg. apply Hfs, list_elem_of_further, Hg.
    + apply Hmono; [exact Hf|]. apply Hfs, list_elem_of_here.
Qed.

(** C1 (as amended).  On a trainer with [num_pose_frames == 2], a call of
    [predict_poses] on a batch with a monocular neighbour frame never returns:
    it raises, whatever names the module level binds, because the local
    [conf] is read before it is ever assigned.  When the frames of the batch
    are there, the exception is the [NameError] for [h_side] at line 320 if
    [h_side] is not bound at module level, and in any case a [NameError] (or
    its subclass [UnboundLocalError]) unless slicing the flow fails first. *)
Theorem predict_poses_pairs_raises (opt : options) (self : trainer)
    (G : globals) inputs features :
  init opt = Ok self ->
  num_pose_frames self = 2%nat ->
  Exists (fun f => f <> Stereo) (tail (frame_ids self)) ->
  exists e,
    predict_poses G self inputs features = Raise e /\
    ((exists feats, pose_feats self inputs features = Ok feats) ->
     (G !! "h_side" = None -> e = NameError "h_side") /\
     ((forall v a b, exists v', slice_hw v a b = Ok v') -> is_NameError e = true)).
Proof.
  intros Hinit Hn Hex. unfold Poses.predict_poses.
  rewrite bool_decide_eq_true_2 by exact Hn.
  destruct (pose_feats self inputs features) as [feats|e] eqn:Hfeats; simpl.
  - destruct (init_frame_ids _ _ Hinit) as (fs & Hfs).
    assert (Hkeys : forall f, f ∈ tail (frame_ids self) -> is_Some (feats !! f)).
    { intros f Hf. apply (pose_feats_keys _ _ _ _ Hfeats).
      rewrite Hfs in *. simpl in Hf. apply list_elem_of_further, Hf. }
    assert (Hzero : is_Some (feats !! Frame 0)).
    { apply (pose_feats_keys _ _ _ _ Hfeats). rewrite Hfs. apply list_elem_of_here. }
    destruct (for_each (predict_frame G feats) (tail (frame_ids self)) (∅, None))
      as [st|e] eqn:Hloop; simpl.
    + exfalso. apply predict_loop_Ok in Hloop.
      apply Exists_exists in Hex as (f & Hf & Hne).
      rewrite Forall_forall in Hloop. apply Hne, Hloop, Hf.
    + exists e. split; [reflexivity|]. intros _. split.
      * intros HG. rewrite predict_loop_NameError in Hloop; auto. congruence.
      * intros Hslice.
        destruct (predict_loop_raises_NameError G feats _ ∅ Hslice Hkeys Hzero Hex)
          as (e' & He' & Hn'). congruence.
  - exists e. split; [reflexivity|]. intros (feats & Hf). discriminate.
Qed.

End PosesFacts.

(** C1 at the three-frame sequence with [pose_model_input] "pairs": a
    run of the theorem. *)
Lemma predict_poses_pairs_raises_witness :
  exists e,
    Poses.predict_poses (value:=unit)
      (fun _ _ => tt) (fun _ => tt) (fun _ _ _ => Ok tt)
      (fun _ _ => Ok (tt, tt)) (fun o _ _ _ => Ok o)
      ∅ {| Poses.frame_ids := [Poses.Frame 0; Poses.Frame (-1); Poses.Frame 1];
           Poses.pose_model_type := "separate_resnet";
           Poses.num_input_frames := 3;
           Poses.num_pose_frames := 2;
           Poses.use_pose_net := true |}
      Poses.batch3 ∅ = Raise e /\
    ((exists feats,
        Poses.pose_feats (value:=unit)
          {| Poses.frame_ids := [Poses.Frame 0; Poses.Frame (-1); Poses.Frame 1];
             Poses.pose_model_type := "separate_resnet";
             Poses.num_input_frames := 3;
             Poses.num_pose_frames := 2;
             Poses.use_pose_net := true |}
          Poses.batch3 ∅ = Ok feats) ->
     ((∅ : Poses.globals (value:=unit)) !! "h_side" = None -> e = NameError "h_side") /\
     ((forall (v : unit) (a b : Poses.binding (value:=unit)),
         exists v', (fun _ _ _ => Ok tt) v a b = Ok v') ->
      is_NameError e = true)).
Proof.
  apply (predict_poses_pairs_raises _ _ _ _ _ Poses.opt_pairs).
  - reflexivity.
  - reflexivity.
  - apply Exists_cons_hd. discriminate.
Defined.

Lemma predict_poses_pairs_example :
  Poses.predict_poses (value:=unit)
    (fun _ _ => tt) (fun _ => tt) (fun _ _ _ => Ok tt)
    (fun _ _ => Ok (tt, tt)) (fun o _ _ _ => Ok o)
    ∅ {| Poses.frame_ids := [Poses.Frame 0; Poses.Frame (-1); Poses.Frame 1];
         Poses.pose_model_type := "separate_resnet";
         Poses.num_input_frames := 3;
         Poses.num_pose_frames := 2;
         Poses.use_pose_net := true |}
    Poses.batch3 ∅ = Raise (NameError "h_side").
Proof. vm_compute. reflexivity. Qed.

(** C1 as stated fails: with [pose_model_input] "all" the three-frame
    trainer has [num_pose_frames == 3], the body of [predict_poses] is
    skipped, and the call returns the empty dictionary although the batch has
    monocular neighbours. *)
Lemma predict_poses_all_returns_empty :
  exists self,
    Poses.init Poses.opt_all = Ok self /\
    Exists (fun f => f <> Poses.Stereo) (tail (Poses.frame_ids self)) /\
    Poses.predict_poses (value:=unit)
      (fun _ _ => tt) (fun _ => tt) (fun _ _ _ => Ok tt)
      (fun _ _ => Ok (tt, tt)) (fun o _ _ _ => Ok o)
      ∅ self Poses.batch3 ∅ = Ok ∅.
Proof.
  eexists. split; [reflexivity|]. split.
  - apply Exists_cons_hd. discriminate.
  - reflexivity.
Qed.

(** ** [pose_by_ransac] *)

Lemma py_slice_lookup {A} (start stop : nat) (l : list A) (i : nat) :
  Ransac.py_slice start stop l !! i =
  if decide (start + i + stop < length l)%nat then l !! (start + i)%nat else None.
Proof.
  unfold Ransac.py_slice. case_decide as H.
  - rewrite lookup_take_lt by lia. apply lookup_drop.
  - apply lookup_take_ge. lia.
Qed.

(** The margin-trimmed grid holds exactly the entries at least ten rows and
    ten columns away from every border. *)
Lemma trim_plane_spec {scalar} (p : list (list scalar)) (x : scalar) :
  x ∈ Ransac.trim_plane p <->
  exists r c row,
    p !! r = Some row /\ row !! c = Some x /\
    (10 <= r /\ r + 10 < length p)%nat /\ (10 <= c /\ c + 10 < length row)%nat.
Proof.
  unfold Ransac.trim_plane, Ransac.margin.
  rewrite list_elem_of_In, in_concat. split.
  - intros (l & Hl & Hx). apply in_map_iff in Hl as (row & <- & Hrow).
    apply list_elem_of_In, list_elem_of_lookup in Hrow as (i & Hi).
    apply list_elem_of_In, list_elem_of_lookup in Hx as (j & Hj).
    rewrite py_slice_lookup in Hi. rewrite py_slice_lookup in Hj.
    repeat case_decide; try discriminate.
    exists (10 + i)%nat, (10 + j)%nat, row. repeat split; auto; lia.
  - intros (r & c & row & Hr & Hc & [Hr1 Hr2] & [Hc1 Hc2]).
    exists (Ransac.py_slice 10 10 row). split.
    + apply in_map_iff. exists row. split; [reflexivity|].
      apply list_elem_of_In, list_elem_of_lookup. exists (r - 10)%nat.
      rewrite py_slice_lookup, decide_True by lia.
      replace (10 + (r - 10))%nat with r by lia. exact Hr.
    + apply list_elem_of_In, list_elem_of_lookup. exists (c - 10)%nat.
      rewrite py_slice_lookup, decide_True by lia.
      replace (10 + (c - 10))%nat with c by lia. exact Hc.
Qed.

Section RansacFacts.
Import Ransac.
Context {image descriptor point scalar matrix pose : Type}.
Variable min_matches : Z.
Variable SAMPLE_SP : bool.
Variable sift surf : image -> list point * descriptor.
Variable flann_knnMatch : descriptor -> descriptor -> result (list (list dmatch)).
Variable sift_coords : list point -> result (coords scalar).
Variable sample_sp gather : field scalar -> list point -> result (coords scalar).
Variable project : matrix -> coords scalar -> list (scalar * scalar).
Variable compute_P_matrix_ransac :
  list (scalar * scalar) -> list (scalar * scalar) -> matrix -> result (pose * pose).

(** C6 (as amended).  With [cfg.SIFT_POSE] off, an item with fewer than
    [min_matches] entries in [PTS1] or [PTS2] gets its correspondences from
    the two coordinate fields on the grid trimmed by ten pixels on every
    border; selecting them raises nothing, and the five-point RANSAC is run
    on exactly these points. *)
Theorem few_matches_dense_sampling (intrinsic_inv_gpu : list matrix) (batch : nat)
    (p1 p2 : pts) (c1 c2 : field scalar) :
  len p1 < min_matches \/ len p2 < min_matches ->
  select_coords min_matches false SAMPLE_SP sift_coords sample_sp gather p1 p2 c1 c2
    = Ok (dense c1, dense c2) /\
  estimate_item min_matches false SAMPLE_SP sift_coords sample_sp gather
      project compute_P_matrix_ransac intrinsic_inv_gpu batch p1 p2 c1 c2
    = run_ransac project compute_P_matrix_ransac intrinsic_inv_gpu batch
        (dense c1, dense c2) /\
  (forall (pl : plane scalar) (x : scalar),
     x ∈ trim_plane pl <->
     exists r c row, pl !! r = Some row /\ row !! c = Some x /\
       (10 <= r /\ r + 10 < length pl)%nat /\ (10 <= c /\ c + 10 < length row)%nat).
Proof.
  intros Hfew.
  assert (Hsel : select_coords min_matches false SAMPLE_SP sift_coords sample_sp
                   gather p1 p2 c1 c2 = Ok (dense c1, dense c2)).
  { unfold select_coords.
    replace ((len p1 <? min_matches) || (len p2 <? min_matches)) with true;
      [reflexivity|].
    symmetry. apply orb_true_iff. rewrite !Z.ltb_lt. exact Hfew. }
  split; [exact Hsel|]. split.
  - unfold estimate_item. rewrite Hsel. reflexivity.
  - intros pl x. apply trim_plane_spec.
Qed.

(** The [[None]] marker comes from the handler at line 742 and from nowhere
    else. *)
Lemma match_item_marker (ref_cv tar_cv : image) :
  let d := detect min_matches sift surf ref_cv tar_cv in
  match match_keypoints min_matches flann_knnMatch d.1.1 d.2.1 d.1.2 d.2.2 with
  | Ok r =>
      match_item min_matches sift surf flann_knnMatch ref_cv tar_cv = r /\
      exists l1 l2, r = (PtsArray l1, PtsArray l2)
  | Raise _ =>
      match_item min_matches sift surf flann_knnMatch ref_cv tar_cv = (PtsNone, PtsNone)
  end.
Proof.
  intros d. unfold match_item. fold d.
  destruct (match_keypoints _ _ _ _ _ _) as [r|e] eqn:H; [|reflexivity].
  split; [reflexivity|]. unfold match_keypoints in H.
  apply rbind_Ok in H as (ms & _ & H). apply rbind_Ok in H as (r1 & _ & H).
  apply rbind_Ok in H as (r2 & _ & [= <-]). eauto.
Qed.

(** The branch that tolerates a failed matching.  The [[None]] marker is
    appended exactly when the body of [try] raises; otherwise two arrays of
    matches are appended.  With [cfg.SIFT_POSE] off and [min_matches] at
    least two, the marker has length one, so the item falls back to the
    margin-trimmed dense samples and RANSAC is run on them: the marker
    itself raises nothing. *)
Theorem matching_failure_tolerated (ref_cv tar_cv : image)
    (intrinsic_inv_gpu : list matrix) (batch : nat) (c1 c2 : field scalar) :
  1 < min_matches ->
  (let d := detect min_matches sift surf ref_cv tar_cv in
   (match_item min_matches sift surf flann_knnMatch ref_cv tar_cv = (PtsNone, PtsNone)
    <-> exists e, match_keypoints min_matches flann_knnMatch d.1.1 d.2.1 d.1.2 d.2.2 = Raise e)) /\
  select_coords min_matches false SAMPLE_SP sift_coords sample_sp gather
      PtsNone PtsNone c1 c2 = Ok (dense c1, dense c2) /\
  estimate_item min_matches false SAMPLE_SP sift_coords sample_sp gather
      project compute_P_matrix_ransac intrinsic_inv_gpu batch PtsNone PtsNone c1 c2
    = run_ransac project compute_P_matrix_ransac intrinsic_inv_gpu batch
        (dense c1, dense c2).
Proof.
  intros Hmin. split.
  - intros d. pose proof (match_item_marker ref_cv tar_cv) as H.
    simpl in H. fold d in H.
    destruct (match_keypoints _ _ _ _ _ _) as [r|e].
    + destruct H as [-> (l1 & l2 & ->)]. split; [discriminate|].
      intros [e He]. discriminate.
    + split; eauto.
  - assert (Hsel : select_coords min_matches false SAMPLE_SP sift_coords sample_sp
                     gather PtsNone PtsNone c1 c2 = Ok (dense c1, dense c2)).
    { unfold select_coords. simpl.
      replace (1 <? min_matches) with true; [reflexivity|].
      symmetry. apply Z.ltb_lt. exact Hmin. }
    split; [exact Hsel|]. unfold estimate_item. rewrite Hsel. reflexivity.
Qed.

(** The other branch does not: with [cfg.SIFT_POSE] on, or with
    [min_matches] below two, the marker is handed to an array operation,
    which raises. *)
Lemma marker_raises (SIFT_POSE : bool) (c1 c2 : field scalar) :
  SIFT_POSE = true \/ min_matches <= 1 ->
  select_coords min_matches SIFT_POSE SAMPLE_SP sift_coords sample_sp gather
      PtsNone PtsNone c1 c2 = Raise (TypeError "NoneType").
Proof.
  intros H. unfold select_coords. destruct SIFT_POSE; [reflexivity|].
  destruct H as [H|H]; [discriminate|]. simpl.
  replace (1 <? min_matches) with false; [reflexivity|].
  symmetry. apply Z.ltb_ge. exact H.
Qed.

End RansacFacts.

(** C6 on the example batch: one match where eight are asked for. *)
Lemma few_matches_dense_sampling_witness :
  RansacExample.select_coords false (Ransac.PtsArray [(5, 5)]) (Ransac.PtsArray [(5, 5)])
    = Ok (Ransac.dense (RansacExample.flow2coord 1).1,
          Ransac.dense (RansacExample.flow2coord 1).2) /\
  Ransac.estimate_item RansacExample.min_matches false false
      RansacExample.sift_coords RansacExample.gather RansacExample.gather
      RansacExample.project RansacExample.ransac [tt] 0%nat
      (Ransac.PtsArray [(5, 5)]) (Ransac.PtsArray [(5, 5)])
      (RansacExample.flow2coord 1).1 (RansacExample.flow2coord 1).2
    = Ransac.run_ransac RansacExample.project RansacExample.ransac [tt] 0%nat
        (Ransac.dense (RansacExample.flow2coord 1).1,
         Ransac.dense (RansacExample.flow2coord 1).2) /\
  (forall (pl : Ransac.plane Z) (x : Z),
     x ∈ Ransac.trim_plane pl <->
     exists r c row, pl !! r = Some row /\ row !! c = Some x /\
       (10 <= r /\ r + 10 < length pl)%nat /\ (10 <= c /\ c + 10 < length row)%nat).
Proof.
  apply (few_matches_dense_sampling RansacExample.min_matches false
           RansacExample.sift_coords RansacExample.gather RansacExample.gather
           RansacExample.project RansacExample.ransac [tt] 0%nat
           (Ransac.PtsArray [(5, 5)]) (Ransac.PtsArray [(5, 5)])).
  left. reflexivity.
Defined.

(** C6 as stated fails: with [cfg.SIFT_POSE] on, the same item, with its
    single match, is handed to RANSAC as it is; the flow fields are not
    sampled. *)
Lemma few_matches_sift_pose_not_dense :
  Ransac.len (Ransac.PtsArray [(5, 5)]) < RansacExample.min_matches /\
  RansacExample.select_coords true (Ransac.PtsArray [(5, 5)]) (Ransac.PtsArray [(5, 5)])
    = Ok (([5], [5], [1]), ([5], [5], [1])) /\
  Ok (([5], [5], [1]), ([5], [5], [1]))
    <> Ok (Ransac.dense (RansacExample.flow2coord 1).1,
           Ransac.dense (RansacExample.flow2coord 1).2) /\
  RansacExample.pose_by_ransac true [1%nat] [1%nat] = Ok ([[(5, 5)]], [[(5, 5)]]).
Proof.
  split; [reflexivity|]. split; [reflexivity|]. split.
  - vm_compute. discriminate.
  - vm_compute. reflexivity.
Qed.

(** The tolerant branch on the example batch: the textureless image [0]
    against itself. *)
Lemma matching_failure_tolerated_witness :
  (let d := Ransac.detect RansacExample.min_matches RansacExample.sift
              RansacExample.sift 0%nat 0%nat in
   (Ransac.match_item RansacExample.min_matches RansacExample.sift RansacExample.sift
      RansacExample.flann_knnMatch 0%nat 0%nat = (Ransac.PtsNone, Ransac.PtsNone)
    <-> exists e, Ransac.match_keypoints RansacExample.min_matches
                    RansacExample.flann_knnMatch d.1.1 d.2.1 d.1.2 d.2.2 = Raise e)) /\
  Ransac.select_coords RansacExample.min_matches false false
      RansacExample.sift_coords RansacExample.gather RansacExample.gather
      Ransac.PtsNone Ransac.PtsNone
      (RansacExample.flow2coord 1).1 (RansacExample.flow2coord 1).2
    = Ok (Ransac.dense (RansacExample.flow2coord 1).1,
          Ransac.dense (RansacExample.flow2coord 1).2) /\
  Ransac.estimate_item RansacExample.min_matches false false
      RansacExample.sift_coords RansacExample.gather RansacExample.gather
      RansacExample.project RansacExample.ransac [tt] 0%nat Ransac.PtsNone Ransac.PtsNone
      (RansacExample.flow2coord 1).1 (RansacExample.flow2coord 1).2
    = Ransac.run_ransac RansacExample.project RansacExample.ransac [tt] 0%nat
        (Ransac.dense (RansacExample.flow2coord 1).1,
         Ransac.dense (RansacExample.flow2coord 1).2).
Proof.
  apply (matching_failure_tolerated RansacExample.min_matches false
           RansacExample.sift RansacExample.sift RansacExample.flann_knnMatch
           RansacExample.sift_coords RansacExample.gather RansacExample.gather
           RansacExample.project RansacExample.ransac 0%nat 0%nat [tt] 0%nat).
  reflexivity.
Defined.

(** C7.  The handler of line 742 is there to let an item without
    correspondences pass ("if cannot find corresponding pairs, ignore this
    sift mask"), and with [cfg.SIFT_POSE] off it does.  With [cfg.SIFT_POSE]
    on it does not: in a batch of two items whose second item is the
    textureless image, the matching of that item raises, the marker is
    appended for it, and line 750 hands the marker to [torch.FloatTensor]:
    the whole call raises, and the poses of the first item, which has
    matches, are lost with it. *)
Lemma matching_failure_crashes_sift_pose :
  Ransac.match_item RansacExample.min_matches RansacExample.sift RansacExample.sift
    RansacExample.flann_knnMatch 0%nat 0%nat = (Ransac.PtsNone, Ransac.PtsNone) /\
  RansacExample.pose_by_ransac true [1%nat; 0%nat] [1%nat; 0%nat]
    = Raise (TypeError "NoneType").
Proof. split; vm_compute; reflexivity. Qed.

(** With [cfg.SIFT_POSE] off the same batch goes through: the second item is
    estimated from the 144 samples of the trimmed 32 by 32 grid. *)
Lemma matching_failure_example :
  exists P0 P1 E0 E1,
    RansacExample.pose_by_ransac false [1%nat; 0%nat] [1%nat; 0%nat]
      = Ok ([P0; P1], [E0; E1]) /\
    length P1 = 144%nat /\ length E1 = 144%nat.
Proof. do 4 eexists. split; [vm_compute; reflexivity|]. split; reflexivity. Qed.

(** ** Binary32 arithmetic *)

Lemma f32_add_comm (x y : spec_float) : F32.add x y = F32.add y x.
Proof.
  unfold F32.add, SFadd.
  destruct x as [[]|[]| |sx mx ex], y as [[]|[]| |sy my ey]; try reflexivity.
  rewrite (Z.min_comm ex ey), Z.add_comm. reflexivity.
Qed.

Lemma f32_add_nan_l (x : spec_float) : F32.add F32.nan x = F32.nan.
Proof. reflexivity. Qed.

Lemma f32_add_nan_r (x : spec_float) : F32.add x F32.nan = F32.nan.
Proof. rewrite f32_add_comm. reflexivity. Qed.

Lemma f32_div_nan_l (x : spec_float) : F32.div F32.nan x = F32.nan.
Proof. reflexivity. Qed.

Lemma f32_mul_nan_r (x : spec_float) : F32.mul x F32.nan = F32.nan.
Proof. destruct x as [[]|[]| |[] ? ?]; reflexivity. Qed.

(** [0 + x] is [x], up to the sign of a zero. *)
Lemma f32_add_zero_l (x : spec_float) :
  F32.add F32.zero x = match x with S754_zero _ => F32.zero | _ => x end.
Proof. destruct x as [[]|[]| |[] ? ?]; reflexivity. Qed.

(** The two orders of adding two numbers to an empty sum agree. *)
Lemma f32_add_zero_swap (a b : spec_float) :
  F32.add (F32.add F32.zero a) b = F32.add (F32.add F32.zero b) a.
Proof.
  rewrite !f32_add_zero_l.
  destruct a as [[]|[]| |sa ma ea], b as [[]|[]| |sb mb eb];
    try reflexivity; apply f32_add_comm.
Qed.

Lemma f32_sub_self (x : spec_float) :
  F32.is_finite x = true -> F32.sub x x = F32.zero.
Proof.
  destruct x as [[]|[]| |sx mx ex]; try discriminate; intros _; try reflexivity.
  unfold F32.sub, SFsub. rewrite Z.sub_diag. reflexivity.
Qed.

Lemma f32_abs_zero (x : spec_float) :
  F32.is_zero x = true -> F32.is_zero (F32.abs x) = true.
Proof. destruct x; try discriminate. reflexivity. Qed.

Lemma f32_add_zeros (x y : spec_float) :
  F32.is_zero x = true -> F32.is_zero y = true -> F32.is_zero (F32.add x y) = true.
Proof. destruct x as [[]| | |], y as [[]| | |]; try discriminate; reflexivity. Qed.

Lemma f32_mul_zero_l (x y : spec_float) :
  F32.is_zero x = true -> F32.is_finite y = true -> F32.is_zero (F32.mul x y) = true.
Proof. destruct x as [[]| | |], y as [[]|[]| |[] ? ?]; try discriminate; reflexivity. Qed.

Lemma f32_mul_zero_r (x y : spec_float) :
  F32.is_finite x = true -> F32.is_zero y = true -> F32.is_zero (F32.mul x y) = true.
Proof. destruct y as [[]| | |], x as [[]|[]| |[] ? ?]; try discriminate; reflexivity. Qed.

Lemma f32_div_zero_l (x y : spec_float) :
  F32.is_zero x = true -> F32.is_nonzero y = true -> F32.is_zero (F32.div x y) = true.
Proof. destruct x as [[]| | |], y as [[]|[]| |[] ? ?]; try discriminate; reflexivity. Qed.

(** Adding a zero leaves the value of a number unchanged. *)
Lemma f32_add_zero_r_value (x z : spec_float) :
  F32.is_zero z = true ->
  F32.add x z = x \/ (F32.is_zero x = true /\ F32.is_zero (F32.add x z) = true).
Proof.
  destruct z as [[]| | |]; try discriminate; intros _;
    destruct x as [[]|[]| |[] ? ?]; auto.
Qed.

(** *** Rounding a positive number never gives a zero or NaN *)

Lemma digits2_pos_lower (m : positive) :
  2 ^ (Zpos (digits2_pos m) - 1) <= Zpos m.
Proof.
  induction m as [m IH|m IH|]; simpl digits2_pos.
  - rewrite Pos2Z.inj_succ. replace (Z.succ (Zpos (digits2_pos m)) - 1)
      with (Z.succ (Zpos (digits2_pos m) - 1)) by lia.
    rewrite Z.pow_succ_r by lia. lia.
  - rewrite Pos2Z.inj_succ. replace (Z.succ (Zpos (digits2_pos m)) - 1)
      with (Z.succ (Zpos (digits2_pos m) - 1)) by lia.
    rewrite Z.pow_succ_r by lia. lia.
  - simpl. lia.
Qed.

Lemma shr_1_m (r : shr_record) :
  0 <= shr_m r -> shr_m (shr_1 r) = Z.div2 (shr_m r).
Proof.
  destruct r as [m b s]. simpl. destruct m as [|[p|p|]|p]; simpl; try reflexivity; lia.
Qed.

Lemma iter_shr_1_m (p : positive) : forall r : shr_record,
  0 <= shr_m r -> shr_m (SpecFloat.iter_pos shr_1 p r) = Z.shiftr (shr_m r) (Zpos p).
Proof.
  assert (Hdiv2 : forall z, 0 <= z -> 0 <= Z.div2 z).
  { intros z Hz. rewrite Z.div2_div. apply Z.div_pos; lia. }
  assert (Hshr : forall z n, 0 <= z -> 0 <= n -> 0 <= Z.shiftr z n).
  { intros z n Hz Hn. apply Z.shiftr_nonneg. exact Hz. }
  induction p as [p IH|p IH|]; intros r Hr; simpl SpecFloat.iter_pos.
  - assert (H1 : 0 <= shr_m (shr_1 r)) by (rewrite shr_1_m; auto).
    assert (H2 : 0 <= shr_m (SpecFloat.iter_pos shr_1 p (shr_1 r)))
      by (rewrite IH by exact H1; apply Hshr; [exact H1 | lia]).
    rewrite (IH _ H2), (IH _ H1), shr_1_m by exact Hr.
    rewrite Z.div2_spec, !Z.shiftr_shiftr by lia. f_equal. lia.
  - assert (H2 : 0 <= shr_m (SpecFloat.iter_pos shr_1 p r))
      by (rewrite IH by exact Hr; apply Hshr; [exact Hr | lia]).
    rewrite (IH _ H2), (IH _ Hr).
    rewrite Z.shiftr_shiftr by lia. f_equal. lia.
  - rewrite shr_1_m by exact Hr. apply Z.div2_spec.
Qed.

Lemma shr_record_of_loc_m (m : Z) (l : location) : shr_m (shr_record_of_loc m l) = m.
Proof. destruct l as [|[]]; reflexivity. Qed.

(** Shifting to the binary32 exponent keeps a positive mantissa positive,
    as long as the exponent is not below the smallest one. *)
Lemma shr_fexp_pos (m : positive) (e : Z) (l : location) :
  -149 <= e ->
  exists m' e', shr_m (fst (shr_fexp F32.prec F32.emax (Zpos m) e l)) = Zpos m' /\
                snd (shr_fexp F32.prec F32.emax (Zpos m) e l) = e' /\ e <= e'.
Proof.
  intros He. unfold shr_fexp, shr, fexp, emin, F32.prec, F32.emax.
  simpl Zdigits2. set (d := Zpos (digits2_pos m)).
  destruct (Z.max (d + e - 24) (3 - 128 - 24) - e) as [|p|p] eqn:Hn; simpl.
  - rewrite shr_record_of_loc_m. exists m, e. repeat split; lia.
  - rewrite iter_shr_1_m by (rewrite shr_record_of_loc_m; lia).
    rewrite shr_record_of_loc_m.
    assert (Hp : Zpos p = d - 24) by lia.
    assert (Hpos : 0 < Z.shiftr (Zpos m) (Zpos p)).
    { rewrite Z.shiftr_div_pow2 by lia. apply Z.div_str_pos. split.
      - apply Z.pow_pos_nonneg; lia.
      - etransitivity; [|apply digits2_pos_lower]. fold d.
        apply Z.pow_le_mono_r; lia. }
    destruct (Z.shiftr (Zpos m) (Zpos p)) as [|m'|m'] eqn:Hs; try lia.
    exists m', (e + Zpos p). repeat split; lia.
  - rewrite shr_record_of_loc_m. exists m, e. repeat split; lia.
Qed.

Lemma round_nearest_even_pos (m : positive) (l : location) :
  exists m', round_nearest_even (Zpos m) l = Zpos m'.
Proof.
  destruct l as [|[]]; simpl; eauto.
  - destruct m; simpl; eauto.
Qed.

Lemma binary_round_aux_pos (m : positive) (e : Z) (l : location) :
  -149 <= e -> F32.pos (binary_round_aux F32.prec F32.emax false (Zpos m) e l).
Proof.
  intros He. unfold binary_round_aux.
  destruct (shr_fexp_pos m e l He) as (m1 & e1 & Hm1 & He1 & Hle1).
  destruct (shr_fexp F32.prec F32.emax (Zpos m) e l) as [mrs1 e1'].
  simpl in Hm1, He1. subst e1'. rewrite Hm1.
  destruct (round_nearest_even_pos m1 (loc_of_shr_record mrs1)) as (m2 & ->).
  destruct (shr_fexp_pos m2 e1 loc_Exact ltac:(lia)) as (m3 & e3 & Hm3 & He3 & Hle3).
  destruct (shr_fexp F32.prec F32.emax (Zpos m2) e1 loc_Exact) as [mrs3 e3'].
  simpl in Hm3, He3. subst e3'. rewrite Hm3.
  destruct (e3 <=? F32.emax - F32.prec); simpl; [lia | exact I].
Qed.

Lemma binary_round_pos (m : positive) (e : Z) :
  -149 <= e -> F32.pos (binary_round F32.prec F32.emax false m e).
Proof.
  intros He. unfold binary_round, shl_align.
  set (e' := fexp F32.prec F32.emax (Zpos (digits2_pos m) + e)).
  assert (He' : -149 <= e').
  { unfold e', fexp, emin, F32.prec, F32.emax. lia. }
  destruct (e' - e) as [|p|p]; apply binary_round_aux_pos; assumption.
Qed.

Lemma f32_positive_nonzero (x : spec_float) : F32.pos x -> F32.is_nonzero x = true.
Proof. destruct x as [|[]| |[] ? ?]; simpl; try contradiction; reflexivity. Qed.

(** The binary32 value of a positive integer is a number other than zero. *)
Lemma f32_of_Z_pos (z : Z) : 0 < z -> F32.pos (F32.of_Z z).
Proof.
  destruct z as [|p|p]; try lia. intros _.
  unfold F32.of_Z, binary_normalize. apply binary_round_pos. lia.
Qed.

Lemma f32_of_nat_nonzero (n : nat) : (0 < n)%nat -> F32.is_nonzero (F32.of_nat n) = true.
Proof. intros H. apply f32_positive_nonzero, f32_of_Z_pos. lia. Qed.

Lemma f32_add_pos (x y : spec_float) : F32.pos x -> F32.pos y -> F32.pos (F32.add x y).
Proof.
  destruct x as [|[]| |[] mx ex], y as [|[]| |[] my ey]; simpl; try contradiction; auto.
  intros Hx Hy. unfold F32.add, SFadd. simpl cond_Zopp.
  apply binary_round_pos. lia.
Qed.

(** A sum of positive numbers that starts from [0] or from a positive
    number is positive as soon as it has a summand. *)
Lemma f32_sum_pos (l : list spec_float) : forall acc,
  Forall F32.pos l -> F32.pos acc -> F32.pos (fold_left F32.add l acc).
Proof.
  induction l as [|x l IH]; intros acc Hl Hacc; simpl; [exact Hacc|].
  inversion Hl; subst. apply IH; [assumption|]. apply f32_add_pos; assumption.
Qed.

Lemma f32_sum_pos_zero (l : list spec_float) :
  Forall F32.pos l -> l <> [] -> F32.pos (fold_left F32.add l F32.zero).
Proof.
  destruct l as [|x l]; [congruence|]. intros Hl _. inversion Hl; subst. simpl.
  apply f32_sum_pos; [assumption|].
  destruct x as [|[]| |[] ? ?]; simpl in *; try contradiction; auto.
Qed.

Lemma f32_one_pos : F32.pos F32.one.
Proof. vm_compute. discriminate. Qed.

(** ** Tensor operations *)

Lemma mapM_Forall {A B} (f : A -> result B) (P : A -> Prop) (Q : B -> Prop) l l' :
  (forall a b, P a -> f a = Ok b -> Q b) ->
  Forall P l -> Torch.mapM f l = Ok l' -> Forall Q l'.
Proof.
  intros Hf Hl. revert l'. induction Hl as [|a l Ha Hl IH]; intros l' H; simpl in H.
  - injection H as <-. constructor.
  - apply rbind_Ok in H as (b & Hb & H). apply rbind_Ok in H as (bs & Hbs & [= <-]).
    constructor; eauto.
Qed.

Lemma mapM_length {A B} (f : A -> result B) l l' :
  Torch.mapM f l = Ok l' -> length l' = length l.
Proof.
  revert l'. induction l as [|a l IH]; intros l' H; simpl in H.
  - injection H as <-. reflexivity.
  - apply rbind_Ok in H as (b & Hb & H). apply rbind_Ok in H as (bs & Hbs & [= <-]).
    simpl. f_equal. auto.
Qed.

Lemma mapM_total {A B} (f : A -> result B) (g : A -> B) l :
  (forall a, f a = Ok (g a)) -> Torch.mapM f l = Ok (map g l).
Proof.
  intros Hf. induction l as [|a l IH]; simpl; [reflexivity|].
  rewrite Hf, IH. reflexivity.
Qed.

Lemma Forall_zip_pair {A B} (P : A -> Prop) (Q : B -> Prop) (xs : list A) (ys : list B) :
  Forall P xs -> Forall Q ys -> Forall (fun xy => P xy.1 /\ Q xy.2) (zip xs ys).
Proof.
  intros Hx. revert ys. induction Hx as [|x xs Hx Hxs IH]; intros ys Hy; [constructor|].
  destruct Hy as [|y ys Hy Hys]; simpl; constructor; auto.
Qed.

(** One dimension of a broadcasting operation: a property of all pairs of
    entries holds for the entries of the result. *)
Lemma broadcast2_Forall {A B C} (f : A -> B -> result C)
    (P : A -> Prop) (Q : B -> Prop) (R : C -> Prop) xs ys zs :
  (forall a b c, P a -> Q b -> f a b = Ok c -> R c) ->
  Forall P xs -> Forall Q ys ->
  Torch.broadcast2 f xs ys = Ok zs -> Forall R zs.
Proof.
  intros Hf Hx Hy. unfold Torch.broadcast2. case_bool_decide as Hlen.
  - apply mapM_Forall with (P := fun xy => P xy.1 /\ Q xy.2).
    + intros [a b] c [Ha Hb]. apply Hf; assumption.
    + apply Forall_zip_pair; assumption.
  - destruct xs as [|x [|x' xs]].
    + destruct ys as [|y [|y' ys]]; try discriminate.
      simpl. intros [= <-]. constructor.
    + apply mapM_Forall with (P := Q); [|exact Hy].
      intros b c Hb. apply Hf; [|exact Hb]. inversion Hx; assumption.
    + destruct ys as [|y [|y' ys]]; try discriminate.
      apply mapM_Forall with (P := P); [|exact Hx].
      intros a c Ha. apply Hf; [exact Ha|]. inversion Hy; assumption.
Qed.

Lemma pointwise_all (f : spec_float -> spec_float -> spec_float)
    (P Q R : spec_float -> Prop) (a b c : Torch.tensor) :
  (forall x y, P x -> Q y -> R (f x y)) ->
  Torch.all_entries P a -> Torch.all_entries Q b ->
  Torch.pointwise f a b = Ok c -> Torch.all_entries R c.
Proof.
  intros Hf. unfold Torch.pointwise, Torch.all_entries.
  apply broadcast2_Forall. intros a1 b1 c1.
  apply broadcast2_Forall. intros a2 b2 c2.
  apply broadcast2_Forall. intros a3 b3 c3.
  apply broadcast2_Forall. intros x y z Hx Hy [= <-]. apply Hf; assumption.
Qed.

Lemma broadcast2_diag {A C} (f : A -> A -> result C) (g : A -> C) xs :
  (forall x, f x x = Ok (g x)) -> Torch.broadcast2 f xs xs = Ok (map g xs).
Proof.
  intros Hf. unfold Torch.broadcast2. rewrite bool_decide_eq_true_2 by reflexivity.
  induction xs as [|x xs IH]; simpl; [reflexivity|]. rewrite Hf, IH. reflexivity.
Qed.

(** An operation applied to a tensor and itself needs no broadcasting. *)
Lemma pointwise_diag (f : spec_float -> spec_float -> spec_float) (t : Torch.tensor) :
  Torch.pointwise f t t = Ok (Torch.tmap (fun x => f x x) t).
Proof.
  unfold Torch.pointwise, Torch.tmap.
  apply broadcast2_diag. intros a. apply broadcast2_diag. intros b.
  apply broadcast2_diag. intros c. apply broadcast2_diag. reflexivity.
Qed.

Lemma Forall_map_impl {A B} (f : A -> B) (P : A -> Prop) (Q : B -> Prop) l :
  (forall x, P x -> Q (f x)) -> Forall P l -> Forall Q (map f l).
Proof. intros Hf. induction 1; simpl; constructor; auto. Qed.

Lemma tmap_all (f : spec_float -> spec_float) (P Q : spec_float -> Prop) (t : Torch.tensor) :
  (forall x, P x -> Q (f x)) ->
  Torch.all_entries P t -> Torch.all_entries Q (Torch.tmap f t).
Proof.
  intros Hf. unfold Torch.all_entries, Torch.tmap.
  apply Forall_map_impl. intros a. apply Forall_map_impl. intros b.
  apply Forall_map_impl. intros c. apply Forall_map_impl. exact Hf.
Qed.

Lemma Forall_concat_all {A} (P : A -> Prop) (ls : list (list A)) :
  Forall (Forall P) ls -> Forall P (concat ls).
Proof.
  induction 1 as [|l ls Hl Hls IH]; simpl; [constructor|].
  apply Forall_app. split; assumption.
Qed.

Lemma all_entries_Forall (P : spec_float -> Prop) (t : Torch.tensor) :
  Torch.all_entries P t -> Forall P (Torch.entries t).
Proof.
  unfold Torch.all_entries, Torch.entries. intros H.
  apply Forall_concat_all, Forall_concat_all, Forall_concat_all.
  exact H.
Qed.

Lemma Forall_zip_with_all {A} (f : A -> A -> A) (P : A -> Prop) xs ys :
  (forall x y, P x -> P y -> P (f x y)) ->
  Forall P xs -> Forall P ys -> Forall P (zip_with f xs ys).
Proof.
  intros Hf Hx. revert ys. induction Hx as [|x xs Hx Hxs IH]; intros ys Hy; [constructor|].
  destruct Hy as [|y ys Hy Hys]; simpl; constructor; auto.
Qed.

Lemma sum_zero (l : list spec_float) : forall acc,
  Forall (fun x => F32.is_zero x = true) l -> F32.is_zero acc = true ->
  F32.is_zero (fold_left F32.add l acc) = true.
Proof.
  induction l as [|x l IH]; intros acc Hl Hacc; simpl; [exact Hacc|].
  inversion Hl; subst. apply IH; [assumption|]. apply f32_add_zeros; assumption.
Qed.

Lemma f32_add_zero_or_nan (x y : spec_float) :
  F32.is_zero_or_nan x = true -> F32.is_zero_or_nan y = true ->
  F32.is_zero_or_nan (F32.add x y) = true.
Proof. destruct x as [[]| | |], y as [[]| | |]; try discriminate; reflexivity. Qed.

Lemma sum_zero_or_nan (l : list spec_float) : forall acc,
  Forall (fun x => F32.is_zero_or_nan x = true) l -> F32.is_zero_or_nan acc = true ->
  F32.is_zero_or_nan (fold_left F32.add l acc) = true.
Proof.
  induction l as [|x l IH]; intros acc Hl Hacc; simpl; [exact Hacc|].
  inversion Hl; subst. apply IH; [assumption|]. apply f32_add_zero_or_nan; assumption.
Qed.

Lemma f32_mul_by_zero (x y : spec_float) :
  F32.is_zero y = true -> F32.is_zero_or_nan (F32.mul x y) = true.
Proof. destruct y as [[]| | |]; try discriminate; destruct x as [[]|[]| |[] ? ?]; reflexivity. Qed.

Lemma f32_div_by_zero (x y : spec_float) :
  F32.is_zero_or_nan x = true -> F32.is_zero y = true -> F32.div x y = F32.nan.
Proof. destruct x as [[]| | |], y as [[]| | |]; try discriminate; reflexivity. Qed.

(** The mean over the channels of a tensor of zeros is a tensor of zeros. *)
Lemma mean_dim1_zero (t m : Torch.tensor) :
  Torch.all_entries (fun x => F32.is_zero x = true) t ->
  Torch.mean_dim1 t = Ok m ->
  Torch.all_entries (fun x => F32.is_zero x = true) m.
Proof.
  unfold Torch.all_entries, Torch.mean_dim1. intros Ht.
  apply mapM_Forall with (P := Forall (Forall (Forall (fun x => F32.is_zero x = true))));
    [|exact Ht].
  intros channels out Hc. destruct channels as [|p ps]; [discriminate|].
  intros [= <-]. constructor; [|constructor].
  inversion Hc as [|? ? Hp Hps]; subst.
  assert (Hsum : Forall (Forall (fun x => F32.is_zero x = true))
                   (fold_left Torch.plane_add ps p)).
  { clear Hc. revert p Hp. induction Hps as [|q ps Hq Hps IH]; intros p Hp; simpl; [exact Hp|].
    apply IH. apply Forall_zip_with_all; [|exact Hp|exact Hq].
    intros r1 r2. apply Forall_zip_with_all. apply f32_add_zeros. }
  eapply Forall_map_impl; [|exact Hsum]. intros r Hr.
  eapply Forall_map_impl; [|exact Hr]. intros x Hx. simpl.
  apply f32_div_zero_l; [exact Hx|]. apply f32_of_nat_nonzero. simpl. lia.
Qed.

(** [x - x] is zero wherever [x] is finite. *)
Lemma tsub_self_zero (t : Torch.tensor) :
  Torch.all_entries (fun x => F32.is_finite x = true) t ->
  exists d, Torch.tsub t (Torch.detach t) = Ok d /\
            Torch.all_entries (fun x => F32.is_zero x = true) d.
Proof.
  intros Ht. unfold Torch.tsub, Torch.detach. rewrite pointwise_diag.
  eexists. split; [reflexivity|].
  eapply tmap_all; [|exact Ht]. intros x Hx. simpl. rewrite f32_sub_self by exact Hx.
  reflexivity.
Qed.

(** The masked mean of a tensor of zeros is zero when the mask is finite and
    its sum is a number other than zero. *)
Lemma masked_mean_zero (x mask : Torch.tensor) (v : spec_float) :
  Torch.all_entries (fun x => F32.is_zero x = true) x ->
  Torch.all_entries (fun x => F32.is_finite x = true) mask ->
  F32.is_nonzero (Torch.tsum mask) = true ->
  Losses.masked_mean x mask = Ok v -> F32.is_zero v = true.
Proof.
  intros Hx Hm Hs H. unfold Losses.masked_mean in H.
  apply rbind_Ok in H as (p & Hp & [= <-]).
  apply f32_div_zero_l; [|exact Hs]. apply sum_zero; [|reflexivity].
  apply all_entries_Forall. unfold Torch.tmul in Hp.
  eapply pointwise_all; [|exact Hx|exact Hm|exact Hp].
  intros a b. apply f32_mul_zero_l.
Qed.

(** The masked mean under a mask of zeros is NaN: [0 / 0]. *)
Lemma masked_mean_zero_mask (x mask : Torch.tensor) (v : spec_float) :
  Torch.all_entries (fun x => F32.is_zero x = true) mask ->
  Losses.masked_mean x mask = Ok v -> v = F32.nan.
Proof.
  intros Hm H. unfold Losses.masked_mean in H.
  apply rbind_Ok in H as (p & Hp & [= <-]).
  apply f32_div_by_zero.
  - apply sum_zero_or_nan; [|reflexivity]. apply all_entries_Forall.
    unfold Torch.tmul in Hp.
    eapply pointwise_all with (P := fun _ => True); [|  |exact Hm|exact Hp].
    + intros a b _. apply f32_mul_by_zero.
    + unfold Torch.all_entries.
      apply Forall_forall; intros ? _; apply Forall_forall; intros ? _;
      apply Forall_forall; intros ? _; apply Forall_forall; intros ? _; exact I.
  - apply sum_zero; [|reflexivity]. apply all_entries_Forall. exact Hm.
Qed.

(** The sum of a mask of ones with at least one pixel is not zero. *)
Lemma tsum_ones_nonzero (mask : Torch.tensor) :
  Torch.all_entries (fun x => x = F32.one) mask ->
  Torch.entries mask <> [] ->
  F32.is_nonzero (Torch.tsum mask) = true.
Proof.
  intros Hm Hne. apply f32_positive_nonzero. unfold Torch.tsum.
  apply f32_sum_pos_zero; [|exact Hne].
  eapply Forall_impl; [apply all_entries_Forall; exact Hm|].
  intros x ->. apply f32_one_pos.
Qed.

(** ** [compute_losses] *)

Lemma key_loss_inj (s s' : N) : Losses.key_loss s = Losses.key_loss s' -> s = s'.
Proof.
  unfold Losses.key_loss. intros H. simpl in H. injection H as H.
  exact (inj (pretty : N -> string) _ _ H).
Qed.

Lemma key_loss_not_loss (s : N) : Losses.key_loss s <> "loss".
Proof. unfold Losses.key_loss. simpl. discriminate. Qed.

Section LossesFacts.
Import Torch Losses.
Variable ssim : tensor -> tensor -> tensor.
Variable get_smooth_bright : tensor -> tensor -> tensor -> tensor -> spec_float.
Variable get_smooth_loss : tensor -> tensor -> spec_float.
Variable opt : options.
Variable inputs : gmap (string * Poses.frame_id * Z) tensor.
Variable outputs : gmap string tensor.

Abbreviation frame_terms := (frame_terms ssim get_smooth_bright opt inputs outputs).
Abbreviation accumulate_frame := (accumulate_frame ssim get_smooth_bright opt inputs outputs).
Abbreviation scale_loss_over :=
  (scale_loss_over ssim get_smooth_bright get_smooth_loss opt inputs outputs).
Abbreviation scale_loss :=
  (scale_loss ssim get_smooth_bright get_smooth_loss opt inputs outputs).
Abbreviation compute_losses :=
  (compute_losses ssim get_smooth_bright get_smooth_loss opt inputs outputs).

(** The loop over the neighbour frames adds up the three terms of each
    frame. *)
Lemma accumulate_frames (scale : N) fs : forall acc acc',
  for_each (accumulate_frame scale) fs acc = Ok acc' ->
  exists terms,
    mapM (frame_terms scale) fs = Ok terms /\
    acc' = (fold_left F32.add (map (fun t => t.1.1) terms) acc.1.1,
            fold_left F32.add (map (fun t => t.1.2) terms) acc.1.2,
            fold_left F32.add (map (fun t => t.2) terms) acc.2).
Proof.
  induction fs as [|f fs IH]; intros acc acc' H; simpl in H.
  - injection H as <-. exists []. split; [reflexivity|].
    destruct acc as [[? ?] ?]; reflexivity.
  - apply rbind_Ok in H as (acc1 & H1 & H).
    unfold Losses.accumulate_frame in H1.
    apply rbind_Ok in H1 as (t & Ht & [= <-]).
    destruct (IH _ _ H) as (terms & Hterms & ->).
    exists (t :: terms). split; [|reflexivity].
    simpl. rewrite Ht, Hterms. reflexivity.
Qed.

(** What the loss of one scale is made of. *)
Lemma scale_loss_over_Ok (fs : list Poses.frame_id) (scale : N) (loss : spec_float) :
  scale_loss_over fs scale = Ok loss ->
  exists terms disp color smooth_loss,
    mapM (frame_terms scale) fs = Ok terms /\
    outputs !! key_disp scale = Some disp /\
    inputs !! ("color", Poses.Frame 0, Z.of_N scale) = Some color /\
    smooth_term get_smooth_loss scale disp color = Ok smooth_loss /\
    loss = weighted_total opt scale
             (fold_left F32.add (map (fun t => t.1.1) terms) F32.zero)
             (fold_left F32.add (map (fun t => t.1.2) terms) F32.zero)
             (fold_left F32.add (map (fun t => t.2) terms) F32.zero)
             smooth_loss.
Proof.
  unfold Losses.scale_loss_over. intros H.
  apply rbind_Ok in H as (disp & Hdisp & H). apply getitem_Ok in Hdisp.
  apply rbind_Ok in H as (color & Hcolor & H).
  apply rbind_Ok in H as (acc & Hacc & H).
  apply rbind_Ok in H as (smooth & Hsmooth & [= <-]).
  apply accumulate_frames in Hacc as (terms & Hterms & ->).
  exists terms, disp, color, smooth. repeat split; auto.
  unfold Poses.input_item in Hcolor.
  destruct (inputs !! _); [congruence | discriminate].
Qed.

(** Dividing the sum over two frames by [2.0] is taking their average. *)
Lemma weighted_total_average (scale : N)
    (terms : list (spec_float * spec_float * spec_float)) (smooth_loss : spec_float) :
  length terms = 2%nat ->
  weighted_total opt scale
    (fold_left F32.add (map (fun t => t.1.1) terms) F32.zero)
    (fold_left F32.add (map (fun t => t.1.2) terms) F32.zero)
    (fold_left F32.add (map (fun t => t.2) terms) F32.zero)
    smooth_loss
  = averaged_total opt scale terms smooth_loss.
Proof.
  intros Hlen. unfold weighted_total, averaged_total, average.
  rewrite !length_map, Hlen. reflexivity.
Qed.

(** The loop over the scales: the running total and the dictionary. *)
Lemma scales_loop (ss : list N) : forall (total : spec_float) (L : gmap string spec_float) st,
  for_each (fun (st : spec_float * gmap string spec_float) scale =>
      loss <- scale_loss scale ;;
      Ok (F32.add st.1 loss, <[key_loss scale := loss]> st.2)) ss (total, L) = Ok st ->
  exists totals,
    Forall2 (fun s l => scale_loss s = Ok l /\ st.2 !! key_loss s = Some l) ss totals /\
    st.1 = fold_left F32.add totals total /\
    (forall k, (forall s, s ∈ ss -> k <> key_loss s) -> st.2 !! k = L !! k).
Proof.
  induction ss as [|s ss IH]; intros total L st H; simpl in H.
  - injection H as <-. exists []. repeat split; auto.
  - apply rbind_Ok in H as (st1 & H1 & H).
    apply rbind_Ok in H1 as (l & Hl & [= <-]). simpl in H.
    destruct (IH _ _ _ H) as (totals & Hall & Htot & Hframe).
    exists (l :: totals). split; [|split].
    + constructor; [|exact Hall]. split; [exact Hl|].
      destruct (decide (s ∈ ss)) as [Hin|Hnin].
      * apply list_elem_of_lookup in Hin as (i & Hi).
        destruct (Forall2_lookup_l _ _ _ _ _ Hall Hi) as (l' & _ & Hl' & Hk).
        rewrite Hk. congruence.
      * rewrite Hframe, lookup_insert_eq; [reflexivity|].
        intros s' Hs' Heq. apply key_loss_inj in Heq. subst. contradiction.
    + exact Htot.
    + intros k Hk. rewrite Hframe.
      * apply lookup_insert_ne. intros Heq. apply (Hk s); [left|congruence].
      * intros s' Hs'. apply Hk. right. exact Hs'.
Qed.

(** What [compute_losses] returns: one entry per scale and their mean. *)
Lemma compute_losses_Ok (L : gmap string spec_float) :
  compute_losses = Ok L ->
  exists totals,
    Forall2 (fun s l => scale_loss s = Ok l /\ L !! key_loss s = Some l)
      (scales opt) totals /\
    L !! "loss" = Some (average totals) /\
    totals <> [].
Proof.
  unfold Losses.compute_losses. intros H.
  apply rbind_Ok in H as ([total L0] & Hloop & H).
  case_bool_decide as Hn; [discriminate|]. injection H as <-.
  apply scales_loop in Hloop as (totals & Hall & Htot & _). simpl in *.
  exists totals. split; [|split].
  - eapply Forall2_impl; [exact Hall|]. intros scale l [Hl Hk]. split; [exact Hl|].
    rewrite lookup_insert_ne by (apply not_eq_sym, key_loss_not_loss). exact Hk.
  - rewrite lookup_insert_eq. unfold average.
    rewrite Htot, <- (Forall2_length _ _ _ Hall). reflexivity.
  - intros ->. apply Forall2_length in Hall. simpl in Hall. lia.
Qed.

(** C2 (as amended).  When [compute_losses] returns, the entry of every
    scale is [loss_reprojection/2 + transform_constraint * (loss_transform/2)
    + transform_smoothness * (loss_cvt/2) + disparity_smoothness *
    smooth_loss / 2^scale], where the three [loss_...] are the sums of the
    per-frame terms over the neighbour frames; with exactly two neighbour
    frames this is the total of the equal-weight averages.  The entry
    ["loss"] is the mean of the per-scale totals over the scales. *)
Theorem compute_losses_formula (L : gmap string spec_float) :
  compute_losses = Ok L ->
  exists totals,
    Forall2 (fun scale total =>
        exists terms disp color smooth_loss,
          mapM (frame_terms scale) (tail (frame_ids opt)) = Ok terms /\
          outputs !! key_disp scale = Some disp /\
          inputs !! ("color", Poses.Frame 0, Z.of_N scale) = Some color /\
          smooth_term get_smooth_loss scale disp color = Ok smooth_loss /\
          total = weighted_total opt scale
                    (fold_left F32.add (map (fun t => t.1.1) terms) F32.zero)
                    (fold_left F32.add (map (fun t => t.1.2) terms) F32.zero)
                    (fold_left F32.add (map (fun t => t.2) terms) F32.zero)
                    smooth_loss /\
          (length (tail (frame_ids opt)) = 2%nat ->
           total = averaged_total opt scale terms smooth_loss) /\
          L !! key_loss scale = Some total)
      (scales opt) totals /\
    L !! "loss" = Some (average totals).
Proof.
  intros H. destruct (compute_losses_Ok L H) as (totals & Hall & Hloss & _).
  exists totals. split; [|exact Hloss].
  eapply Forall2_impl; [exact Hall|]. intros scale l [Hl Hk].
  unfold Losses.scale_loss in Hl.
  destruct (scale_loss_over_Ok _ _ _ Hl)
    as (terms & disp & color & smooth & Hterms & Hdisp & Hcolor & Hsmooth & ->).
  exists terms, disp, color, smooth. repeat split; auto.
  intros Hlen. apply weighted_total_average.
  rewrite (mapM_length _ _ _ Hterms). exact Hlen.
Qed.

Lemma accumulate_two_swap (scale : N) (a b : Poses.frame_id) acc :
  for_each (accumulate_frame scale) [a; b] (F32.zero, F32.zero, F32.zero) = Ok acc ->
  for_each (accumulate_frame scale) [b; a] (F32.zero, F32.zero, F32.zero) = Ok acc.
Proof.
  cbn [for_each]. unfold Losses.accumulate_frame.
  destruct (frame_terms scale a) as [[[a1 a2] a3]|]; [|discriminate].
  destruct (frame_terms scale b) as [[[b1 b2] b3]|]; [|discriminate].
  cbn [rbind fst snd]. intros [= <-].
  rewrite (f32_add_zero_swap b1 a1), (f32_add_zero_swap b2 a2), (f32_add_zero_swap b3 a3).
  reflexivity.
Qed.

(** C4 (as amended).  With at most two neighbour frames, as in the shipped
    [frame_ids = [0, -1, 1]], the loss of a scale is the same binary32 number
    in whichever order the neighbour frames are visited. *)
Theorem scale_loss_order_two (fs fs' : list Poses.frame_id) (scale : N)
    (loss : spec_float) :
  Permutation fs fs' ->
  (length fs <= 2)%nat ->
  scale_loss_over fs scale = Ok loss ->
  scale_loss_over fs' scale = Ok loss.
Proof.
  intros Hperm Hlen H.
  destruct fs as [|a [|b [|c fs]]]; simpl in Hlen; try lia.
  - apply Permutation_nil in Hperm. subst. exact H.
  - apply Permutation_length_1_inv in Hperm. subst. exact H.
  - apply Permutation_length_2_inv in Hperm as [->| ->]; [exact H|].
    unfold Losses.scale_loss_over in *.
    apply rbind_Ok in H as (disp & Hdisp & H). rewrite Hdisp. cbn [rbind].
    apply rbind_Ok in H as (color & Hcolor & H). rewrite Hcolor. cbn [rbind].
    apply rbind_Ok in H as (acc & Hacc & H).
    rewrite (accumulate_two_swap _ _ _ _ Hacc). exact H.
Qed.

Lemma sum_nan (l : list spec_float) : forall acc,
  acc = F32.nan \/ F32.nan ∈ l -> fold_left F32.add l acc = F32.nan.
Proof.
  induction l as [|x l IH]; intros acc H; simpl.
  - destruct H as [H|H]; [exact H|]. apply not_elem_of_nil in H. contradiction.
  - apply IH. destruct H as [->|H]; [left; reflexivity|].
    apply elem_of_cons in H as [<-|H]; [left; apply f32_add_nan_r | right; exact H].
Qed.

Lemma weighted_total_nan (scale : N) (lt lc sl : spec_float) :
  weighted_total opt scale F32.nan lt lc sl = F32.nan.
Proof. reflexivity. Qed.

(** Under an all-zero mask both masked means of a frame are [0/0]. *)
Lemma frame_terms_zero_mask (scale : N) (f : Poses.frame_id) (mask : tensor) t :
  outputs !! key_omaskb f = Some mask ->
  all_entries (fun x => F32.is_zero x = true) mask ->
  frame_terms scale f = Ok t ->
  t.1.1 = F32.nan /\ t.1.2 = F32.nan.
Proof.
  intros Hmask Hzero H. unfold Losses.frame_terms in H.
  apply rbind_Ok in H as (occu & Hoccu & H). apply getitem_Ok in Hoccu.
  rewrite Hmask in Hoccu. injection Hoccu as <-. unfold detach in H.
  apply rbind_Ok in H as (t1 & H1 & H). apply rbind_Ok in H as (t2 & H2 & H).
  apply rbind_Ok in H as (t3 & H3 & [= <-]). simpl. split.
  - unfold Losses.reprojection_term in H1.
    apply rbind_Ok in H1 as (pred & _ & H1). apply rbind_Ok in H1 as (target & _ & H1).
    apply rbind_Ok in H1 as (l & _ & H1).
    exact (masked_mean_zero_mask _ _ _ Hzero H1).
  - unfold Losses.transform_term in H2.
    apply rbind_Ok in H2 as (r & _ & H2). apply rbind_Ok in H2 as (r' & _ & H2).
    apply rbind_Ok in H2 as (d & _ & H2). apply rbind_Ok in H2 as (m & _ & H2).
    exact (masked_mean_zero_mask _ _ _ Hzero H2).
Qed.

Lemma mapM_elem_of {A B} (f : A -> result B) l l' a :
  mapM f l = Ok l' -> a ∈ l -> exists b, f a = Ok b /\ b ∈ l'.
Proof.
  revert l'. induction l as [|x l IH]; intros l' H Ha; simpl in H.
  - apply not_elem_of_nil in Ha. contradiction.
  - apply rbind_Ok in H as (b & Hb & H). apply rbind_Ok in H as (bs & Hbs & [= <-]).
    apply elem_of_cons in Ha as [->|Ha].
    + exists b. split; [exact Hb | left].
    + destruct (IH _ Hbs Ha) as (b' & Hb' & Hin). exists b'. split; [exact Hb' | right; exact Hin].
Qed.

(** When the mask of a neighbour frame is zero everywhere and
    [compute_losses] returns, both masked means of that frame are [0/0] at
    every scale, and the NaN is the loss of every scale and the final
    loss. *)
Lemma zero_mask_nan_reaches_loss (L : gmap string spec_float)
    (f : Poses.frame_id) (mask : tensor) :
  compute_losses = Ok L ->
  f ∈ tail (frame_ids opt) ->
  outputs !! key_omaskb f = Some mask ->
  all_entries (fun x => F32.is_zero x = true) mask ->
  (forall scale, scale ∈ scales opt ->
     exists t, frame_terms scale f = Ok t /\ t.1.1 = F32.nan /\ t.1.2 = F32.nan) /\
  (forall scale, scale ∈ scales opt -> L !! key_loss scale = Some F32.nan) /\
  L !! "loss" = Some F32.nan.
Proof.
  intros H Hf Hmask Hzero.
  destruct (compute_losses_Ok L H) as (totals & Hall & Hloss & Hne).
  assert (Hscale : forall scale total,
            scale_loss scale = Ok total ->
            (exists t, frame_terms scale f = Ok t /\ t.1.1 = F32.nan /\ t.1.2 = F32.nan) /\
            total = F32.nan).
  { intros scale total Hl. unfold Losses.scale_loss in Hl.
    destruct (scale_loss_over_Ok _ _ _ Hl)
      as (terms & disp & color & smooth & Hterms & _ & _ & _ & ->).
    destruct (mapM_elem_of _ _ _ _ Hterms Hf) as (t & Ht & Hin).
    destruct (frame_terms_zero_mask _ _ _ _ Hmask Hzero Ht) as [Ht1 Ht2].
    split; [eauto|].
    rewrite (sum_nan (map (fun t : spec_float * spec_float * spec_float => t.1.1) terms)
               F32.zero); [apply weighted_total_nan|].
    right. apply list_elem_of_In, in_map_iff. exists t. split; [exact Ht1|].
    apply list_elem_of_In. exact Hin. }
  split; [|split].
  - intros scale Hin. apply list_elem_of_lookup in Hin as (i & Hi).
    destruct (Forall2_lookup_l _ _ _ _ _ Hall Hi) as (total & _ & Hl & _).
    apply (Hscale scale total Hl).
  - intros scale Hin. apply list_elem_of_lookup in Hin as (i & Hi).
    destruct (Forall2_lookup_l _ _ _ _ _ Hall Hi) as (total & _ & Hl & Hk).
    destruct (Hscale scale total Hl) as [_ ->]. exact Hk.
  - rewrite Hloss. f_equal. unfold average.
    assert (Hnan : Forall (fun l => l = F32.nan) totals).
    { apply Forall_lookup. intros i total Hi.
      destruct (Forall2_lookup_r _ _ _ _ _ Hall Hi) as (scale & _ & Hl & _).
      apply (Hscale scale total Hl). }
    destruct totals as [|l totals]; [congruence|].
    inversion Hnan; subst. rewrite sum_nan; [reflexivity|]. right. left.
Qed.

(** C3 (as amended).  Where the registration tensor and the mask hold
    finite numbers and the sum of the mask is a number other than zero, the
    transform-consistency term of a frame is zero, and so is its weighted
    share [w * (term / 2)] for every finite weight [w]. *)
Theorem transform_term_zero (scale : N) (f : Poses.frame_id) (r occu : tensor) t :
  frame_terms scale f = Ok t ->
  outputs !! key_r scale f = Some r ->
  outputs !! key_omaskb f = Some occu ->
  all_entries (fun x => F32.is_finite x = true) r ->
  all_entries (fun x => F32.is_finite x = true) occu ->
  F32.is_nonzero (tsum occu) = true ->
  F32.is_zero t.1.2 = true /\
  forall w, F32.is_finite w = true ->
    F32.is_zero (F32.mul w (F32.div t.1.2 F32.two)) = true.
Proof.
  intros H Hr Hoccu Hfr Hfo Hsum.
  assert (Hz : F32.is_zero t.1.2 = true).
  { unfold Losses.frame_terms in H.
    apply rbind_Ok in H as (occu' & Hoccu' & H). apply getitem_Ok in Hoccu'.
    rewrite Hoccu in Hoccu'. injection Hoccu' as <-. unfold detach in H at 1 2 3.
    apply rbind_Ok in H as (t1 & _ & H). apply rbind_Ok in H as (t2 & H2 & H).
    apply rbind_Ok in H as (t3 & _ & [= <-]). simpl.
    unfold Losses.transform_term in H2.
    apply rbind_Ok in H2 as (r1 & Hr1 & H2). apply getitem_Ok in Hr1.
    apply rbind_Ok in H2 as (r2 & Hr2 & H2). apply getitem_Ok in Hr2.
    rewrite Hr in Hr1, Hr2. injection Hr1 as <-. injection Hr2 as <-.
    destruct (tsub_self_zero r Hfr) as (d & Hd & Hdz). rewrite Hd in H2. simpl in H2.
    apply rbind_Ok in H2 as (m & Hm & H2).
    apply (masked_mean_zero m occu); auto.
    apply (mean_dim1_zero (tabs d)); [|exact Hm].
    eapply tmap_all; [|exact Hdz]. apply f32_abs_zero. }
  split; [exact Hz|]. intros w Hw. apply f32_mul_zero_r; [exact Hw|].
  apply f32_div_zero_l; [exact Hz | reflexivity].
Qed.

(** C9 (as amended).  For a neighbour frame whose warped prediction equals
    its registration target, pixel for pixel and with finite values, and
    whose mask is one everywhere and has a pixel, the masked and
    mask-normalized reprojection term is zero; with SSIM switched on this
    needs the SSIM layer to give zero on equal images. *)
Theorem reprojection_term_zero (scale : N) (f : Poses.frame_id) (x occu : tensor) t :
  frame_terms scale f = Ok t ->
  outputs !! key_color f scale = Some x ->
  outputs !! key_r scale f = Some x ->
  outputs !! key_omaskb f = Some occu ->
  all_entries (fun v => F32.is_finite v = true) x ->
  all_entries (fun v => v = F32.one) occu ->
  entries occu <> [] ->
  (no_ssim opt = true \/ all_entries (fun v => F32.is_zero v = true) (ssim x x)) ->
  F32.is_zero t.1.1 = true.
Proof.
  intros H Hcolor Hr Hoccu Hfx Hones Hne Hssim.
  unfold Losses.frame_terms in H.
  apply rbind_Ok in H as (occu' & Hoccu' & H). apply getitem_Ok in Hoccu'.
  rewrite Hoccu in Hoccu'. injection Hoccu' as <-. unfold detach in H at 1 2 3.
  apply rbind_Ok in H as (t1 & H1 & H). apply rbind_Ok in H as (t2 & _ & H).
  apply rbind_Ok in H as (t3 & _ & [= <-]). simpl.
  unfold Losses.reprojection_term in H1.
  apply rbind_Ok in H1 as (pred & Hp & H1). apply getitem_Ok in Hp.
  apply rbind_Ok in H1 as (target & Ht & H1). apply getitem_Ok in Ht.
  rewrite Hcolor in Hp. rewrite Hr in Ht. injection Hp as <-. injection Ht as <-.
  apply rbind_Ok in H1 as (l & Hl & H1).
  apply (masked_mean_zero l occu); auto.
  - unfold Losses.compute_reprojection_loss in Hl.
    destruct (tsub_self_zero x Hfx) as (d & Hd & Hdz). unfold detach in Hd.
    rewrite Hd in Hl. simpl in Hl.
    apply rbind_Ok in Hl as (l1 & Hl1 & Hl).
    assert (Hl1z : all_entries (fun v => F32.is_zero v = true) l1).
    { apply (mean_dim1_zero (tabs d)); [|exact Hl1].
      eapply tmap_all; [|exact Hdz]. apply f32_abs_zero. }
    destruct (no_ssim opt) eqn:Hno.
    + injection Hl as <-. exact Hl1z.
    + destruct Hssim as [Hs|Hs]; [discriminate|].
      apply rbind_Ok in Hl as (sl & Hsl & Hl).
      pose proof (mean_dim1_zero _ _ Hs Hsl) as Hslz.
      unfold tadd in Hl. eapply pointwise_all; [| | |exact Hl].
      * apply f32_add_zeros.
      * eapply tmap_all; [|exact Hslz]. intros v Hv.
        apply f32_mul_zero_r; [reflexivity | exact Hv].
      * eapply tmap_all; [|exact Hl1z]. intros v Hv.
        apply f32_mul_zero_r; [reflexivity | exact Hv].
  - eapply Forall_impl; [exact Hones|]. intros a Ha.
    eapply Forall_impl; [exact Ha|]. intros b Hb.
    eapply Forall_impl; [exact Hb|]. intros c Hc.
    eapply Forall_impl; [exact Hc|]. intros v ->. reflexivity.
  - apply tsum_ones_nonzero; assumption.
Qed.

End LossesFacts.

(** *** The mask decides no error *)

Lemma mapM_succeeds {A A' B B'} (f : A -> result B) (g : A' -> result B')
    (R : A -> A' -> Prop) l l' :
  Forall2 R l l' ->
  (forall a a' b, R a a' -> f a = Ok b -> exists b', g a' = Ok b') ->
  forall bs, Torch.mapM f l = Ok bs -> exists bs', Torch.mapM g l' = Ok bs'.
Proof.
  intros Hl Hf. induction Hl as [|a a' l l' Ha Hl IH]; intros bs H; simpl in *.
  - eauto.
  - apply rbind_Ok in H as (b & Hb & H). apply rbind_Ok in H as (bs0 & Hbs & _).
    destruct (Hf _ _ _ Ha Hb) as [b' ->]. destruct (IH _ Hbs) as [bs' ->].
    simpl. eauto.
Qed.

Lemma Forall2_zip_right {A B B'} (R : B -> B' -> Prop) (xs : list A) :
  forall ys ys', Forall2 R ys ys' ->
  Forall2 (fun p p' => p.1 = p'.1 /\ R p.2 p'.2) (zip xs ys) (zip xs ys').
Proof.
  induction xs as [|x xs IH]; intros ys ys' H; [constructor|].
  destruct H as [|y y' ys ys' Hy H]; simpl; constructor; auto.
Qed.

(** One dimension of a broadcasting operation: whether it raises depends on
    the second operand only through its shape. *)
Lemma broadcast2_succeeds {A B B' C C'} (f : A -> B -> result C)
    (g : A -> B' -> result C') (R : B -> B' -> Prop) xs ys ys' :
  Forall2 R ys ys' ->
  (forall a b b' c, R b b' -> f a b = Ok c -> exists c', g a b' = Ok c') ->
  forall zs, Torch.broadcast2 f xs ys = Ok zs ->
  exists zs', Torch.broadcast2 g xs ys' = Ok zs'.
Proof.
  intros Hy Hf zs. unfold Torch.broadcast2.
  rewrite <- (Forall2_length _ _ _ Hy).
  case_bool_decide as Hlen.
  - apply (mapM_succeeds _ _ (fun p p' => p.1 = p'.1 /\ R p.2 p'.2)).
    + apply Forall2_zip_right. exact Hy.
    + intros [a b] [a' b'] c [Ha Hb]. simpl in *. subst a'. apply Hf. exact Hb.
  - destruct xs as [|x [|x' xs]].
    + destruct Hy as [|y y' ys ys' Hy0 Hy]; [discriminate|].
      destruct Hy; [|discriminate]. intros _. simpl. eauto.
    + apply (mapM_succeeds _ _ R); [exact Hy|]. intros b b' c. apply Hf.
    + destruct Hy as [|y y' ys ys' Hy0 Hy]; [discriminate|].
      destruct Hy; [|discriminate].
      apply (mapM_succeeds _ _ eq).
      * apply Forall_Forall2_diag, Forall_forall. reflexivity.
      * intros a a' c <-. apply Hf. exact Hy0.
Qed.

Lemma pointwise_succeeds (f g : spec_float -> spec_float -> spec_float)
    (a b b' c : Torch.tensor) :
  Torch.same_shape b b' ->
  Torch.pointwise f a b = Ok c -> exists c', Torch.pointwise g a b' = Ok c'.
Proof.
  unfold Torch.same_shape, Torch.pointwise. intros Hb.
  apply (broadcast2_succeeds _ _ _ _ _ _ Hb). intros a1 b1 b1' c1 H1.
  apply (broadcast2_succeeds _ _ _ _ _ _ H1). intros a2 b2 b2' c2 H2.
  apply (broadcast2_succeeds _ _ _ _ _ _ H2). intros a3 b3 b3' c3 H3.
  apply (broadcast2_succeeds _ _ _ _ _ _ H3). intros x y y' z _ _. eauto.
Qed.

Lemma Forall2_map_same {A} (R : A -> A -> Prop) (h : A -> A) (l : list A) :
  (forall x, R x (h x)) -> Forall2 R l (map h l).
Proof. intros H. induction l; simpl; constructor; auto. Qed.

Lemma same_shape_tmap (h : spec_float -> spec_float) (t : Torch.tensor) :
  Torch.same_shape t (Torch.tmap h t).
Proof.
  unfold Torch.same_shape, Torch.tmap.
  apply Forall2_map_same. intros a. apply Forall2_map_same. intros b.
  apply Forall2_map_same. intros c. apply Forall2_map_same. intros x. exact I.
Qed.

Lemma zeros_like_zero (t : Torch.tensor) :
  Torch.all_entries (fun x => F32.is_zero x = true) (Torch.zeros_like t).
Proof.
  unfold Torch.zeros_like, Torch.all_entries, Torch.tmap.
  apply Forall_forall; intros a Ha. apply list_elem_of_In, in_map_iff in Ha as (a' & <- & _).
  apply Forall_forall; intros b Hb. apply list_elem_of_In, in_map_iff in Hb as (b' & <- & _).
  apply Forall_forall; intros c Hc. apply list_elem_of_In, in_map_iff in Hc as (c' & <- & _).
  apply Forall_forall; intros x Hx. apply list_elem_of_In, in_map_iff in Hx as (x' & <- & _).
  reflexivity.
Qed.

(** The masked mean is the quotient of the two sums, and it raises only
    where the product does: nothing looks at the divisor. *)
Lemma masked_mean_quotient (x mask p : Torch.tensor) :
  Torch.tmul x mask = Ok p ->
  Losses.masked_mean x mask = Ok (F32.div (Torch.tsum p) (Torch.tsum mask)).
Proof. intros H. unfold Losses.masked_mean. rewrite H. reflexivity. Qed.

Lemma masked_mean_succeeds (x mask mask' : Torch.tensor) v :
  Torch.same_shape mask mask' ->
  Losses.masked_mean x mask = Ok v -> exists v', Losses.masked_mean x mask' = Ok v'.
Proof.
  intros Hs H. unfold Losses.masked_mean in *.
  apply rbind_Ok in H as (p & Hp & _).
  destruct (pointwise_succeeds F32.mul F32.mul _ _ _ _ Hs Hp) as [p' Hp'].
  unfold Torch.tmul. rewrite Hp'. simpl. eauto.
Qed.

Lemma for_each_succeeds {S S' A} (body : S -> A -> result S)
    (body' : S' -> A -> result S') xs :
  (forall s x s1 s', body s x = Ok s1 -> exists s1', body' s' x = Ok s1') ->
  forall s s' r, for_each body xs s = Ok r -> exists r', for_each body' xs s' = Ok r'.
Proof.
  intros Hb. induction xs as [|x xs IH]; intros s s' r H; simpl in *; [eauto|].
  apply rbind_Ok in H as (s1 & H1 & H).
  destruct (Hb _ _ _ s' H1) as [s1' ->]. simpl. eapply IH. exact H.
Qed.

Section LossesMask.
Import Torch Losses.
Variable ssim : tensor -> tensor -> tensor.
Variable get_smooth_bright : tensor -> tensor -> tensor -> tensor -> spec_float.
Variable get_smooth_loss : tensor -> tensor -> spec_float.
Variable opt : options.
Variable inputs : gmap (string * Poses.frame_id * Z) tensor.
Variable outputs : gmap string tensor.

(** What a neighbour frame's terms are made of: two quotients by the sum
    of its mask. *)
Lemma frame_terms_Ok (scale : N) (f : Poses.frame_id) t :
  frame_terms ssim get_smooth_bright opt inputs outputs scale f = Ok t ->
  exists mask pred target l d m p1 p2,
    outputs !! key_omaskb f = Some mask /\
    outputs !! key_color f scale = Some pred /\
    outputs !! key_r scale f = Some target /\
    compute_reprojection_loss ssim opt pred target = Ok l /\
    tmul l mask = Ok p1 /\
    tsub target target = Ok d /\
    mean_dim1 (tabs d) = Ok m /\
    tmul m mask = Ok p2 /\
    t.1.1 = F32.div (tsum p1) (tsum mask) /\
    t.1.2 = F32.div (tsum p2) (tsum mask).
Proof.
  unfold frame_terms. intros H.
  apply rbind_Ok in H as (mask & Hmask & H). apply getitem_Ok in Hmask.
  unfold detach in H.
  apply rbind_Ok in H as (t1 & H1 & H). apply rbind_Ok in H as (t2 & H2 & H).
  apply rbind_Ok in H as (t3 & _ & [= <-]).
  unfold reprojection_term in H1.
  apply rbind_Ok in H1 as (pred & Hp & H1). apply getitem_Ok in Hp.
  apply rbind_Ok in H1 as (target & Ht & H1). apply getitem_Ok in Ht.
  apply rbind_Ok in H1 as (l & Hl & H1).
  unfold masked_mean in H1. apply rbind_Ok in H1 as (p1 & Hp1 & [= <-]).
  unfold transform_term in H2.
  apply rbind_Ok in H2 as (r & Hr & H2). apply getitem_Ok in Hr.
  apply rbind_Ok in H2 as (r' & Hr' & H2). apply getitem_Ok in Hr'.
  rewrite Ht in Hr, Hr'. injection Hr as <-. injection Hr' as <-.
  unfold detach in H2.
  apply rbind_Ok in H2 as (d & Hd & H2). apply rbind_Ok in H2 as (m & Hm & H2).
  unfold masked_mean in H2. apply rbind_Ok in H2 as (p2 & Hp2 & [= <-]).
  exists mask, pred, target, l, d, m, p1, p2. simpl. repeat split; assumption.
Qed.

Variable f : Poses.frame_id.
Variable mask mask' : tensor.
Hypothesis Hmask : outputs !! key_omaskb f = Some mask.
Hypothesis Hshape : Torch.same_shape mask mask'.

Abbreviation outputs' := (<[key_omaskb f := mask']> outputs).

Lemma replaced_color g s : outputs' !! key_color g s = outputs !! key_color g s.
Proof. apply lookup_insert_ne. discriminate. Qed.

Lemma replaced_r s g : outputs' !! key_r s g = outputs !! key_r s g.
Proof. apply lookup_insert_ne. discriminate. Qed.

Lemma replaced_th s g : outputs' !! key_th s g = outputs !! key_th s g.
Proof. apply lookup_insert_ne. discriminate. Qed.

Lemma replaced_disp s : outputs' !! key_disp s = outputs !! key_disp s.
Proof. apply lookup_insert_ne. discriminate. Qed.

(** Replacing the mask of a frame by a tensor of the same shape turns no
    return of [frame_terms] into a raise, for any frame. *)
Lemma frame_terms_succeeds (scale : N) (g : Poses.frame_id) t :
  frame_terms ssim get_smooth_bright opt inputs outputs scale g = Ok t ->
  exists t', frame_terms ssim get_smooth_bright opt inputs outputs' scale g = Ok t'.
Proof.
  unfold frame_terms, getitem. intros H.
  assert (Hocc : exists o o', outputs !! key_omaskb g = Some o /\
                   outputs' !! key_omaskb g = Some o' /\ Torch.same_shape o o').
  { destruct (outputs !! key_omaskb g) as [o|] eqn:Ho; [|discriminate].
    destruct (decide (key_omaskb g = key_omaskb f)) as [E|E].
    - exists mask, mask'. rewrite E in Ho. rewrite Hmask in Ho.
      split; [congruence|]. split; [|exact Hshape].
      rewrite E. apply lookup_insert_eq.
    - exists o, o. split; [reflexivity|]. split.
      + rewrite lookup_insert_ne by congruence. exact Ho.
      + unfold Torch.same_shape.
        apply Forall_Forall2_diag, Forall_forall; intros ? _.
        apply Forall_Forall2_diag, Forall_forall; intros ? _.
        apply Forall_Forall2_diag, Forall_forall; intros ? _.
        apply Forall_Forall2_diag, Forall_forall; intros ? _. exact I. }
  destruct Hocc as (o & o' & Ho & Ho' & Hs). rewrite Ho in H. rewrite Ho'.
  cbn [rbind] in *. unfold detach in *.
  apply rbind_Ok in H as (t1 & H1 & H). apply rbind_Ok in H as (t2 & H2 & H).
  apply rbind_Ok in H as (t3 & H3 & _).
  assert (H1' : exists t1', reprojection_term ssim opt outputs' scale g o' = Ok t1').
  { unfold reprojection_term, getitem in *. rewrite replaced_color, replaced_r.
    destruct (outputs !! key_color g scale); [|discriminate].
    destruct (outputs !! key_r scale g); [|discriminate]. cbn [rbind] in *.
    destruct (compute_reprojection_loss _ _ _ _); [|discriminate]. cbn [rbind] in *.
    eapply masked_mean_succeeds; eassumption. }
  assert (H2' : exists t2', transform_term outputs' scale g o' = Ok t2').
  { unfold transform_term, getitem in *. rewrite replaced_r.
    destruct (outputs !! key_r scale g); [|discriminate]. cbn [rbind] in *.
    destruct (tsub _ _); [|discriminate]. cbn [rbind] in *.
    destruct (mean_dim1 _); [|discriminate]. cbn [rbind] in *.
    eapply masked_mean_succeeds; eassumption. }
  assert (H3' : exists t3', cvt_term get_smooth_bright inputs outputs' scale g o' = Ok t3').
  { unfold cvt_term, getitem in *. rewrite replaced_th, replaced_r.
    destruct (outputs !! key_th scale g); [|discriminate]. cbn [rbind] in *.
    destruct (Poses.input_item _ _); [|discriminate]. cbn [rbind] in *.
    destruct (outputs !! key_r scale g); [|discriminate]. cbn [rbind] in *.
    eauto. }
  destruct H1' as [t1' ->], H2' as [t2' ->], H3' as [t3' ->]. simpl. eauto.
Qed.

Lemma scale_loss_succeeds (scale : N) loss :
  scale_loss ssim get_smooth_bright get_smooth_loss opt inputs outputs scale = Ok loss ->
  exists loss',
    scale_loss ssim get_smooth_bright get_smooth_loss opt inputs outputs' scale = Ok loss'.
Proof.
  unfold scale_loss, scale_loss_over, getitem. rewrite replaced_disp. intros H.
  destruct (outputs !! key_disp scale); [|discriminate]. cbn [rbind] in *.
  destruct (Poses.input_item _ _); [|discriminate]. cbn [rbind] in *.
  apply rbind_Ok in H as (acc & Hacc & H).
  apply rbind_Ok in H as (sm & Hsm & _).
  destruct (for_each_succeeds
              (accumulate_frame ssim get_smooth_bright opt inputs outputs scale)
              (accumulate_frame ssim get_smooth_bright opt inputs outputs' scale)
              (tail (frame_ids opt))) with (s := (F32.zero, F32.zero, F32.zero))
              (s' := (F32.zero, F32.zero, F32.zero)) (r := acc) as [acc' ->].
  - intros s x s1 s' Hb. unfold accumulate_frame in *.
    apply rbind_Ok in Hb as (tm & Htm & _).
    destruct (frame_terms_succeeds _ _ _ Htm) as [tm' ->]. simpl. eauto.
  - exact Hacc.
  - cbn [rbind]. rewrite Hsm. simpl. eauto.
Qed.

Lemma compute_losses_succeeds L :
  compute_losses ssim get_smooth_bright get_smooth_loss opt inputs outputs = Ok L ->
  exists L',
    compute_losses ssim get_smooth_bright get_smooth_loss opt inputs outputs' = Ok L'.
Proof.
  unfold compute_losses. intros H.
  apply rbind_Ok in H as (st & Hst & H).
  case_bool_decide as Hn; [discriminate|].
  destruct (for_each_succeeds
      (fun (st : spec_float * gmap string spec_float) scale =>
         loss <- scale_loss ssim get_smooth_bright get_smooth_loss opt inputs outputs scale ;;
         Ok (F32.add st.1 loss, <[key_loss scale := loss]> st.2))
      (fun (st : spec_float * gmap string spec_float) scale =>
         loss <- scale_loss ssim get_smooth_bright get_smooth_loss opt inputs outputs' scale ;;
         Ok (F32.add st.1 loss, <[key_loss scale := loss]> st.2))
      (scales opt)) with (s := (F32.zero, (∅ : gmap string spec_float)))
      (s' := (F32.zero, (∅ : gmap string spec_float))) (r := st) as [st' ->].
  - intros s x s1 s' Hb. apply rbind_Ok in Hb as (l & Hl & _).
    destruct (scale_loss_succeeds _ _ Hl) as [l' ->]. simpl. eauto.
  - exact Hst.
  - simpl. eauto.
Qed.

End LossesMask.

Section LossesUnguarded.
Import Torch Losses.
Variable ssim : tensor -> tensor -> tensor.
Variable get_smooth_bright : tensor -> tensor -> tensor -> tensor -> spec_float.
Variable get_smooth_loss : tensor -> tensor -> spec_float.
Variable opt : options.
Variable inputs : gmap (string * Poses.frame_id * Z) tensor.
Variable outputs : gmap string tensor.

(** C8.  The reprojection and the transform-consistency term of a
    neighbour frame are the quotients of [(x * mask).sum()] by [mask.sum()],
    whatever the mask holds, and nothing guards the division.  The quotient
    raises only where the product does, and under a mask of zeros it is NaN
    ([0/0]).  So when [compute_losses] returns for some mask of a frame, it
    also returns with that mask replaced by any mask of zeros of the same
    shape: no exception is raised in place of the division, both terms of
    the frame are NaN at every scale, and the NaN is the loss of every scale
    and the final loss. *)
Theorem zero_mask_division_unguarded (f : Poses.frame_id) (mask : tensor) :
  outputs !! key_omaskb f = Some mask ->
  (forall x m p, tmul x m = Ok p ->
     masked_mean x m = Ok (F32.div (tsum p) (tsum m)) /\
     (all_entries (fun v => F32.is_zero v = true) m ->
      masked_mean x m = Ok F32.nan)) /\
  (forall x m e, masked_mean x m = Raise e -> tmul x m = Raise e) /\
  (forall scale t,
     frame_terms ssim get_smooth_bright opt inputs outputs scale f = Ok t ->
     exists pred target l d m p1 p2,
       outputs !! key_color f scale = Some pred /\
       outputs !! key_r scale f = Some target /\
       compute_reprojection_loss ssim opt pred target = Ok l /\
       tmul l mask = Ok p1 /\
       tsub target target = Ok d /\
       mean_dim1 (tabs d) = Ok m /\
       tmul m mask = Ok p2 /\
       t.1.1 = F32.div (tsum p1) (tsum mask) /\
       t.1.2 = F32.div (tsum p2) (tsum mask)) /\
  forall zeros,
    Torch.same_shape mask zeros ->
    all_entries (fun x => F32.is_zero x = true) zeros ->
    (forall scale t,
       frame_terms ssim get_smooth_bright opt inputs outputs scale f = Ok t ->
       exists t3,
         frame_terms ssim get_smooth_bright opt inputs
           (<[key_omaskb f := zeros]> outputs) scale f = Ok (F32.nan, F32.nan, t3)) /\
    (forall L,
       f ∈ tail (frame_ids opt) ->
       compute_losses ssim get_smooth_bright get_smooth_loss opt inputs outputs = Ok L ->
       exists L',
         compute_losses ssim get_smooth_bright get_smooth_loss opt inputs
           (<[key_omaskb f := zeros]> outputs) = Ok L' /\
         (forall scale, scale ∈ scales opt -> L' !! key_loss scale = Some F32.nan) /\
         L' !! "loss" = Some F32.nan).
Proof.
  intros Hmask. split; [|split; [|split]].
  - intros x m p Hp. pose proof (masked_mean_quotient x m p Hp) as Hq.
    split; [exact Hq|]. intros Hzero.
    rewrite Hq, (masked_mean_zero_mask x m _ Hzero Hq). reflexivity.
  - intros x m e. unfold masked_mean.
    destruct (tmul x m); simpl; [discriminate | intros [= ->]; reflexivity].
  - intros scale t Ht.
    destruct (frame_terms_Ok _ _ _ _ _ _ _ _ Ht)
      as (mask0 & pred & target & l & d & m & p1 & p2 & Hm0 & H).
    rewrite Hmask in Hm0. injection Hm0 as <-.
    exists pred, target, l, d, m, p1, p2. exact H.
  - intros zeros Hshape Hzero.
    assert (Hz : <[key_omaskb f := zeros]> outputs !! key_omaskb f = Some zeros)
      by apply lookup_insert_eq.
    split.
    + intros scale t Ht.
      destruct (frame_terms_succeeds ssim get_smooth_bright opt inputs outputs
                  f mask zeros Hmask Hshape scale f t Ht) as [[[t1 t2] t3] Ht'].
      destruct (frame_terms_zero_mask _ _ _ _ _ _ _ _ _ Hz Hzero Ht') as [E1 E2].
      simpl in E1, E2. subst. eauto.
    + intros L Hf HL.
      destruct (compute_losses_succeeds ssim get_smooth_bright get_smooth_loss opt
                  inputs outputs f mask zeros Hmask Hshape L HL) as [L' HL'].
      exists L'. split; [exact HL'|].
      destruct (zero_mask_nan_reaches_loss _ _ _ _ _ _ L' f zeros
                  HL' Hf Hz Hzero) as (_ & Hs & Hl).
      split; assumption.
Qed.

End LossesUnguarded.

(** *** The example batch *)

Lemma full_all (P : spec_float -> Prop) (b c h w : nat) (v : spec_float) :
  P v -> Torch.all_entries P (Torch.full b c h w v).
Proof.
  intros Hv. unfold Torch.all_entries, Torch.full.
  assert (Hrep : forall A (Q : A -> Prop) (a : A) n, Q a -> Forall Q (repeat a n)).
  { intros A Q a n Ha. induction n; simpl; constructor; auto. }
  auto.
Qed.

(** C2 on the example batch with the two neighbour frames [-1] and [1]. *)
Lemma compute_losses_formula_witness :
  exists totals,
    Forall2 (fun scale total =>
        exists terms disp color smooth_loss,
          Torch.mapM (Losses.frame_terms LossesExample.ssim LossesExample.get_smooth_bright
                        (LossesExample.opt [0; -1; 1]) LossesExample.inputs
                        (LossesExample.outputs F32.one) scale)
            (tail (Losses.frame_ids (LossesExample.opt [0; -1; 1]))) = Ok terms /\
          LossesExample.outputs F32.one !! Losses.key_disp scale = Some disp /\
          LossesExample.inputs !! ("color", Poses.Frame 0, Z.of_N scale) = Some color /\
          Losses.smooth_term LossesExample.get_smooth_loss scale disp color = Ok smooth_loss /\
          total = Losses.weighted_total (LossesExample.opt [0; -1; 1]) scale
                    (fold_left F32.add (map (fun t => t.1.1) terms) F32.zero)
                    (fold_left F32.add (map (fun t => t.1.2) terms) F32.zero)
                    (fold_left F32.add (map (fun t => t.2) terms) F32.zero)
                    smooth_loss /\
          (length (tail (Losses.frame_ids (LossesExample.opt [0; -1; 1]))) = 2%nat ->
           total = Losses.averaged_total (LossesExample.opt [0; -1; 1]) scale terms smooth_loss) /\
          LossesExample.losses LossesExample.half !! Losses.key_loss scale = Some total)
      (Losses.scales (LossesExample.opt [0; -1; 1])) totals /\
    LossesExample.losses LossesExample.half !! "loss" = Some (Losses.average totals).
Proof.
  apply (compute_losses_formula LossesExample.ssim LossesExample.get_smooth_bright
           LossesExample.get_smooth_loss (LossesExample.opt [0; -1; 1])
           LossesExample.inputs (LossesExample.outputs F32.one)).
  vm_compute. reflexivity.
Defined.

(** C2 as stated fails: with the single neighbour frame [-1], whose
    reprojection term is [1], the entry of the scale is [0.5], half the
    term, and not the average over the neighbour frames, which is [1]. *)
Lemma compute_losses_one_neighbour :
  LossesExample.compute_losses [0; -1] F32.one = Ok (LossesExample.losses LossesExample.half) /\
  Torch.mapM (LossesExample.frame_terms [0; -1] F32.one) [-1]
    = Ok [(F32.one, F32.zero, F32.zero)] /\
  Losses.averaged_total (LossesExample.opt [0; -1]) 0
    [(F32.one, F32.zero, F32.zero)] F32.zero = F32.one /\
  LossesExample.half <> F32.one.
Proof. repeat split; try (vm_compute; reflexivity). discriminate. Qed.

(** C4 on the example batch: the two orders of the frames [-1] and [1]. *)
Lemma scale_loss_order_two_witness :
  LossesExample.scale_loss_over [1; -1] = Ok LossesExample.half.
Proof.
  apply (scale_loss_order_two LossesExample.ssim LossesExample.get_smooth_bright
           LossesExample.get_smooth_loss (LossesExample.opt [0]) LossesExample.inputs
           (LossesExample.outputs F32.one)
           (map Poses.Frame [-1; 1]) (map Poses.Frame [1; -1])).
  - apply perm_swap.
  - simpl. lia.
  - vm_compute. reflexivity.
Defined.

(** C4 as stated fails: with the three neighbour frames [-1], [1] and [2],
    whose reprojection terms are [1], [2^-24] and [2^-24], the loss of the
    scale is [0.5] in the order [-1, 1, 2] (each [2^-24] is rounded away
    when added to [1]) and the next number above [0.5] in the order
    [1, 2, -1]. *)
Lemma scale_loss_order_three :
  Permutation (map Poses.Frame [-1; 1; 2]) (map Poses.Frame [1; 2; -1]) /\
  LossesExample.scale_loss_over [-1; 1; 2] = Ok LossesExample.half /\
  LossesExample.scale_loss_over [1; 2; -1] = Ok LossesExample.half_up /\
  LossesExample.half <> LossesExample.half_up.
Proof.
  split; [|split; [|split]].
  - exact (Permutation_cons_append [Poses.Frame 1; Poses.Frame 2] (Poses.Frame (-1))).
  - vm_compute. reflexivity.
  - vm_compute. reflexivity.
  - discriminate.
Qed.

(** C8 on the example batch with masks of ones: the mask of the frame [-1]
    is replaced by zeros. *)
Lemma zero_mask_division_unguarded_witness :
  (exists t3,
     Losses.frame_terms LossesExample.ssim LossesExample.get_smooth_bright
       (LossesExample.opt [0; -1; 1]) LossesExample.inputs
       LossesExample.outputs_zeroed 0%N (Poses.Frame (-1))
     = Ok (F32.nan, F32.nan, t3)) /\
  exists L',
    Losses.compute_losses LossesExample.ssim LossesExample.get_smooth_bright
      LossesExample.get_smooth_loss (LossesExample.opt [0; -1; 1])
      LossesExample.inputs LossesExample.outputs_zeroed = Ok L' /\
    (forall scale, scale ∈ Losses.scales (LossesExample.opt [0; -1; 1]) ->
       L' !! Losses.key_loss scale = Some F32.nan) /\
    L' !! "loss" = Some F32.nan.
Proof.
  destruct (zero_mask_division_unguarded LossesExample.ssim
              LossesExample.get_smooth_bright LossesExample.get_smooth_loss
              (LossesExample.opt [0; -1; 1]) LossesExample.inputs
              (LossesExample.outputs F32.one) (Poses.Frame (-1))
              (LossesExample.mask F32.one)) as (_ & _ & _ & H).
  { vm_compute. reflexivity. }
  destruct (H (Torch.zeros_like (LossesExample.mask F32.one))) as [Hterms Hloss].
  { apply same_shape_tmap. }
  { apply zeros_like_zero. }
  split.
  - apply (Hterms 0%N (F32.one, F32.zero, F32.zero)). vm_compute. reflexivity.
  - apply (Hloss (LossesExample.losses LossesExample.half)).
    + simpl. apply list_elem_of_here.
    + vm_compute. reflexivity.
Defined.

(** C3 on the example batch with masks of ones, at the frame [-1]. *)
Lemma transform_term_zero_witness :
  F32.is_zero (F32.one, F32.zero, F32.zero).1.2 = true /\
  forall w, F32.is_finite w = true ->
    F32.is_zero (F32.mul w (F32.div (F32.one, F32.zero, F32.zero).1.2 F32.two)) = true.
Proof.
  apply (transform_term_zero LossesExample.ssim LossesExample.get_smooth_bright
           (LossesExample.opt [0; -1; 1]) LossesExample.inputs
           (LossesExample.outputs F32.one) 0%N (Poses.Frame (-1))
           (LossesExample.img F32.one) (LossesExample.mask F32.one)).
  - vm_compute. reflexivity.
  - vm_compute. reflexivity.
  - vm_compute. reflexivity.
  - apply full_all. reflexivity.
  - apply full_all. reflexivity.
  - vm_compute. reflexivity.
Defined.

(** C3 as stated fails: under a mask of zeros the transform-consistency
    term of the frame [-1] is [0/0], which is NaN and not zero. *)
Lemma transform_term_nan_on_zero_mask :
  LossesExample.frame_terms [0; -1; 1] F32.zero (-1) = Ok (F32.nan, F32.nan, F32.zero) /\
  F32.is_zero F32.nan = false.
Proof. split; vm_compute; reflexivity. Qed.

(** C9 (as amended) on the example batch with SSIM on, at the frame [1],
    whose warped image equals its registration. *)
Lemma reprojection_term_zero_witness :
  F32.is_zero (F32.zero, F32.zero, F32.zero).1.1 = true.
Proof.
  apply (reprojection_term_zero LossesExample.ssim LossesExample.get_smooth_bright
           LossesExample.opt_ssim LossesExample.inputs LossesExample.outputs_same
           0%N (Poses.Frame 1) (LossesExample.img LossesExample.eps)
           (LossesExample.mask F32.one)).
  - vm_compute. reflexivity.
  - vm_compute. reflexivity.
  - vm_compute. reflexivity.
  - vm_compute. reflexivity.
  - apply full_all. reflexivity.
  - apply full_all. reflexivity.
  - vm_compute. discriminate.
  - right. unfold LossesExample.ssim.
    destruct (tsub_self_zero (LossesExample.img LossesExample.eps)) as (d & Hd & Hz).
    { apply full_all. reflexivity. }
    unfold Torch.detach in Hd. rewrite Hd.
    eapply tmap_all; [|exact Hz]. apply f32_abs_zero.
Defined.

(** C9 as stated fails: equal images and a mask of ones do not make the
    term zero when a pixel is infinite ([inf - inf] is NaN), nor when the
    mask has no pixel (the term is [0/0]). *)
Lemma reprojection_term_nan_on_equal_images :
  (LossesExample.outputs_inf !! Losses.key_color (Poses.Frame 1) 0
     = Some (LossesExample.img LossesExample.inf) /\
   LossesExample.outputs_inf !! Losses.key_r 0 (Poses.Frame 1)
     = Some (LossesExample.img LossesExample.inf) /\
   LossesExample.outputs_inf !! Losses.key_omaskb (Poses.Frame 1)
     = Some (LossesExample.mask F32.one) /\
   Torch.all_entries (fun v => v = F32.one) (LossesExample.mask F32.one) /\
   Losses.frame_terms LossesExample.ssim LossesExample.get_smooth_bright
     (LossesExample.opt [0; -1; 1]) LossesExample.inputs
     LossesExample.outputs_inf 0%N (Poses.Frame 1)
   = Ok (F32.nan, F32.nan, F32.zero)) /\
  (LossesExample.outputs_no_mask !! Losses.key_color (Poses.Frame 1) 0
     = Some (LossesExample.img LossesExample.eps) /\
   LossesExample.outputs_no_mask !! Losses.key_r 0 (Poses.Frame 1)
     = Some (LossesExample.img LossesExample.eps) /\
   LossesExample.outputs_no_mask !! Losses.key_omaskb (Poses.Frame 1) = Some [] /\
   Torch.all_entries (fun v => v = F32.one) [] /\
   Losses.frame_terms LossesExample.ssim LossesExample.get_smooth_bright
     (LossesExample.opt [0; -1; 1]) LossesExample.inputs
     LossesExample.outputs_no_mask 0%N (Poses.Frame 1)
   = Ok (F32.nan, F32.nan, F32.zero)) /\
  F32.is_zero F32.nan = false.
Proof.
  split; [|split].
  - split; [vm_compute; reflexivity|]. split; [vm_compute; reflexivity|].
    split; [vm_compute; reflexivity|].
    split; [apply full_all; reflexivity | vm_compute; reflexivity].
  - split; [vm_compute; reflexivity|]. split; [vm_compute; reflexivity|].
    split; [vm_compute; reflexivity|].
    split; [constructor | vm_compute; reflexivity].
  - reflexivity.
Qed.

(** * Further facts *)

(** ** [load_model]: what it needs and what it leaves alone *)

Section CheckpointFrame.
Import Checkpoint.
Context {tensor : Type} (shape : tensor -> list nat).

(** The loop reads a module and a file for every name and keeps the keys of
    [self.models]; a module it does not name is not touched. *)
Lemma load_loop_frame (t : trainer) l :
  forall ms ms', for_each (load_weights shape t) l ms = Ok ms' ->
  dom ms' = dom ms /\
  (forall n, n ∈ l -> is_Some (ms !! n) /\ is_Some (folder t !! n)) /\
  (forall n, n ∉ l -> ms' !! n = ms !! n).
Proof.
  induction l as [|x l IH]; intros ms ms' H.
  - injection H as <-. split; [reflexivity|]. split; [|reflexivity].
    intros n Hin. apply not_elem_of_nil in Hin. contradiction.
  - simpl in H. apply rbind_Ok in H as (ms1 & H1 & H).
    apply (load_weights_Ok shape) in H1
      as (mx & pre & mx' & Hx & Hpre & -> & _).
    destruct (IH _ _ H) as (Hdom & Hin & Hout).
    assert (Hd : dom (<[x := freeze (eval mx')]> ms) = dom ms).
    { apply dom_insert_lookup_L. eauto. }
    split; [congruence|]. split.
    + intros n Hn. apply elem_of_cons in Hn as [->|Hn]; [eauto|].
      destruct (Hin n Hn) as [Hm Hf]. split; [|exact Hf].
      apply elem_of_dom. rewrite <- Hd. apply elem_of_dom. exact Hm.
    + intros n Hn. apply not_elem_of_cons in Hn as [Hne Hn].
      rewrite (Hout n Hn). apply lookup_insert_ne. congruence.
Qed.

(** X1.  [load_model] changes only the modules named in [models_to_load]:
    any other entry of [self.models] is the same object with the same
    weights, mode and [requires_grad] flags after the call, and no entry is
    added or removed. *)
Theorem load_model_leaves_unlisted (t t' : trainer) :
  load_model shape t = Ok t' ->
  dom (models t') = dom (models t) /\
  forall n, n ∉ models_to_load t -> models t' !! n = models t !! n.
Proof.
  unfold load_model. intros H.
  destruct (folder_isdir t); [|discriminate].
  apply rbind_Ok in H as (ms & Hloop & H). injection H as <-. simpl.
  destruct (load_loop_frame t _ _ _ Hloop) as (Hdom & _ & Hout).
  split; [exact Hdom | exact Hout].
Qed.

(** X2.  [load_model] returns only if the weights folder exists and every
    name in [models_to_load] is both a key of [self.models] and a file of
    the folder: a missing folder, an unknown model name or a missing file
    makes the call raise. *)
Theorem load_model_requires (t t' : trainer) :
  load_model shape t = Ok t' ->
  folder_isdir t = true /\
  forall n, n ∈ models_to_load t ->
    is_Some (models t !! n) /\ is_Some (folder t !! n).
Proof.
  unfold load_model. intros H.
  destruct (folder_isdir t); [|discriminate].
  apply rbind_Ok in H as (ms & Hloop & H).
  destruct (load_loop_frame t _ _ _ Hloop) as (_ & Hin & _).
  split; [reflexivity | exact Hin].
Qed.

(** When the saved file agrees with the module, the round of the loop
    succeeds and every entry of the module keeps its value. *)
Lemma load_weights_agrees (t : trainer) ms n m pre :
  ms !! n = Some m -> folder t !! n = Some pre -> Saving.agrees m pre ->
  exists m', load_weights shape t ms n = Ok (<[n := freeze (eval m')]> ms) /\
    state_dict m' = state_dict m.
Proof.
  intros Hm Hf Hag. unfold load_weights, getitem, torch_load.
  rewrite Hm; simpl. rewrite Hf; simpl.
  set (d := filter _ pre ∪ _).
  assert (Hd : forall k, d !! k =
            match state_dict m !! k with
            | Some old => Some (STensor old) | None => None end).
  { intros k. unfold d. rewrite merged_lookup.
    destruct (state_dict m !! k) as [old|] eqn:Hk; [|reflexivity].
    destruct (pre !! k) as [v|] eqn:Hv; simpl; [|reflexivity].
    rewrite (Hag k old v Hk Hv). reflexivity. }
  assert (Hl : exists m', load_state_dict shape m d = Ok m').
  { unfold load_state_dict.
    rewrite bool_decide_eq_true_2.
    - rewrite bool_decide_eq_true_2; [eauto|].
      intros k old Hk. rewrite Hd, Hk. simpl.
      apply bool_decide_eq_true_2. reflexivity.
    - apply set_eq. intros k. rewrite !elem_of_dom, Hd.
      destruct (state_dict m !! k); split; intros [? ?]; eauto; discriminate. }
  destruct Hl as [m' Hl]. rewrite Hl. simpl.
  exists m'. split; [reflexivity|].
  apply map_eq. intros k.
  rewrite (load_state_dict_lookup shape _ _ _ k Hl), Hd.
  destruct (state_dict m !! k); reflexivity.
Qed.

(** The whole loop, when every file it reads agrees with the module it is
    loaded into. *)
Lemma load_loop_agrees (t : trainer) l :
  forall ms,
  (forall n, n ∈ l -> exists m pre,
     ms !! n = Some m /\ folder t !! n = Some pre /\ Saving.agrees m pre) ->
  exists ms', for_each (load_weights shape t) l ms = Ok ms' /\
    forall n, state_dict <$> (ms' !! n) = state_dict <$> (ms !! n).
Proof.
  induction l as [|x l IH]; intros ms H.
  - exists ms. split; reflexivity.
  - destruct (H x (list_elem_of_here _ _)) as (m & pre & Hm & Hf & Hag).
    destruct (load_weights_agrees t ms x m pre Hm Hf Hag) as (m' & Hw & Hsd).
    assert (Hsame : forall n,
              state_dict <$> (<[x := freeze (eval m')]> ms !! n)
              = state_dict <$> (ms !! n)).
    { intros n. destruct (decide (n = x)) as [->|Hne].
      - rewrite lookup_insert_eq, Hm. simpl.
        rewrite state_dict_freeze_eval, Hsd. reflexivity.
      - rewrite lookup_insert_ne by congruence. reflexivity. }
    destruct (IH (<[x := freeze (eval m')]> ms)) as (ms' & Hloop & Hk).
    { intros n Hn.
      destruct (H n (list_elem_of_further _ _ _ Hn)) as (mn & pn & Hmn & Hfn & Hagn).
      specialize (Hsame n). rewrite Hmn in Hsame. simpl in Hsame.
      destruct (<[x := freeze (eval m')]> ms !! n) as [mn'|] eqn:Hn';
        [|discriminate].
      injection Hsame as Hsame.
      exists mn', pn. split; [reflexivity|]. split; [exact Hfn|].
      intros k old v Hk' Hv. rewrite Hsame in Hk'. exact (Hagn k old v Hk' Hv). }
    exists ms'. split.
    + simpl. rewrite Hw. simpl. exact Hloop.
    + intros n. rewrite Hk. apply Hsame.
Qed.

(** X3.  Loading is idempotent: once [load_model] has returned, calling it
    again with the same folder succeeds and leaves every entry of every
    module as it is. *)
Theorem load_model_again (t t' : trainer) :
  load_model shape t = Ok t' ->
  exists t'', load_model shape t' = Ok t'' /\
    forall n, state_dict <$> (models t'' !! n) = state_dict <$> (models t' !! n).
Proof.
  intros H.
  assert (Hdir : folder_isdir t' = true /\ folder t' = folder t /\
                 models_to_load t' = models_to_load t /\
                 for_each (load_weights shape t) (models_to_load t) (models t)
                 = Ok (models t')).
  { unfold load_model in H. destruct (folder_isdir t) eqn:Hd; [|discriminate].
    apply rbind_Ok in H as (ms & Hloop & H). injection H as <-. simpl. auto. }
  destruct Hdir as (Hdir & Hfolder & Hl & Hloop).
  destruct (load_loop_frame t _ _ _ Hloop) as (_ & Hin & _).
  destruct (load_loop_agrees t' (models_to_load t') (models t'))
    as (ms' & Hloop' & Hk).
  { rewrite Hl, Hfolder. intros n Hn. destruct (Hin n Hn) as [[m Hm] [pre Hpre]].
    destruct (load_loop_state_dict shape t _ _ _ Hloop n m Hm)
      as (m' & Hm' & Hsd & Hv).
    exists m', pre. split; [exact Hm'|]. split; [exact Hpre|].
    intros k new v Hnew Hpv.
    rewrite Hsd, bool_decide_eq_true_2, Hpre in Hnew by exact Hn.
    simpl in Hnew.
    destruct (state_dict m !! k) as [old|] eqn:Hold; [|discriminate].
    destruct (Hv Hn k old pre v Hold Hpre Hpv) as (t0 & ->).
    rewrite Hpv in Hnew. simpl in Hnew. congruence. }
  unfold load_model. rewrite Hdir, Hloop'. simpl.
  eexists. split; [reflexivity|]. exact Hk.
Qed.

End CheckpointFrame.

(** ** [save_model], and [load_model] on what it wrote *)

Section SavingFacts.
Import Checkpoint.
Context {tensor : Type} (shape : tensor -> list nat).
Variable jit_script : string -> nn_module (tensor:=tensor) -> result unit.

(** What the loop of [save_model] leaves in the folder. *)
Lemma save_loop (opt : Saving.options) items :
  forall files files',
  for_each (Saving.save_one jit_script opt) items files = Ok files' ->
  NoDup items.*1 ->
  (forall n m, (n, m) ∈ items -> files' !! n = Some (Saving.to_save opt n m)) /\
  (forall n, n ∉ items.*1 -> files' !! n = files !! n).
Proof.
  induction items as [|[x mx] items IH]; intros files files' H Hnd.
  - injection H as <-. split; [|reflexivity].
    intros n m Hin. apply not_elem_of_nil in Hin. contradiction.
  - simpl in H. apply rbind_Ok in H as (files1 & H1 & H).
    apply NoDup_cons in Hnd as [Hx Hnd]. simpl in Hx.
    assert (Hf1 : files1 = <[x := Saving.to_save opt x mx]> files).
    { unfold Saving.save_one in H1. simpl in H1.
      case_bool_decide; [|congruence].
      apply rbind_Ok in H1 as (u & _ & H1). congruence. }
    subst files1. destruct (IH _ _ H Hnd) as [Hin Hout]. split.
    + intros n m Hn. apply elem_of_cons in Hn as [[= -> ->]|Hn]; [|auto].
      rewrite (Hout x Hx). apply lookup_insert_eq.
    + intros n Hn. simpl in Hn. apply not_elem_of_cons in Hn as [Hne Hn].
      rewrite (Hout n Hn). apply lookup_insert_ne. congruence.
Qed.

(** A module agrees with the file [save_model] writes for it, as long as
    the sizes added to the encoder's file do not hide an entry. *)
Lemma to_save_agrees (opt : Saving.options) n (m : nn_module (tensor:=tensor)) :
  (n = "encoder" -> forall k, k ∈ ["height"; "width"; "use_stereo"] ->
     state_dict m !! k = None) ->
  Saving.agrees m (Saving.to_save opt n m).
Proof.
  intros Hkeys k old v Hk Hv. unfold Saving.to_save in Hv.
  assert (Hplain : (STensor <$> state_dict m) !! k = Some v -> v = STensor old).
  { rewrite lookup_fmap, Hk. simpl. congruence. }
  case_bool_decide as Hn; [|auto].
  assert (Hne : forall k', k' ∈ ["height"; "width"; "use_stereo"] -> k' <> k).
  { intros k' Hk' ->. rewrite (Hkeys Hn k Hk') in Hk. discriminate. }
  rewrite !lookup_insert_ne in Hv; [auto| | |]; apply Hne;
    repeat (first [apply list_elem_of_here | apply list_elem_of_further]).
Qed.

(** X4.  Round trip.  [load_model] on a folder that [save_model] has just
    written for the same modules succeeds and restores every entry of every
    module, provided the names to load are modules other than ["adam"] and
    the encoder has no entry named ["height"], ["width"] or ["use_stereo"]
    (the sizes [save_model] adds to its file would replace it). *)
Theorem save_then_load_restores (opt : Saving.options) items adam old files l :
  NoDup items.*1 ->
  Saving.save_model jit_script opt items adam old = Ok files ->
  (forall n, n ∈ l -> n ∈ items.*1 /\ n <> "adam") ->
  (forall m k, ("encoder", m) ∈ items ->
     k ∈ ["height"; "width"; "use_stereo"] -> state_dict m !! k = None) ->
  exists t',
    load_model shape {| models := list_to_map items; models_to_load := l;
                        folder_isdir := true; folder := files |} = Ok t' /\
    forall n m, (n, m) ∈ items ->
      exists m', models t' !! n = Some m' /\ state_dict m' = state_dict m.
Proof.
  intros Hnd Hsave Hl Hkeys. unfold Saving.save_model in Hsave.
  apply rbind_Ok in Hsave as (files0 & Hloop & [= <-]).
  destruct (save_loop opt items _ _ Hloop Hnd) as [Hin _].
  set (t := {| models := list_to_map items; models_to_load := l;
               folder_isdir := true;
               folder := <["adam" := adam]> files0 |}).
  destruct (load_loop_agrees shape t l (list_to_map items)) as (ms' & Hload & Hk).
  { intros n Hn. destruct (Hl n Hn) as [Hn' Hadam].
    apply list_elem_of_fmap in Hn' as ([n' m] & -> & Hnm). simpl in *.
    exists m, (Saving.to_save opt n' m). split; [|split].
    - apply elem_of_list_to_map_1; assumption.
    - simpl. rewrite lookup_insert_ne by congruence. apply Hin, Hnm.
    - apply to_save_agrees. intros -> k Hk'. exact (Hkeys m k Hnm Hk'). }
  exists {| models := ms'; models_to_load := l; folder_isdir := true;
            folder := <["adam" := adam]> files0 |}.
  split.
  - unfold load_model. simpl. fold t. rewrite Hload. reflexivity.
  - intros n m Hnm. simpl. specialize (Hk n).
    rewrite (elem_of_list_to_map_1 items n m Hnd Hnm) in Hk. simpl in Hk.
    destruct (ms' !! n) as [m'|]; [|discriminate].
    injection Hk as Hk. eauto.
Qed.

End SavingFacts.

(** X4 on the two example modules: the folder is [SavingExample.files],
    and both modules are loaded back. *)
Lemma save_then_load_restores_witness :
  exists t',
    Checkpoint.load_model CheckpointExample.shape
      {| Checkpoint.models := list_to_map SavingExample.items;
         Checkpoint.models_to_load := ["encoder"; "depth"];
         Checkpoint.folder_isdir := true;
         Checkpoint.folder := SavingExample.files |} = Ok t' /\
    forall n m, (n, m) ∈ SavingExample.items ->
      exists m', Checkpoint.models t' !! n = Some m' /\
        Checkpoint.state_dict m' = Checkpoint.state_dict m.
Proof.
  apply (save_then_load_restores CheckpointExample.shape SavingExample.jit_script
           SavingExample.opt SavingExample.items ∅ ∅ SavingExample.files
           ["encoder"; "depth"]).
  - apply (bool_decide_unpack _). vm_compute. exact I.
  - vm_compute. reflexivity.
  - intros n Hn. apply (bool_decide_unpack _).
    repeat (apply elem_of_cons in Hn as [->|Hn]; [vm_compute; exact I|]).
    apply not_elem_of_nil in Hn. contradiction.
  - intros m k Hm Hk.
    assert (m = CheckpointExample.encoder) as ->.
    { apply elem_of_cons in Hm as [[= ->]|Hm]; [reflexivity|].
      apply elem_of_cons in Hm as [Hm|Hm]; [discriminate Hm|].
      apply not_elem_of_nil in Hm. contradiction. }
    repeat (apply elem_of_cons in Hk as [->|Hk]; [vm_compute; reflexivity|]).
    apply not_elem_of_nil in Hk. contradiction.
Defined.

(** X1 on [SavingExample.trainer0], which loads the encoder and not
    the depth decoder. *)
Lemma load_model_leaves_unlisted_witness :
  exists t',
    Checkpoint.load_model CheckpointExample.shape SavingExample.trainer0 = Ok t' /\
    dom (Checkpoint.models t') = dom (Checkpoint.models SavingExample.trainer0) /\
    forall n, n ∉ Checkpoint.models_to_load SavingExample.trainer0 ->
      Checkpoint.models t' !! n = Checkpoint.models SavingExample.trainer0 !! n.
Proof.
  eexists. split; [vm_compute; reflexivity|].
  apply (load_model_leaves_unlisted CheckpointExample.shape SavingExample.trainer0).
  vm_compute. reflexivity.
Defined.

Lemma load_model_requires_witness :
  Checkpoint.folder_isdir CheckpointExample.trainer0 = true /\
  forall n, n ∈ Checkpoint.models_to_load CheckpointExample.trainer0 ->
    is_Some (Checkpoint.models CheckpointExample.trainer0 !! n) /\
    is_Some (Checkpoint.folder CheckpointExample.trainer0 !! n).
Proof.
  apply (load_model_requires CheckpointExample.shape CheckpointExample.trainer0
           CheckpointExample.trainer1).
  vm_compute. reflexivity.
Defined.

Lemma load_model_again_witness :
  exists t'',
    Checkpoint.load_model CheckpointExample.shape CheckpointExample.trainer1
    = Ok t'' /\
    forall n,
      Checkpoint.state_dict <$> (Checkpoint.models t'' !! n) =
      Checkpoint.state_dict <$> (Checkpoint.models CheckpointExample.trainer1 !! n).
Proof.
  apply (load_model_again CheckpointExample.shape CheckpointExample.trainer0
           CheckpointExample.trainer1).
  vm_compute. reflexivity.
Defined.

(** ** [__init__], [set_train] and [set_eval] *)

Section SetupFacts.
Import Checkpoint.
Context {tensor : Type} (shape : tensor -> list nat).
Variable network : string -> nn_module (tensor:=tensor).

(** What a run of [self.models[name].train()] (or [.eval()]) over a list of
    names does: it needs every name, and switches exactly the named
    modules. *)
Lemma switch_loop (mode : nn_module (tensor:=tensor) -> nn_module) names :
  (forall m, mode (mode m) = mode m) ->
  forall ms ms', for_each (Setup.switch mode) names ms = Ok ms' ->
  (forall n, n ∈ names -> is_Some (ms !! n)) /\
  (forall n, ms' !! n =
     (fun m => if bool_decide (n ∈ names) then mode m else m) <$> (ms !! n)).
Proof.
  intros Hidem. induction names as [|x names IH]; intros ms ms' H.
  - injection H as <-. split.
    + intros n Hn. apply not_elem_of_nil in Hn. contradiction.
    + intros n. rewrite bool_decide_eq_false_2 by apply not_elem_of_nil.
      destruct (ms !! n); reflexivity.
  - simpl in H. apply rbind_Ok in H as (ms1 & H1 & H).
    unfold Setup.switch in H1. apply rbind_Ok in H1 as (m & Hm & [= <-]).
    apply getitem_Ok in Hm. destruct (IH _ _ H) as [Hin Hk]. split.
    + intros n Hn. apply elem_of_cons in Hn as [->|Hn]; [eauto|].
      destruct (Hin n Hn) as [m' Hm'].
      destruct (decide (n = x)) as [->|Hne]; [eauto|].
      rewrite lookup_insert_ne in Hm' by congruence. eauto.
    + intros n. rewrite Hk. destruct (decide (n = x)) as [->|Hne].
      * rewrite lookup_insert_eq, Hm. simpl.
        rewrite (bool_decide_eq_true_2 (x ∈ x :: names))
          by apply list_elem_of_here.
        case_bool_decide; [rewrite Hidem|]; reflexivity.
      * rewrite lookup_insert_ne by congruence.
        destruct (ms !! n) as [m'|]; [|reflexivity]. simpl. f_equal.
        repeat case_bool_decide; try reflexivity.
        -- exfalso. match goal with H : n ∉ x :: names |- _ => apply H end.
           apply list_elem_of_further. assumption.
        -- exfalso. match goal with H : n ∈ x :: names |- _ =>
             apply elem_of_cons in H as [?|?] end; [congruence | contradiction].
Qed.

Lemma switch_loop_total (mode : nn_module (tensor:=tensor) -> nn_module) names :
  forall ms, (forall n, n ∈ names -> is_Some (ms !! n)) ->
  exists ms', for_each (Setup.switch mode) names ms = Ok ms'.
Proof.
  induction names as [|x names IH]; intros ms H; [eexists; reflexivity|].
  destruct (H x (list_elem_of_here _ _)) as [m Hm].
  simpl. unfold Setup.switch at 1, getitem. rewrite Hm. simpl.
  apply IH. intros n Hn. destruct (decide (n = x)) as [->|Hne].
  - rewrite lookup_insert_eq. eauto.
  - rewrite lookup_insert_ne by congruence. apply H, list_elem_of_further, Hn.
Qed.

(** The loop raises [KeyError] at the first name that is no module. *)
Lemma switch_loop_KeyError (mode : nn_module (tensor:=tensor) -> nn_module)
    pre x post :
  forall ms, (forall n, n ∈ pre -> is_Some (ms !! n)) -> x ∉ pre ->
  ms !! x = None ->
  for_each (Setup.switch mode) (pre ++ x :: post) ms = Raise (KeyError x).
Proof.
  induction pre as [|y pre IH]; intros ms H Hx Hnone.
  - simpl. unfold Setup.switch, getitem. rewrite Hnone. reflexivity.
  - apply not_elem_of_cons in Hx as [Hne Hx].
    destruct (H y (list_elem_of_here _ _)) as [m Hm].
    simpl. unfold Setup.switch at 1, getitem. rewrite Hm. simpl.
    apply IH; [|exact Hx|].
    + intros n Hn. destruct (decide (n = y)) as [->|Hny].
      * rewrite lookup_insert_eq. eauto.
      * rewrite lookup_insert_ne by congruence.
        apply H, list_elem_of_further, Hn.
    + rewrite lookup_insert_ne by congruence. exact Hnone.
Qed.

(** The keys of [self.models] and the modules behind
    [parameters_to_train] after [__init__]. *)
Lemma init_models (opt : Setup.options) (self : Setup.trainer) :
  Setup.init network opt = Ok self ->
  Poses.init (Setup.pose_options opt) = Ok (Setup.poses self) /\
  (forall n, n ∈ ["encoder"; "depth"; "position_encoder"; "position";
                  "transform_encoder"; "transform"] ->
     is_Some (Setup.models self !! n)) /\
  (is_Some (Setup.models self !! "pose") <->
     Poses.use_pose_net (Setup.poses self) = true) /\
  (is_Some (Setup.models self !! "pose_encoder") <->
     Poses.use_pose_net (Setup.poses self) = true /\
     Poses.pose_model_type (Setup.poses self) = "separate_resnet") /\
  (forall n, n ∈ Setup.parameters_to_train self ->
     is_Some (Setup.models self !! n) /\
     n <> "position_encoder" /\ n <> "position").
Proof.
  unfold Setup.init. intros H.
  case_bool_decide as Hh; [|discriminate].
  case_bool_decide as Hw; [|discriminate].
  apply rbind_Ok in H as (p & Hp & H). rewrite Hp.
  apply rbind_Ok in H as (s1 & H1 & H).
  apply rbind_Ok in H as (s2 & H2 & [= <-]). simpl.
  split; [reflexivity|].
  assert (Hmask : s2 = s1 \/ s2 = Setup.add network true s1 "predictive_mask").
  { destruct (Setup.predictive_mask opt); [|left; congruence].
    destruct (Setup.disable_automasking opt); [right; congruence|discriminate]. }
  clear H2 Hp Hh Hw.
  destruct (Poses.use_pose_net p) eqn:Hnet.
  - apply rbind_Ok in H1 as (u & Hu & [= <-]). apply getitem_Ok in Hu.
    destruct (decide (Poses.pose_model_type p = "separate_resnet")) as [Hsep|Hsep].
    + clear Hu. rewrite bool_decide_eq_true_2 in Hmask by exact Hsep.
      destruct Hmask as [-> | ->]; simpl.
      all: split; [intros n Hn;
                   repeat (apply elem_of_cons in Hn as [->|Hn]; [vm_compute; eauto|]);
                   apply not_elem_of_nil in Hn; contradiction|].
      all: split; [split; [reflexivity | intros _; vm_compute; eauto]|].
      all: split; [split; [intros _; split; [reflexivity|exact Hsep]
                          | intros _; vm_compute; eauto]|].
      all: intros n Hn;
           repeat (apply elem_of_cons in Hn as [->|Hn];
                   [split; [vm_compute; eauto | split; discriminate]|]);
           apply not_elem_of_nil in Hn; contradiction.
    + rewrite bool_decide_eq_false_2 in Hmask, Hu by exact Hsep.
      assert (Hpose : (if bool_decide (Poses.pose_model_type p = "shared")
                       then Setup.add network false
                              (Setup.add network true
                                 (Setup.add network true
                                    (Setup.add network false
                                       (Setup.add network false
                                          (Setup.add network true
                                             (Setup.add network true (∅, []) "encoder")
                                             "depth") "position_encoder") "position")
                                    "transform_encoder") "transform") "pose"
                       else if bool_decide (Poses.pose_model_type p = "posecnn")
                       then Setup.add network false
                              (Setup.add network true
                                 (Setup.add network true
                                    (Setup.add network false
                                       (Setup.add network false
                                          (Setup.add network true
                                             (Setup.add network true (∅, []) "encoder")
                                             "depth") "position_encoder") "position")
                                    "transform_encoder") "transform") "pose"
                       else Setup.add network true
                              (Setup.add network true
                                 (Setup.add network false
                                    (Setup.add network false
                                       (Setup.add network true
                                          (Setup.add network true (∅, []) "encoder")
                                          "depth") "position_encoder") "position")
                                 "transform_encoder") "transform")
                      = Setup.add network false
                          (Setup.add network true
                             (Setup.add network true
                                (Setup.add network false
                                   (Setup.add network false
                                      (Setup.add network true
                                         (Setup.add network true (∅, []) "encoder")
                                         "depth") "position_encoder") "position")
                                "transform_encoder") "transform") "pose").
      { repeat case_bool_decide; try reflexivity.
        vm_compute in Hu. discriminate Hu. }
      rewrite Hpose in Hmask. clear Hu Hpose.
      destruct Hmask as [-> | ->]; simpl.
      all: split; [intros n Hn;
                   repeat (apply elem_of_cons in Hn as [->|Hn]; [vm_compute; eauto|]);
                   apply not_elem_of_nil in Hn; contradiction|].
      all: split; [split; [reflexivity | intros _; vm_compute; eauto]|].
      all: split; [split; [intros [? Habs]; vm_compute in Habs; discriminate Habs
                          | intros [_ ?]; contradiction]|].
      all: intros n Hn;
           repeat (apply elem_of_cons in Hn as [->|Hn];
                   [split; [vm_compute; eauto | split; discriminate]|]);
           apply not_elem_of_nil in Hn; contradiction.
  - injection H1 as <-.
    destruct Hmask as [-> | ->]; simpl.
    all: split; [intros n Hn;
                 repeat (apply elem_of_cons in Hn as [->|Hn]; [vm_compute; eauto|]);
                 apply not_elem_of_nil in Hn; contradiction|].
    all: split; [split; [intros [? Habs]; vm_compute in Habs; discriminate Habs
                        | discriminate]|].
    all: split; [split; [intros [? Habs]; vm_compute in Habs; discriminate Habs
                        | intros [? _]; discriminate]|].
    all: intros n Hn;
         repeat (apply elem_of_cons in Hn as [->|Hn];
                 [split; [vm_compute; eauto | split; discriminate]|]);
         apply not_elem_of_nil in Hn; contradiction.
Qed.

(** X5.  [__init__] gets past line 108 only if [height] and [width] are
    multiples of 32, [frame_ids] starts with 0, the pose network (needed
    unless the frames are a stereo pair only) has one of the three known
    types, and [predictive_mask] comes with [disable_automasking].  With a
    pose network of another type, and the two sizes and [frame_ids] as
    required, the constructors before line 95 store nothing under ["pose"]
    and, when they have returned, line 95 raises [KeyError]. *)
Theorem init_requires (opt : Setup.options) :
  ((exists self, Setup.init network opt = Ok self) ->
   Setup.height opt `mod` 32 = 0 /\
   Setup.width opt `mod` 32 = 0 /\
   (exists fs, Poses.opt_frame_ids (Setup.pose_options opt) = Poses.Frame 0 :: fs) /\
   ((Poses.opt_use_stereo (Setup.pose_options opt) = true /\
     Poses.opt_frame_ids (Setup.pose_options opt) = [Poses.Frame 0]) \/
    Poses.opt_pose_model_type (Setup.pose_options opt)
      ∈ ["separate_resnet"; "shared"; "posecnn"]) /\
   (Setup.predictive_mask opt = true -> Setup.disable_automasking opt = true)) /\
  (Setup.height opt `mod` 32 = 0 ->
   Setup.width opt `mod` 32 = 0 ->
   (exists fs, Poses.opt_frame_ids (Setup.pose_options opt) = Poses.Frame 0 :: fs) ->
   ~ (Poses.opt_use_stereo (Setup.pose_options opt) = true /\
      Poses.opt_frame_ids (Setup.pose_options opt) = [Poses.Frame 0]) ->
   Poses.opt_pose_model_type (Setup.pose_options opt)
     ∉ ["separate_resnet"; "shared"; "posecnn"] ->
   Setup.init network opt = Raise (KeyError "pose")).
Proof.
  unfold Setup.init, Poses.init.
  set (T := Poses.opt_pose_model_type (Setup.pose_options opt)).
  assert (Hunknown : T ∉ ["separate_resnet"; "shared"; "posecnn"] ->
            bool_decide (T = "separate_resnet") = false /\
            bool_decide (T = "shared") = false /\
            bool_decide (T = "posecnn") = false).
  { intros Hnot. repeat split; apply bool_decide_eq_false_2;
      intros E; apply Hnot; rewrite E; elem_of_list. }
  split.
  - destruct (Poses.opt_frame_ids (Setup.pose_options opt)) as [|f0 fs] eqn:Hfs.
    { intros [self H]. repeat case_bool_decide; discriminate. }
    intros [self H].
    case_bool_decide as Hh; [|discriminate].
    case_bool_decide as Hw; [|discriminate].
    case_bool_decide as H0; [|discriminate]. subst f0. cbn [rbind] in H.
    split; [exact Hh|]. split; [exact Hw|]. split; [eauto|].
    apply rbind_Ok in H as (s1 & H1 & H).
    apply rbind_Ok in H as (s2 & H2 & _).
    split.
    + cbn [Poses.use_pose_net Poses.pose_model_type] in H1.
      assert (Hknown : T ∉ ["separate_resnet"; "shared"; "posecnn"] ->
                Poses.opt_use_stereo (Setup.pose_options opt) = true /\
                Poses.Frame 0 :: fs = [Poses.Frame 0]).
      { intros Hnot. destruct (Hunknown Hnot) as (N1 & N2 & N3).
        fold T in H1. rewrite N1, N2, N3 in H1. clear Hunknown N1 N2 N3.
        destruct (Poses.opt_use_stereo (Setup.pose_options opt)); cbn [andb negb] in H1.
        - case_bool_decide as Hone; [auto|].
          cbn [negb] in H1. vm_compute in H1. discriminate H1.
        - vm_compute in H1. discriminate H1. }
      destruct (decide (T ∈ ["separate_resnet"; "shared"; "posecnn"]));
        [right; assumption | left; auto].
    + intros Hmask. rewrite Hmask in H2.
      destruct (Setup.disable_automasking opt); [reflexivity | discriminate].
  - intros Hh Hw [fs Hfs] Hnet Hnot. rewrite Hfs in *.
    rewrite (bool_decide_eq_true_2 _ Hh), (bool_decide_eq_true_2 _ Hw),
      (bool_decide_eq_true_2 (Poses.Frame 0 = Poses.Frame 0)) by reflexivity.
    cbn [rbind Poses.use_pose_net Poses.pose_model_type]. fold T.
    destruct (Hunknown Hnot) as (N1 & N2 & N3). rewrite N1, N2, N3.
    assert (Huse : negb (Poses.opt_use_stereo (Setup.pose_options opt)
                         && bool_decide (Poses.Frame 0 :: fs = [Poses.Frame 0])) = true).
    { destruct (Poses.opt_use_stereo (Setup.pose_options opt)); [|reflexivity].
      destruct (decide (Poses.Frame 0 :: fs = [Poses.Frame 0])) as [Hone|Hone].
      - exfalso. apply Hnet. auto.
      - rewrite (bool_decide_eq_false_2 _ Hone). reflexivity. }
    rewrite Huse. reflexivity.
Qed.

(** X6.  After [__init__], [set_train] and [set_eval] run through only
    when the trainer has a pose network of type ["separate_resnet"]: with
    ["shared"] or ["posecnn"], or without a pose network (stereo pairs only),
    [__init__] stores no ["pose_encoder"] and both methods raise
    [KeyError('pose_encoder')]. *)
Theorem set_train_needs_pose_encoder (opt : Setup.options) (self : Setup.trainer) :
  Setup.init network opt = Ok self ->
  (Poses.use_pose_net (Setup.poses self) = true /\
   Poses.pose_model_type (Setup.poses self) = "separate_resnet" ->
   (exists ms, Setup.set_train (Setup.models self) = Ok ms) /\
   (exists ms, Setup.set_eval (Setup.models self) = Ok ms)) /\
  (~ (Poses.use_pose_net (Setup.poses self) = true /\
      Poses.pose_model_type (Setup.poses self) = "separate_resnet") ->
   Setup.set_train (Setup.models self) = Raise (KeyError "pose_encoder") /\
   Setup.set_eval (Setup.models self) = Raise (KeyError "pose_encoder")).
Proof.
  intros H. destruct (init_models _ _ H) as (_ & Hsix & Hpose & Henc & _).
  split.
  - intros Hsep.
    assert (Hall : forall n, n ∈ Setup.switched -> is_Some (Setup.models self !! n)).
    { intros n Hn. unfold Setup.switched in Hn.
      repeat (apply elem_of_cons in Hn as [->|Hn];
              [first [ apply Hsix; elem_of_list
                     | apply Henc, Hsep
                     | apply Hpose, Hsep ]|]).
      apply not_elem_of_nil in Hn. contradiction. }
    split; apply switch_loop_total, Hall.
  - intros Hno.
    assert (Hnone : Setup.models self !! "pose_encoder" = None).
    { destruct (Setup.models self !! "pose_encoder") eqn:He; [|reflexivity].
      exfalso. apply Hno, Henc. eauto. }
    assert (Hpre : forall n,
              n ∈ ["encoder"; "depth"; "transform_encoder"; "transform"] ->
              is_Some (Setup.models self !! n)).
    { intros n Hn. apply Hsix.
      repeat (apply elem_of_cons in Hn as [->|Hn]; [elem_of_list|]).
      apply not_elem_of_nil in Hn. contradiction. }
    assert (Hx : "pose_encoder" ∉ ["encoder"; "depth"; "transform_encoder"; "transform"]).
    { intros Hn.
      repeat (apply elem_of_cons in Hn as [Hn|Hn]; [discriminate Hn|]).
      apply not_elem_of_nil in Hn. contradiction. }
    split.
    + exact (switch_loop_KeyError Setup.train_mode
               ["encoder"; "depth"; "transform_encoder"; "transform"]
               "pose_encoder" ["pose"] _ Hpre Hx Hnone).
    + exact (switch_loop_KeyError eval
               ["encoder"; "depth"; "transform_encoder"; "transform"]
               "pose_encoder" ["pose"] _ Hpre Hx Hnone).
Qed.

(** X7.  The optical-flow networks are built but never trained: after
    [__init__], ["position_encoder"] and ["position"] are modules of the
    trainer, every module behind [parameters_to_train] is a module of the
    trainer, and neither of the two is among them; [set_train] leaves both
    as they are. *)
Theorem flow_networks_not_trained (opt : Setup.options) (self : Setup.trainer) :
  Setup.init network opt = Ok self ->
  is_Some (Setup.models self !! "position_encoder") /\
  is_Some (Setup.models self !! "position") /\
  (forall n, n ∈ Setup.parameters_to_train self ->
     is_Some (Setup.models self !! n) /\
     n <> "position_encoder" /\ n <> "position") /\
  (forall ms, Setup.set_train (Setup.models self) = Ok ms ->
     ms !! "position_encoder" = Setup.models self !! "position_encoder" /\
     ms !! "position" = Setup.models self !! "position").
Proof.
  intros H. destruct (init_models _ _ H) as (_ & Hsix & _ & _ & Htrain).
  split; [|split; [|split]].
  - apply Hsix. elem_of_list.
  - apply Hsix. elem_of_list.
  - exact Htrain.
  - intros ms Hms. unfold Setup.set_train in Hms.
    apply switch_loop in Hms as [_ Hk]; [|reflexivity].
    rewrite !Hk.
    split.
    + destruct (Setup.models self !! "position_encoder"); reflexivity.
    + destruct (Setup.models self !! "position"); reflexivity.
Qed.

(** X8.  What [load_model] froze stays frozen under [set_train], but does
    not stay in eval mode: after [load_model] and then [set_train], a loaded
    module still has [requires_grad] off on every parameter, and it is in
    training mode exactly when it is one of the six modules [set_train]
    names. *)
Theorem load_then_set_train (t t' : trainer) ms n :
  load_model shape t = Ok t' ->
  Setup.set_train (models t') = Ok ms ->
  n ∈ models_to_load t ->
  exists m, ms !! n = Some m /\
    (forall k p, params m !! k = Some p -> requires_grad p = false) /\
    training m = bool_decide (n ∈ Setup.switched).
Proof.
  unfold load_model. intros H Hms Hin.
  destruct (folder_isdir t); [|discriminate].
  apply rbind_Ok in H as (ms0 & Hloop & H). injection H as <-. simpl in Hms.
  destruct (load_loop_frozen shape t _ _ _ Hloop) as [Hl _].
  destruct (Hl n Hin) as (m' & Hm' & Htr & Hgrad).
  unfold Setup.set_train in Hms.
  apply switch_loop in Hms as [_ Hk]; [|reflexivity].
  specialize (Hk n). rewrite Hm' in Hk. simpl in Hk.
  eexists. split; [exact Hk|].
  case_bool_decide; simpl; auto.
Qed.

(** X9.  The assertions on [height] and [width] make the image pyramid
    exact: once [__init__] has passed them, the size [h, w] computed for a
    scale up to 5 by floor division loses no pixel. *)
Theorem size_at_exact (opt : Setup.options) (self : Setup.trainer) (scale : N) :
  Setup.init network opt = Ok self ->
  (scale <= 5)%N ->
  (Setup.size_at opt scale).1 * 2 ^ Z.of_N scale = Setup.height opt /\
  (Setup.size_at opt scale).2 * 2 ^ Z.of_N scale = Setup.width opt.
Proof.
  unfold Setup.init. intros H Hs.
  case_bool_decide as Hh; [|discriminate].
  case_bool_decide as Hw; [|discriminate]. clear H.
  assert (Hc : exists c, 32 = c * 2 ^ Z.of_N scale).
  { assert (Hcase : (scale = 0 \/ scale = 1 \/ scale = 2 \/ scale = 3 \/
                     scale = 4 \/ scale = 5)%N) by lia.
    destruct Hcase as [->|[->|[->|[->|[->| ->]]]]];
      [exists 32 | exists 16 | exists 8 | exists 4 | exists 2 | exists 1];
      reflexivity. }
  destruct Hc as [c Hc].
  assert (Hpos : 2 ^ Z.of_N scale <> 0) by (apply Z.pow_nonzero; lia).
  unfold Setup.size_at. simpl.
  apply Z.mod_divide in Hh as [a Ha]; [|lia].
  apply Z.mod_divide in Hw as [b Hb]; [|lia].
  rewrite Ha, Hb, Hc, !Z.mul_assoc, !Z.div_mul by exact Hpos.
  split; reflexivity.
Qed.

End SetupFacts.

(** X5 on the example options: with the pose network ["posecnn"]
    [__init__] gets through, with an unknown one it raises [KeyError]. *)
Lemma init_requires_witness :
  (Setup.height (SetupExample.opt "posecnn") `mod` 32 = 0 /\
   Setup.width (SetupExample.opt "posecnn") `mod` 32 = 0 /\
   (exists fs, Poses.opt_frame_ids (Setup.pose_options (SetupExample.opt "posecnn"))
               = Poses.Frame 0 :: fs) /\
   ((Poses.opt_use_stereo (Setup.pose_options (SetupExample.opt "posecnn")) = true /\
     Poses.opt_frame_ids (Setup.pose_options (SetupExample.opt "posecnn"))
     = [Poses.Frame 0]) \/
    Poses.opt_pose_model_type (Setup.pose_options (SetupExample.opt "posecnn"))
      ∈ ["separate_resnet"; "shared"; "posecnn"]) /\
   (Setup.predictive_mask (SetupExample.opt "posecnn") = true ->
    Setup.disable_automasking (SetupExample.opt "posecnn") = true)) /\
  Setup.init SetupExample.network (SetupExample.opt "vgg") = Raise (KeyError "pose").
Proof.
  split.
  - apply (init_requires SetupExample.network (SetupExample.opt "posecnn")).
    exists (SetupExample.self "posecnn"). vm_compute. reflexivity.
  - apply (init_requires SetupExample.network (SetupExample.opt "vgg")).
    + reflexivity.
    + reflexivity.
    + eexists. reflexivity.
    + intros [Hst _]. discriminate Hst.
    + intros Hin.
      repeat (apply elem_of_cons in Hin as [Hin|Hin]; [discriminate Hin|]).
      apply not_elem_of_nil in Hin. exact Hin.
Defined.

Lemma set_train_needs_pose_encoder_witness :
  (Poses.use_pose_net (Setup.poses (SetupExample.self "posecnn")) = true /\
   Poses.pose_model_type (Setup.poses (SetupExample.self "posecnn"))
   = "separate_resnet" ->
   (exists ms, Setup.set_train (Setup.models (SetupExample.self "posecnn")) = Ok ms) /\
   (exists ms, Setup.set_eval (Setup.models (SetupExample.self "posecnn")) = Ok ms)) /\
  (~ (Poses.use_pose_net (Setup.poses (SetupExample.self "posecnn")) = true /\
      Poses.pose_model_type (Setup.poses (SetupExample.self "posecnn"))
      = "separate_resnet") ->
   Setup.set_train (Setup.models (SetupExample.self "posecnn"))
   = Raise (KeyError "pose_encoder") /\
   Setup.set_eval (Setup.models (SetupExample.self "posecnn"))
   = Raise (KeyError "pose_encoder")).
Proof.
  apply (set_train_needs_pose_encoder SetupExample.network
           (SetupExample.opt "posecnn")).
  vm_compute. reflexivity.
Defined.

(** The two variants side by side. *)
Lemma set_train_example :
  Setup.set_train (Setup.models (SetupExample.self "posecnn"))
  = Raise (KeyError "pose_encoder") /\
  exists ms, Setup.set_train (Setup.models (SetupExample.self "separate_resnet"))
             = Ok ms.
Proof. split; [vm_compute; reflexivity | eexists; vm_compute; reflexivity]. Qed.

Lemma flow_networks_not_trained_witness :
  is_Some (Setup.models (SetupExample.self "separate_resnet") !! "position_encoder") /\
  is_Some (Setup.models (SetupExample.self "separate_resnet") !! "position") /\
  (forall n, n ∈ Setup.parameters_to_train (SetupExample.self "separate_resnet") ->
     is_Some (Setup.models (SetupExample.self "separate_resnet") !! n) /\
     n <> "position_encoder" /\ n <> "position") /\
  (forall ms,
     Setup.set_train (Setup.models (SetupExample.self "separate_resnet")) = Ok ms ->
     ms !! "position_encoder"
     = Setup.models (SetupExample.self "separate_resnet") !! "position_encoder" /\
     ms !! "position"
     = Setup.models (SetupExample.self "separate_resnet") !! "position").
Proof.
  apply (flow_networks_not_trained SetupExample.network
           (SetupExample.opt "separate_resnet")).
  vm_compute. reflexivity.
Defined.

(** X8 on [SetupExample.loading]: the encoder is loaded and then switched
    back to training mode; the flow decoder is loaded and stays in eval
    mode. *)
Lemma load_then_set_train_witness :
  exists t' ms,
    Checkpoint.load_model CheckpointExample.shape SetupExample.loading = Ok t' /\
    Setup.set_train (Checkpoint.models t') = Ok ms /\
    (exists m, ms !! "encoder" = Some m /\
       (forall k p, Checkpoint.params m !! k = Some p ->
          Checkpoint.requires_grad p = false) /\
       Checkpoint.training m = bool_decide ("encoder" ∈ Setup.switched)) /\
    (exists m, ms !! "position" = Some m /\
       (forall k p, Checkpoint.params m !! k = Some p ->
          Checkpoint.requires_grad p = false) /\
       Checkpoint.training m = bool_decide ("position" ∈ Setup.switched)).
Proof.
  assert (Hload : exists t',
            Checkpoint.load_model CheckpointExample.shape SetupExample.loading
            = Ok t') by (eexists; vm_compute; reflexivity).
  destruct Hload as [t' Hload].
  assert (Htrain : exists ms, Setup.set_train (Checkpoint.models t') = Ok ms).
  { vm_compute in Hload. injection Hload as <-. eexists. vm_compute. reflexivity. }
  destruct Htrain as [ms Htrain].
  exists t', ms. split; [exact Hload|]. split; [exact Htrain|]. split.
  - apply (load_then_set_train CheckpointExample.shape SetupExample.loading t' ms
             "encoder" Hload Htrain).
    apply list_elem_of_here.
  - apply (load_then_set_train CheckpointExample.shape SetupExample.loading t' ms
             "position" Hload Htrain).
    apply list_elem_of_further, list_elem_of_here.
Defined.

Lemma size_at_exact_witness :
  (Setup.size_at (SetupExample.opt "posecnn") 3).1 * 2 ^ Z.of_N 3
  = Setup.height (SetupExample.opt "posecnn") /\
  (Setup.size_at (SetupExample.opt "posecnn") 3).2 * 2 ^ Z.of_N 3
  = Setup.width (SetupExample.opt "posecnn").
Proof.
  apply (size_at_exact SetupExample.network (SetupExample.opt "posecnn")
           (SetupExample.self "posecnn") 3%N).
  - vm_compute. reflexivity.
  - lia.
Defined.

(** ** [predict_poses]: what it can return *)

Section PosesReturns.
Import Poses.
Context {value : Type}.
Variable position_encoder : value -> value -> value.
Variable position : value -> value.
Variable slice_hw : value -> binding (value:=value) -> binding (value:=value) -> result value.
Variable pose_by_ransac_call : value -> list (binding (value:=value)) -> result (value * value).
Variable fill_outputs :
  gmap string value -> frame_id -> value -> value -> result (gmap string value).

(** The loop gets through stereo frames only, and leaves [outputs] as it
    found it. *)
Lemma predict_loop_stereo (G : globals) feats fs : forall outputs st,
  for_each (predict_frame position_encoder position slice_hw pose_by_ransac_call
              fill_outputs G feats) fs (outputs, None) = Ok st <->
  st = (outputs, None) /\ Forall (fun f => f = Stereo) fs.
Proof.
  induction fs as [|f fs IH]; intros outputs st; simpl.
  - split.
    + intros [= <-]. split; [reflexivity | constructor].
    + intros [-> _]. reflexivity.
  - split.
    + intros H. apply rbind_Ok in H as (st1 & H1 & H).
      apply predict_frame_Ok in H1 as [-> ->].
      apply IH in H as [-> Hfs]. split; [reflexivity|].
      constructor; [reflexivity | exact Hfs].
    + intros [-> Hfs]. apply Forall_cons in Hfs as [-> Hfs].
      unfold predict_frame at 1.
      rewrite bool_decide_eq_false_2 by (intros H; apply H; reflexivity).
      simpl. apply IH. split; [reflexivity | exact Hfs].
Qed.

(** X10.  [predict_poses] never produces an output.  It returns exactly
    when [num_pose_frames] is not 2, or when the frames of [pose_feats] are
    all there and every neighbour frame is the stereo frame; and what it
    returns is the empty dictionary: no pose, no flow and no occlusion mask
    ever reaches [outputs]. *)
Theorem predict_poses_returns_empty (G : globals) (self : trainer) inputs features
    (outputs : gmap string value) :
  predict_poses position_encoder position slice_hw pose_by_ransac_call
    fill_outputs G self inputs features = Ok outputs <->
  outputs = ∅ /\
  (num_pose_frames self <> 2%nat \/
   (exists feats, pose_feats self inputs features = Ok feats) /\
   Forall (fun f => f = Stereo) (tail (frame_ids self))).
Proof.
  unfold predict_poses. case_bool_decide as Hn.
  - split.
    + intros H. apply rbind_Ok in H as (feats & Hfeats & H).
      apply rbind_Ok in H as (st & Hloop & [= <-]).
      apply predict_loop_stereo in Hloop as [-> Hfs].
      split; [reflexivity|]. right. eauto.
    + intros [-> [Hne | [[feats Hfeats] Hfs]]]; [contradiction|].
      rewrite Hfeats. simpl.
      rewrite (proj2 (predict_loop_stereo G feats _ ∅ (∅, None))) by auto.
      reflexivity.
  - split.
    + intros [= <-]. auto.
    + intros [-> _]. reflexivity.
Qed.

End PosesReturns.

(** ** [val]: the validation stream *)

Section ValidationFacts.
Context {batch : Type}.

Lemma fetches_from (val_loader : list batch) (k : nat) :
  val_loader <> [] ->
  forall j, (j <= length val_loader)%nat ->
  exists bs,
    Validation.fetches val_loader k (drop j val_loader) = Some bs /\
    length bs = k /\
    forall i, (i < k)%nat ->
      bs !! i = val_loader !! ((j + i) `mod` length val_loader)%nat.
Proof.
  intros Hne. assert (Hn : (0 < length val_loader)%nat).
  { destruct val_loader; [contradiction | simpl; lia]. }
  induction k as [|k IH]; intros j Hj.
  - exists []. repeat split. intros i Hi. lia.
  - assert (Hstep : exists x j', (j' <= length val_loader)%nat /\
              Validation.fetch val_loader (drop j val_loader)
              = Some (x, drop j' val_loader) /\
              val_loader !! (j `mod` length val_loader)%nat = Some x /\
              forall i, ((j + S i) `mod` length val_loader
                         = (j' + i) `mod` length val_loader)%nat).
    { destruct (decide (j < length val_loader)%nat) as [Hlt|Hge].
      - destruct (lookup_lt_is_Some_2 val_loader j Hlt) as [x Hx].
        exists x, (S j). split; [lia|]. split; [|split].
        + unfold Validation.fetch, Validation.next.
          rewrite (drop_S _ _ _ Hx). reflexivity.
        + rewrite Nat.mod_small by exact Hlt. exact Hx.
        + intros i. f_equal. lia.
      - assert (j = length val_loader) as -> by lia.
        destruct val_loader as [|x l] eqn:Hl; [contradiction|].
        exists x, 1%nat. split; [simpl; lia|]. split; [|split].
        + unfold Validation.fetch. rewrite drop_all. reflexivity.
        + rewrite Nat.Div0.mod_same. reflexivity.
        + intros i.
          replace (length (x :: l) + S i)%nat
            with ((1 + i) + 1 * length (x :: l))%nat by lia.
          apply Nat.Div0.mod_add. }
    destruct Hstep as (x & j' & Hj' & Hfetch & Hx & Hmod).
    destruct (IH j' Hj') as (bs & Hbs & Hlen & Hk).
    exists (x :: bs). split; [|split].
    + simpl. rewrite Hfetch. simpl. rewrite Hbs. reflexivity.
    + simpl. lia.
    + intros [|i] Hi.
      * rewrite Nat.add_0_r. simpl. symmetry. exact Hx.
      * simpl. rewrite Hk by lia. rewrite Hmod. reflexivity.
Qed.

(** X11.  The validation stream is cyclic.  From the iterator [__init__]
    creates, [k] calls of [val] in a row never meet [StopIteration] when the
    loader has a batch at all, and the [i]-th of them works on batch
    [i mod n] of the [n] batches of the loader. *)
Theorem val_cycles (val_loader : list batch) (k : nat) :
  val_loader <> [] ->
  exists bs,
    Validation.fetches val_loader k val_loader = Some bs /\
    length bs = k /\
    forall i, (i < k)%nat ->
      bs !! i = val_loader !! (i `mod` length val_loader)%nat.
Proof.
  intros Hne.
  destruct (fetches_from val_loader k Hne 0%nat) as (bs & Hbs & Hlen & Hk); [lia|].
  exists bs. split; [exact Hbs|]. split; [exact Hlen|]. exact Hk.
Qed.

(** With a loader that has no batch, the restart meets [StopIteration]
    again, and this one is not caught. *)
Lemma val_empty_loader (k : nat) :
  Validation.fetches (batch:=batch) [] (S k) [] = None.
Proof. reflexivity. Qed.

End ValidationFacts.

Lemma val_cycles_witness :
  exists bs,
    Validation.fetches [10; 20; 30] 7 [10; 20; 30] = Some bs /\
    length bs = 7%nat /\
    forall i, (i < 7)%nat ->
      bs !! i = [10; 20; 30] !! (i `mod` length [10; 20; 30])%nat.
Proof. apply (val_cycles [10; 20; 30] 7). discriminate. Defined.

Lemma val_cycles_example :
  Validation.fetches [10; 20; 30] 7 [10; 20; 30]
  = Some [10; 20; 30; 10; 20; 30; 10].
Proof. reflexivity. Qed.

(** ** [train] and [run_epoch]: the counters *)

Section ScheduleFacts.
Import Schedule.
Context {state batch : Type}.
Variable set_train : state -> result state.
Variable process_batch : state -> batch -> result state.
Variable log_and_val : trainer (state:=state) -> Z -> batch -> result state.
Variable lr_scheduler_step : state -> state.
Variable save_model : trainer (state:=state) -> result state.
Variable opt : options.

Abbreviation run_batch := (run_batch process_batch log_and_val opt).
Abbreviation run_epoch :=
  (run_epoch set_train process_batch log_and_val lr_scheduler_step opt).
Abbreviation run_and_save :=
  (run_and_save set_train process_batch log_and_val lr_scheduler_step
     save_model opt).
Abbreviation train :=
  (train set_train process_batch log_and_val lr_scheduler_step save_model opt).

Lemma py_mod_Ok (a b r : Z) : py_mod a b = Ok r -> b <> 0.
Proof. unfold py_mod. case_bool_decide; [discriminate | auto]. Qed.

Lemma run_batch_Ok (self self' : trainer) item :
  run_batch self item = Ok self' ->
  epoch self' = epoch self /\ step self' = step self + 1 /\
  log_frequency opt <> 0.
Proof.
  unfold Schedule.run_batch. intros H.
  apply rbind_Ok in H as (s & _ & H). apply rbind_Ok in H as (r & Hr & H).
  apply rbind_Ok in H as (s' & _ & [= <-]). simpl.
  apply py_mod_Ok in Hr. auto.
Qed.

Lemma run_batches_Ok (items : list (nat * batch)) :
  forall self self', for_each run_batch items self = Ok self' ->
  epoch self' = epoch self /\
  step self' = step self + Z.of_nat (length items) /\
  (items <> [] -> log_frequency opt <> 0).
Proof.
  induction items as [|item items IH]; intros self self' H.
  - injection H as <-. simpl. split; [reflexivity|]. split; [lia|]. congruence.
  - simpl in H. apply rbind_Ok in H as (self1 & H1 & H).
    apply run_batch_Ok in H1 as (He & Hs & Hlog).
    apply IH in H as (He' & Hs' & _). simpl length.
    split; [congruence|]. split; [lia|]. auto.
Qed.

Lemma run_epoch_Ok (train_loader : list batch) (self self' : trainer) :
  run_epoch train_loader self = Ok self' ->
  epoch self' = epoch self /\
  step self' = step self + Z.of_nat (length train_loader) /\
  (train_loader <> [] -> log_frequency opt <> 0).
Proof.
  unfold Schedule.run_epoch. intros H.
  apply rbind_Ok in H as (s & _ & H). apply rbind_Ok in H as (self1 & H1 & [= <-]).
  apply run_batches_Ok in H1 as (He & Hs & Hlog). simpl in *.
  unfold enumerate in Hs, Hlog.
  rewrite length_zip, length_seq, Nat.min_id in Hs.
  split; [exact He|]. split; [exact Hs|].
  intros Hne. apply Hlog. destruct train_loader; [contradiction | discriminate].
Qed.

Lemma run_and_save_Ok (train_loader : Z -> list batch) (self self' : trainer) e :
  run_and_save train_loader self e = Ok self' ->
  epoch self' = e /\
  step self' = step self + Z.of_nat (length (train_loader e)) /\
  save_frequency opt <> 0 /\
  (train_loader e <> [] -> log_frequency opt <> 0).
Proof.
  unfold Schedule.run_and_save. intros H.
  apply rbind_Ok in H as (self1 & H1 & H).
  apply run_epoch_Ok in H1 as (He & Hs & Hlog). simpl in *.
  apply rbind_Ok in H as (r & Hr & H). apply py_mod_Ok in Hr.
  case_bool_decide.
  - apply rbind_Ok in H as (s & _ & [= <-]). simpl. auto.
  - injection H as <-. auto.
Qed.

Lemma train_loop_Ok (train_loader : Z -> list batch) (n : nat) es :
  (forall e, length (train_loader e) = n) ->
  forall self self', for_each (run_and_save train_loader) es self = Ok self' ->
  step self' = step self + Z.of_nat (length es) * Z.of_nat n /\
  epoch self' = default (epoch self) (last es).
Proof.
  intros Hlen. induction es as [|e es IH]; intros self self' H.
  - injection H as <-. simpl. split; [lia | reflexivity].
  - simpl in H. apply rbind_Ok in H as (self1 & H1 & H).
    apply run_and_save_Ok in H1 as (He & Hs & _).
    apply IH in H as (Hs' & He'). rewrite Hlen in Hs. split.
    + simpl length. lia.
    + rewrite He'. destruct es as [|e' es]; [simpl; congruence|].
      rewrite last_cons_cons.
      destruct (last (e' :: es)) eqn:Hlast; [reflexivity|].
      apply last_None in Hlast. discriminate.
Qed.

(** X12.  When [train] returns, [self.step] is the number of epochs times
    the number of batches of the loader (the value [__init__] stores as
    [num_total_steps] for a loader that drops the last incomplete batch),
    and [self.epoch] is the index of the last epoch. *)
Theorem train_counts (train_loader : Z -> list batch) (n : nat) s (self : trainer) :
  (forall e, length (train_loader e) = n) ->
  train train_loader s = Ok self ->
  step self = Z.max 0 (num_epochs opt) * Z.of_nat n /\
  epoch self = Z.max 0 (num_epochs opt - 1).
Proof.
  intros Hlen H. unfold Schedule.train in H.
  apply (train_loop_Ok train_loader n _ Hlen) in H as (Hs & He). simpl in *.
  unfold range in *. rewrite length_fmap, length_seq in Hs.
  split; [lia|]. rewrite He.
  destruct (Z.to_nat (num_epochs opt)) as [|k] eqn:Hk.
  - simpl. lia.
  - rewrite seq_S, fmap_app.
    change (Z.of_nat <$> [(0 + k)%nat]) with [Z.of_nat (0 + k)].
    rewrite last_snoc. simpl. lia.
Qed.

(** X13.  A frequency of zero stops the run.  If [train] returns after at
    least one epoch, [save_frequency] is not 0, and [log_frequency] is not 0
    unless the first epoch had no batch: with [save_frequency] 0 the first
    epoch is trained and then [(epoch + 1) % 0] raises before anything is
    saved. *)
Theorem train_needs_frequencies (train_loader : Z -> list batch) s (self : trainer) :
  train train_loader s = Ok self ->
  0 < num_epochs opt ->
  save_frequency opt <> 0 /\
  (train_loader 0 <> [] -> log_frequency opt <> 0).
Proof.
  intros H Hpos. unfold Schedule.train, range in H.
  destruct (Z.to_nat (num_epochs opt)) as [|k] eqn:Hk; [lia|].
  simpl in H. apply rbind_Ok in H as (self1 & H1 & _).
  apply run_and_save_Ok in H1 as (_ & _ & Hsave & Hlog). auto.
Qed.

(** The exception, when the first epoch itself goes through. *)
Lemma train_save_frequency_zero (train_loader : Z -> list batch) s self1 :
  save_frequency opt = 0 ->
  0 < num_epochs opt ->
  run_epoch (train_loader 0) {| epoch := 0; step := 0; rest := s |} = Ok self1 ->
  train train_loader s = Raise ZeroDivisionError.
Proof.
  intros Hsave Hpos H1. unfold Schedule.train, range.
  destruct (Z.to_nat (num_epochs opt)) as [|k] eqn:Hk; [lia|].
  change (Z.of_nat <$> seq 0 (S k)) with (0 :: (Z.of_nat <$> seq 1 k)).
  cbn [for_each]. unfold Schedule.run_and_save at 1.
  cbn [epoch step rest]. rewrite H1. cbn [rbind].
  unfold py_mod. rewrite bool_decide_eq_true_2 by exact Hsave. reflexivity.
Qed.

End ScheduleFacts.

(** Four epochs of three batches, saving every second epoch. *)
Lemma train_counts_witness :
  Schedule.step ScheduleExample.trained
  = Z.max 0 (Schedule.num_epochs (ScheduleExample.opt 2)) * Z.of_nat 3 /\
  Schedule.epoch ScheduleExample.trained
  = Z.max 0 (Schedule.num_epochs (ScheduleExample.opt 2) - 1).
Proof.
  apply (train_counts
           Ok (fun s _ => Ok s) (fun self _ _ => Ok (Schedule.rest self)) (fun s => s)
           ScheduleExample.save_model
           (ScheduleExample.opt 2) ScheduleExample.train_loader 3 []).
  - reflexivity.
  - vm_compute. reflexivity.
Defined.

Lemma train_needs_frequencies_witness :
  Schedule.save_frequency (ScheduleExample.opt 2) <> 0 /\
  (ScheduleExample.train_loader 0 <> [] ->
   Schedule.log_frequency (ScheduleExample.opt 2) <> 0).
Proof.
  apply (train_needs_frequencies
           Ok (fun s _ => Ok s) (fun self _ _ => Ok (Schedule.rest self)) (fun s => s)
           ScheduleExample.save_model
           (ScheduleExample.opt 2) ScheduleExample.train_loader []
           ScheduleExample.trained).
  - vm_compute. reflexivity.
  - reflexivity.
Defined.

Lemma train_example :
  ScheduleExample.train 2 = Ok ScheduleExample.trained /\
  ScheduleExample.train 0 = Raise ZeroDivisionError.
Proof. split; vm_compute; reflexivity. Qed.

(** ** [generate_images_pred] *)

Section WarpingFacts.
Import Torch Warping.
Context {value : Type}.
Variable str : Poses.binding (value:=value) -> string.
Variable interpolate : tensor -> result tensor.
Variable disp_to_depth : tensor -> result tensor.
Variable backproject_depth : N -> tensor -> tensor -> result tensor.
Variable project_3d : N -> tensor -> tensor -> tensor -> result tensor.
Variable grid_sample : tensor -> tensor -> result tensor.
Variable posecnn_pose :
  tensor -> tensor -> tensor -> Poses.frame_id -> result tensor.
Variable G : Poses.globals (value:=value).
Variable opt : options.
Variable inputs : batch.

Abbreviation warp_frame :=
  (warp_frame str backproject_depth project_3d grid_sample posecnn_pose G opt inputs).
Abbreviation warp_scale :=
  (warp_scale str interpolate disp_to_depth backproject_depth project_3d
     grid_sample posecnn_pose G opt inputs).
Abbreviation generate_images_pred :=
  (generate_images_pred str interpolate disp_to_depth backproject_depth
     project_3d grid_sample posecnn_pose G opt inputs).

Lemma key_pose_untouched (f : Poses.frame_id) : untouched (key_pose f).
Proof. intros s g. repeat split; discriminate. Qed.

(** One round of the inner loop. *)
Lemma warp_frame_Ok (scale : N) (depth : tensor) outputs f outputs' :
  warp_frame scale depth outputs f = Ok outputs' ->
  (0%N ∈ scales opt /\
   (pose_model_type opt = "posecnn" -> is_Some (G !! "f_i")) /\
   (f = Poses.Stereo -> is_Some (stereo_T inputs)) /\
   (f <> Poses.Stereo -> is_Some (outputs !! key_pose f)) /\
   is_Some (items inputs !! ("color", f, 0))) /\
  exists pix warped,
    outputs' = <[Losses.key_color f scale := warped]>
                 (<[key_sample f scale := pix]> outputs).
Proof.
  unfold Warping.warp_frame. intros H.
  apply rbind_Ok in H as (T & HT & H).
  apply rbind_Ok in H as (T' & HT' & H).
  apply rbind_Ok in H as (bp & Hbp & H).
  apply rbind_Ok in H as (inv_K & _ & H).
  apply rbind_Ok in H as (cam & _ & H).
  apply rbind_Ok in H as (pr & _ & H).
  apply rbind_Ok in H as (K & _ & H).
  apply rbind_Ok in H as (pix & _ & H).
  apply rbind_Ok in H as (color & Hcolor & H).
  apply rbind_Ok in H as (sample & _ & H).
  apply rbind_Ok in H as (warped & _ & [= <-]).
  split; [|eauto]. repeat split.
  - unfold layer_at in Hbp. case_bool_decide; [assumption | discriminate].
  - intros Hcnn. rewrite bool_decide_eq_true_2 in HT' by exact Hcnn.
    apply rbind_Ok in HT' as (b & Hb & _). unfold Poses.load_global in Hb.
    destruct (G !! "f_i"); [eauto | discriminate].
  - intros ->. unfold pose_of in HT.
    rewrite bool_decide_eq_true_2 in HT by reflexivity.
    destruct (stereo_T inputs); [eauto | discriminate].
  - intros Hf. unfold pose_of in HT.
    rewrite bool_decide_eq_false_2 in HT by exact Hf.
    apply getitem_Ok in HT. eauto.
  - unfold Poses.input_item in Hcolor. simpl in Hcolor.
    destruct (items inputs !! ("color", f, 0)); [eauto | discriminate].
Qed.

(** The inner loop: what it needs, what it writes, what it keeps. *)
Lemma warp_frames_Ok (scale : N) (depth : tensor) fs :
  forall outputs outputs',
  for_each (warp_frame scale depth) fs outputs = Ok outputs' ->
  (forall f, f ∈ fs ->
     (0%N ∈ scales opt /\
      (pose_model_type opt = "posecnn" -> is_Some (G !! "f_i")) /\
      (f = Poses.Stereo -> is_Some (stereo_T inputs)) /\
      (f <> Poses.Stereo -> is_Some (outputs !! key_pose f)) /\
      is_Some (items inputs !! ("color", f, 0))) /\
     is_Some (outputs' !! key_sample f scale) /\
     is_Some (outputs' !! Losses.key_color f scale)) /\
  (forall k, is_Some (outputs !! k) -> is_Some (outputs' !! k)) /\
  (forall k, untouched k -> outputs' !! k = outputs !! k).
Proof.
  induction fs as [|g fs IH]; intros outputs outputs' H.
  - injection H as <-. split; [|auto].
    intros f Hf. apply not_elem_of_nil in Hf. contradiction.
  - simpl in H. apply rbind_Ok in H as (o1 & H1 & H).
    apply warp_frame_Ok in H1 as (Hneeds & pix & warped & ->).
    destruct (IH _ _ H) as (Hin & Hmono & Hkeep).
    assert (Hstep : forall k, is_Some (outputs !! k) ->
              is_Some (<[Losses.key_color g scale := warped]>
                         (<[key_sample g scale := pix]> outputs) !! k)).
    { intros k Hk. rewrite !lookup_insert.
      repeat case_decide; eauto. }
    assert (Hstep' : forall k, untouched k ->
              <[Losses.key_color g scale := warped]>
                (<[key_sample g scale := pix]> outputs) !! k = outputs !! k).
    { intros k Hk. destruct (Hk scale g) as (_ & Hs & Hc).
      rewrite !lookup_insert_ne by congruence. reflexivity. }
    split; [|split].
    + intros f Hf. apply elem_of_cons in Hf as [->|Hf].
      * split; [exact Hneeds|]. split; apply Hmono.
        -- rewrite lookup_insert_ne, lookup_insert_eq by discriminate. eauto.
        -- rewrite lookup_insert_eq. eauto.
      * destruct (Hin f Hf) as ((H0 & Hcnn & Hst & Hpose & Hcol) & Hw).
        split; [|exact Hw]. repeat split; auto.
        intros Hne. specialize (Hpose Hne).
        rewrite (Hstep' _ (key_pose_untouched f)) in Hpose. exact Hpose.
    + intros k Hk. apply Hmono, Hstep, Hk.
    + intros k Hk. rewrite (Hkeep k Hk). apply Hstep', Hk.
Qed.

Lemma warp_scale_Ok (scale : N) outputs outputs' :
  warp_scale outputs scale = Ok outputs' ->
  is_Some (outputs !! Losses.key_disp scale) /\
  is_Some (outputs' !! key_depth scale) /\
  (forall f, f ∈ tail (frame_ids opt) ->
     (0%N ∈ scales opt /\
      (pose_model_type opt = "posecnn" -> is_Some (G !! "f_i")) /\
      (f = Poses.Stereo -> is_Some (stereo_T inputs)) /\
      (f <> Poses.Stereo -> is_Some (outputs !! key_pose f)) /\
      is_Some (items inputs !! ("color", f, 0))) /\
     is_Some (outputs' !! key_sample f scale) /\
     is_Some (outputs' !! Losses.key_color f scale)) /\
  (forall k, is_Some (outputs !! k) -> is_Some (outputs' !! k)) /\
  (forall k, untouched k -> outputs' !! k = outputs !! k).
Proof.
  unfold Warping.warp_scale. intros H.
  apply rbind_Ok in H as (depth & Hd & H).
  apply warp_frames_Ok in H as (Hin & Hmono & Hkeep).
  assert (Hstep : forall k, untouched k ->
            <[key_depth scale := depth]> outputs !! k = outputs !! k).
  { intros k Hk. destruct (Hk scale Poses.Stereo) as (Hdepth & _ & _).
    rewrite lookup_insert_ne by congruence. reflexivity. }
  split; [|split; [|split; [|split]]].
  - unfold depth_of in Hd. apply rbind_Ok in Hd as (disp & Hdisp & _).
    apply getitem_Ok in Hdisp. eauto.
  - apply Hmono. rewrite lookup_insert_eq. eauto.
  - intros f Hf. destruct (Hin f Hf) as ((H0 & Hcnn & Hst & Hpose & Hcol) & Hw).
    split; [|exact Hw]. repeat split; auto.
    intros Hne. specialize (Hpose Hne).
    rewrite (Hstep _ (key_pose_untouched f)) in Hpose. exact Hpose.
  - intros k Hk. apply Hmono. rewrite lookup_insert.
    case_decide; eauto.
  - intros k Hk. rewrite (Hkeep k Hk). apply Hstep, Hk.
Qed.

Lemma warp_scales_Ok ss :
  forall outputs outputs',
  for_each warp_scale ss outputs = Ok outputs' ->
  (forall s, s ∈ ss ->
     is_Some (outputs' !! key_depth s) /\
     forall f, f ∈ tail (frame_ids opt) ->
       (0%N ∈ scales opt /\
        (pose_model_type opt = "posecnn" -> is_Some (G !! "f_i")) /\
        (f = Poses.Stereo -> is_Some (stereo_T inputs)) /\
        (f <> Poses.Stereo -> is_Some (outputs !! key_pose f)) /\
        is_Some (items inputs !! ("color", f, 0))) /\
       is_Some (outputs' !! key_sample f s) /\
       is_Some (outputs' !! Losses.key_color f s)) /\
  (forall k, is_Some (outputs !! k) -> is_Some (outputs' !! k)) /\
  (forall k, untouched k -> outputs' !! k = outputs !! k).
Proof.
  induction ss as [|x ss IH]; intros outputs outputs' H.
  - injection H as <-. split; [|auto].
    intros s Hs. apply not_elem_of_nil in Hs. contradiction.
  - simpl in H. apply rbind_Ok in H as (o1 & H1 & H).
    apply warp_scale_Ok in H1 as (_ & Hdepth & Hfs & Hmono1 & Hkeep1).
    destruct (IH _ _ H) as (Hin & Hmono & Hkeep).
    split; [|split].
    + intros s Hs. apply elem_of_cons in Hs as [->|Hs].
      * split; [apply Hmono, Hdepth|].
        intros f Hf. destruct (Hfs f Hf) as (Hneeds & Hsample & Hcolor).
        split; [exact Hneeds|]. split; apply Hmono; assumption.
      * destruct (Hin s Hs) as (Hd & Hf). split; [exact Hd|].
        intros f Hf'. destruct (Hf f Hf') as ((H0 & Hcnn & Hst & Hpose & Hcol) & Hw).
        split; [|exact Hw]. repeat split; auto.
        intros Hne. specialize (Hpose Hne).
        rewrite (Hkeep1 _ (key_pose_untouched f)) in Hpose. exact Hpose.
    + intros k Hk. apply Hmono, Hmono1, Hk.
    + intros k Hk. rewrite (Hkeep k Hk). apply Hkeep1, Hk.
Qed.

(** X14.  When [generate_images_pred] returns, [outputs] holds a depth for
    every scale and, for every scale and neighbour frame, the sampling grid
    and the warped image [color_<frame>_<scale>] that [compute_losses] reads;
    every key that was there is still there, and every key other than these
    three kinds holds what it held. *)
Theorem generate_images_pred_writes (outputs outputs' : gmap string tensor) :
  generate_images_pred outputs = Ok outputs' ->
  (forall s, s ∈ scales opt ->
     is_Some (outputs' !! key_depth s) /\
     forall f, f ∈ tail (frame_ids opt) ->
       is_Some (outputs' !! key_sample f s) /\
       is_Some (outputs' !! Losses.key_color f s)) /\
  (forall k, is_Some (outputs !! k) -> is_Some (outputs' !! k)) /\
  (forall k,
     (forall s f, k <> key_depth s /\ k <> key_sample f s /\
                  k <> Losses.key_color f s) ->
     outputs' !! k = outputs !! k).
Proof.
  intros H. apply warp_scales_Ok in H as (Hin & Hmono & Hkeep).
  split; [|split; [exact Hmono | exact Hkeep]].
  intros s Hs. destruct (Hin s Hs) as (Hd & Hf). split; [exact Hd|].
  intros f Hf'. exact (proj2 (Hf f Hf')).
Qed.

(** X15.  What [generate_images_pred] needs in order to return, when there
    is a scale and a neighbour frame to work on: scale 0 among [opt.scales]
    (the layers are always taken at [source_scale = 0]); for the
    ["posecnn"] variant a module-level binding of [f_i], a name the method
    reads and never assigns; [inputs["stereo_T"]] for a stereo neighbour;
    and, already in the [outputs] it is given, a pose [cam_T_cam_0_<f>] for
    every other neighbour, together with its colour image in [inputs]. *)
Theorem generate_images_pred_requires (outputs outputs' : gmap string tensor) :
  generate_images_pred outputs = Ok outputs' ->
  scales opt <> [] ->
  forall f, f ∈ tail (frame_ids opt) ->
    0%N ∈ scales opt /\
    (pose_model_type opt = "posecnn" -> is_Some (G !! "f_i")) /\
    (f = Poses.Stereo -> is_Some (stereo_T inputs)) /\
    (f <> Poses.Stereo -> is_Some (outputs !! key_pose f)) /\
    is_Some (items inputs !! ("color", f, 0)).
Proof.
  intros H Hne f Hf. apply warp_scales_Ok in H as (Hin & _ & _).
  destruct (scales opt) as [|s ss] eqn:Hs; [contradiction|].
  destruct (Hin s (list_elem_of_here _ _)) as (_ & Hfs).
  exact (proj1 (Hfs f Hf)).
Qed.

End WarpingFacts.

(** X14 on the one-pixel batch. *)
Lemma generate_images_pred_writes_witness :
  (forall s, s ∈ Warping.scales (WarpingExample.opt "separate_resnet") ->
     is_Some (WarpingExample.warped !! Warping.key_depth s) /\
     forall f, f ∈ tail (Warping.frame_ids (WarpingExample.opt "separate_resnet")) ->
       is_Some (WarpingExample.warped !! Warping.key_sample f s) /\
       is_Some (WarpingExample.warped !! Losses.key_color f s)) /\
  (forall k, is_Some (WarpingExample.outputs !! k) ->
     is_Some (WarpingExample.warped !! k)) /\
  (forall k,
     (forall s f, k <> Warping.key_depth s /\ k <> Warping.key_sample f s /\
                  k <> Losses.key_color f s) ->
     WarpingExample.warped !! k = WarpingExample.outputs !! k).
Proof.
  apply (generate_images_pred_writes (value:=unit) (fun _ => "0")
           Ok Ok (fun _ depth _ => Ok depth) (fun _ points _ _ => Ok points)
           (fun color _ => Ok color) (fun _ _ depth _ => Ok depth)
           ∅ (WarpingExample.opt "separate_resnet") WarpingExample.inputs).
  vm_compute. reflexivity.
Defined.

(** X15 on the one-pixel batch, at the neighbour frame [-1]. *)
Lemma generate_images_pred_requires_witness :
  0%N ∈ Warping.scales (WarpingExample.opt "separate_resnet") /\
  (Warping.pose_model_type (WarpingExample.opt "separate_resnet") = "posecnn" ->
   is_Some ((∅ : Poses.globals (value:=unit)) !! "f_i")) /\
  (Poses.Frame (-1) = Poses.Stereo ->
   is_Some (Warping.stereo_T WarpingExample.inputs)) /\
  (Poses.Frame (-1) <> Poses.Stereo ->
   is_Some (WarpingExample.outputs !! Warping.key_pose (Poses.Frame (-1)))) /\
  is_Some (Warping.items WarpingExample.inputs !! ("color", Poses.Frame (-1), 0)).
Proof.
  apply (generate_images_pred_requires (value:=unit) (fun _ => "0")
           Ok Ok (fun _ depth _ => Ok depth) (fun _ points _ _ => Ok points)
           (fun color _ => Ok color) (fun _ _ depth _ => Ok depth)
           ∅ (WarpingExample.opt "separate_resnet") WarpingExample.inputs
           WarpingExample.outputs WarpingExample.warped).
  - vm_compute. reflexivity.
  - discriminate.
  - simpl. apply list_elem_of_here.
Defined.

(** The two variants on the one-pixel batch: with ["posecnn"] the first
    neighbour frame stops at the read of [f_i]. *)
Lemma generate_images_pred_example :
  WarpingExample.generate_images_pred "separate_resnet" = Ok WarpingExample.warped /\
  WarpingExample.generate_images_pred "posecnn" = Raise (NameError "f_i").
Proof. split; vm_compute; reflexivity. Qed.

(** ** [pose_by_ransac]: counting *)

Lemma py_slice_length {A} (start stop : nat) (l : list A) :
  length (Ransac.py_slice start stop l) = (length l - stop - start)%nat.
Proof. unfold Ransac.py_slice. rewrite length_take, length_drop. lia. Qed.

Lemma concat_length_const {A} (c : nat) (ls : list (list A)) :
  Forall (fun l => length l = c) ls -> length (concat ls) = (length ls * c)%nat.
Proof.
  induction 1 as [|l ls Hl _ IH]; [reflexivity|].
  simpl. rewrite length_app, IH, Hl. reflexivity.
Qed.

(** X16.  The dense fallback samples [(H - 20) * (W - 20)] points of an
    [H x W] coordinate field, and none at all when the field is not more
    than 20 rows high or 20 columns wide. *)
Theorem trim_plane_length {scalar} (p : Ransac.plane scalar) (w : nat) :
  Forall (fun row => length row = w) p ->
  length (Ransac.trim_plane p) = ((length p - 20) * (w - 20))%nat.
Proof.
  intros Hrows. unfold Ransac.trim_plane, Ransac.margin.
  rewrite (concat_length_const (w - 20)).
  - rewrite length_map, py_slice_length. f_equal. lia.
  - apply Forall_forall. intros l Hl.
    apply list_elem_of_In, in_map_iff in Hl as (row & <- & Hrow).
    apply list_elem_of_In, list_elem_of_lookup in Hrow as (i & Hi).
    rewrite py_slice_lookup in Hi. case_decide; [|discriminate].
    rewrite py_slice_length.
    rewrite Forall_forall in Hrows.
    rewrite (Hrows row) by (eapply list_elem_of_lookup_2; exact Hi). lia.
Qed.

Section RansacCounts.
Import Ransac.
Context {image descriptor point scalar matrix pose flow : Type}.
Variable min_matches : Z.
Variable SIFT_POSE SAMPLE_SP : bool.
Variable sift surf : image -> list point * descriptor.
Variable flann_knnMatch : descriptor -> descriptor -> result (list (list dmatch)).
Variable to_cv : option nat -> option nat -> image -> image.
Variable flow2coord : flow -> field scalar * field scalar.
Variable sift_coords : list point -> result (coords scalar).
Variable sample_sp gather : field scalar -> list point -> result (coords scalar).
Variable project : matrix -> coords scalar -> list (scalar * scalar).
Variable compute_P_matrix_ransac :
  list (scalar * scalar) -> list (scalar * scalar) -> matrix -> result (pose * pose).

(** The three lists [good], [pts1] and [pts2] grow together. *)
Lemma collect_loop (keep : dmatch -> dmatch -> bool) (kp1 kp2 : list point) matches :
  forall acc r,
  for_each (fun acc e =>
      mn <- unpack_pair e ;;
      if keep mn.1 mn.2 then
        p1 <- list_item kp1 (queryIdx mn.1) ;;
        p2 <- list_item kp2 (trainIdx mn.1) ;;
        Ok (acc.1.1 ++ [mn.1], acc.1.2 ++ [p1], acc.2 ++ [p2])%list
      else Ok acc) matches acc = Ok r ->
  length acc.1.2 = length acc.1.1 -> length acc.2 = length acc.1.1 ->
  length r.1.2 = length r.1.1 /\ length r.2 = length r.1.1 /\
  (length r.1.1 <= length acc.1.1 + length matches)%nat /\
  ((forall m n, keep m n = true) ->
   length r.1.1 = (length acc.1.1 + length matches)%nat).
Proof.
  induction matches as [|e matches IH]; intros acc r H H1 H2.
  - injection H as <-. repeat split; auto; lia.
  - simpl in H. apply rbind_Ok in H as (acc1 & Hstep & H).
    apply rbind_Ok in Hstep as (mn & _ & Hstep).
    destruct (keep mn.1 mn.2) eqn:Hkeep.
    + apply rbind_Ok in Hstep as (p1 & _ & Hstep).
      apply rbind_Ok in Hstep as (p2 & _ & [= <-]).
      apply IH in H as (Ha & Hb & Hc & Hd); simpl;
        rewrite ?length_app; simpl; try lia.
      simpl in *. rewrite ?length_app in *. simpl in *.
      repeat split; auto; try lia.
      intros Hall. rewrite (Hd Hall). lia.
    + injection Hstep as <-.
      apply IH in H as (Ha & Hb & Hc & Hd); auto.
      repeat split; auto; simpl; try lia.
      intros Hall. rewrite Hall in Hkeep. discriminate.
Qed.

Lemma collect_lengths (keep : dmatch -> dmatch -> bool) (kp1 kp2 : list point)
    matches r :
  collect keep kp1 kp2 matches = Ok r ->
  length r.1.2 = length r.1.1 /\ length r.2 = length r.1.1 /\
  (length r.1.1 <= length matches)%nat /\
  ((forall m n, keep m n = true) -> length r.1.1 = length matches).
Proof.
  unfold collect. intros H.
  apply collect_loop in H as (Ha & Hb & Hc & Hd); auto.
Qed.

(** X17.  The matches of the ratio test are used only when there are at
    least [min_matches] of them; otherwise every candidate pair is used.
    When the body of [try] goes through, it appends two arrays of the same
    length, and this length is at least [min_matches] or the number of
    candidate pairs the matcher returned. *)
Theorem match_keypoints_count (kp1 kp2 : list point) (des1 des2 : descriptor)
    matches p1 p2 :
  flann_knnMatch des1 des2 = Ok matches ->
  match_keypoints min_matches flann_knnMatch kp1 kp2 des1 des2 = Ok (p1, p2) ->
  exists l1 l2, p1 = PtsArray l1 /\ p2 = PtsArray l2 /\
    length l1 = length l2 /\
    (min_matches <= Z.of_nat (length l1) \/ length l1 = length matches).
Proof.
  unfold match_keypoints. intros Hm H. rewrite Hm in H. simpl in H.
  apply rbind_Ok in H as (r & Hr & H).
  apply rbind_Ok in H as (r' & Hr' & [= <- <-]).
  exists r'.1.2, r'.2. split; [reflexivity|]. split; [reflexivity|].
  destruct (Z.of_nat (length r.1.1) <? min_matches) eqn:Hlt.
  - apply collect_lengths in Hr' as (Ha & Hb & _ & Hd).
    split; [congruence|]. right. rewrite Ha. apply Hd. reflexivity.
  - injection Hr' as <-. apply collect_lengths in Hr as (Ha & Hb & _).
    split; [congruence|]. left. apply Z.ltb_ge in Hlt. rewrite Ha. exact Hlt.
Qed.

(** X18.  The entries appended to [PTS1] and [PTS2] for an item always
    have the same length, whether the matching went through or not: the
    second half of the test at line 756 never decides. *)
Theorem match_item_same_length (ref_cv tar_cv : image) :
  len (match_item min_matches sift surf flann_knnMatch ref_cv tar_cv).1 =
  len (match_item min_matches sift surf flann_knnMatch ref_cv tar_cv).2.
Proof.
  unfold match_item.
  destruct (match_keypoints _ _ _ _ _ _) as [r|e] eqn:H; [|reflexivity].
  unfold match_keypoints in H.
  apply rbind_Ok in H as (matches & Hm & H).
  apply rbind_Ok in H as (r1 & Hr & H).
  apply rbind_Ok in H as (r' & Hr' & [= <-]). simpl.
  destruct (Z.of_nat (length r1.1.1) <? min_matches).
  - apply collect_lengths in Hr' as (Ha & Hb & _). congruence.
  - injection Hr' as <-. apply collect_lengths in Hr as (Ha & Hb & _). congruence.
Qed.

(** The first loop of [pose_by_ransac]: one entry per item. *)
Lemma pts_loop (ref target : list image) (h_side w_side : option nat) idx :
  forall acc PTS,
  for_each (fun acc b_cv =>
      r <- list_item ref b_cv ;;
      t <- list_item target b_cv ;;
      Ok (acc ++ [match_item min_matches sift surf flann_knnMatch
                    (to_cv h_side w_side r) (to_cv h_side w_side t)])%list)
    idx acc = Ok PTS ->
  length PTS = (length acc + length idx)%nat /\
  forall i, i ∈ idx -> (i < length ref)%nat /\ (i < length target)%nat.
Proof.
  induction idx as [|i idx IH]; intros acc PTS H.
  - injection H as <-. split; [simpl; lia|].
    intros i Hi. apply not_elem_of_nil in Hi. contradiction.
  - simpl in H. apply rbind_Ok in H as (acc1 & H1 & H).
    apply rbind_Ok in H1 as (r & Hr & H1).
    apply rbind_Ok in H1 as (t & Ht & [= <-]).
    apply IH in H as (Hlen & Hin). rewrite length_app in Hlen. simpl in *.
    split; [lia|]. intros j Hj. apply elem_of_cons in Hj as [->|Hj]; [|auto].
    unfold list_item in Hr, Ht.
    destruct (ref !! i) eqn:Hri; [|discriminate].
    destruct (target !! i) eqn:Hti; [|discriminate].
    split; eapply lookup_lt_Some; eassumption.
Qed.

(** The second loop: one row of each matrix per item. *)
Lemma estimate_loop (intrinsic_inv_gpu : list matrix)
    (PTS : list (pts * pts)) (coord : list (field scalar * field scalar)) idx :
  forall acc (PE : list pose * list pose),
  for_each (fun acc batch =>
      p <- list_item PTS batch ;;
      c <- list_item coord batch ;;
      EP <- estimate_item min_matches SIFT_POSE SAMPLE_SP sift_coords sample_sp
              gather project compute_P_matrix_ransac intrinsic_inv_gpu batch
              p.1 p.2 c.1 c.2 ;;
      Ok (acc.1 ++ [EP.2], acc.2 ++ [EP.1])%list)
    idx acc = Ok PE ->
  length PE.1 = (length acc.1 + length idx)%nat /\
  length PE.2 = (length acc.2 + length idx)%nat /\
  forall i, i ∈ idx -> (i < length intrinsic_inv_gpu)%nat.
Proof.
  induction idx as [|i idx IH]; intros acc PE H.
  - injection H as <-. split; [simpl; lia|]. split; [simpl; lia|].
    intros i Hi. apply not_elem_of_nil in Hi. contradiction.
  - simpl in H. apply rbind_Ok in H as (acc1 & H1 & H).
    apply rbind_Ok in H1 as (p & _ & H1).
    apply rbind_Ok in H1 as (c & _ & H1).
    apply rbind_Ok in H1 as (EP & HEP & [= <-]).
    apply IH in H as (Hl1 & Hl2 & Hin). simpl in *.
    rewrite length_app in Hl1, Hl2. simpl in *.
    split; [lia|]. split; [lia|].
    intros j Hj. apply elem_of_cons in Hj as [->|Hj]; [|auto].
    unfold estimate_item in HEP. apply rbind_Ok in HEP as (ab & _ & HEP).
    unfold run_ransac in HEP. apply rbind_Ok in HEP as (K & HK & _).
    unfold list_item in HK.
    destruct (intrinsic_inv_gpu !! i) eqn:Hi; [|discriminate].
    eapply lookup_lt_Some; eassumption.
Qed.

(** X19.  When [pose_by_ransac] returns, [P_mat] and [E_mat] have one row
    for each item of [flow_2D], and [ref], [target] and [intrinsic_inv_gpu]
    had at least as many items as [flow_2D]: a shorter one makes the call
    raise [IndexError]. *)
Theorem pose_by_ransac_lengths (flow_2D : list flow) (ref target : list image)
    (intrinsic_inv_gpu : list matrix) (h_side w_side : option nat)
    (P_mat E_mat : list pose) :
  pose_by_ransac min_matches SIFT_POSE SAMPLE_SP sift surf flann_knnMatch to_cv
    flow2coord sift_coords sample_sp gather project compute_P_matrix_ransac
    flow_2D ref target intrinsic_inv_gpu h_side w_side = Ok (P_mat, E_mat) ->
  length P_mat = length flow_2D /\ length E_mat = length flow_2D /\
  (length flow_2D <= length ref)%nat /\
  (length flow_2D <= length target)%nat /\
  (length flow_2D <= length intrinsic_inv_gpu)%nat.
Proof.
  unfold pose_by_ransac. intros H.
  apply rbind_Ok in H as (PTS & HPTS & H).
  case_bool_decide as Hlen; [|discriminate].
  apply pts_loop in HPTS as (_ & Hin).
  apply estimate_loop in H as (Hl1 & Hl2 & Hin'). simpl in *.
  rewrite length_seq in Hl1, Hl2.
  split; [exact Hl1|]. split; [exact Hl2|].
  destruct (length flow_2D) as [|b] eqn:Hb; [lia|].
  assert (Hlast : b ∈ seq 0 (S b)) by (apply elem_of_seq; lia).
  destruct (Hin b Hlast). specialize (Hin' b Hlast). lia.
Qed.

End RansacCounts.

Lemma grid_rows (f : Z -> Z -> Z) :
  Forall (fun row => length row = 32%nat) (RansacExample.grid f).
Proof.
  unfold RansacExample.grid. apply Forall_forall. intros row Hrow.
  apply list_elem_of_In, in_map_iff in Hrow as (y & <- & _).
  rewrite length_map, length_seq. reflexivity.
Qed.

(** X16 on a 32 by 32 field: 144 samples. *)
Lemma trim_plane_length_witness :
  length (Ransac.trim_plane (RansacExample.grid (fun x _ => x)))
  = ((length (RansacExample.grid (fun x _ => x)) - 20) * (32 - 20))%nat.
Proof. apply (trim_plane_length (RansacExample.grid (fun x _ => x)) 32), grid_rows. Defined.

(** X17 on the example images: the single candidate pair passes the ratio
    test, one match is fewer than eight, and the fallback to all candidate
    pairs yields the same single match. *)
Lemma match_keypoints_count_witness :
  exists l1 l2,
    Ransac.PtsArray [(5, 5)] = Ransac.PtsArray l1 /\
    Ransac.PtsArray [(5, 5)] = Ransac.PtsArray l2 /\
    length l1 = length l2 /\
    (RansacExample.min_matches <= Z.of_nat (length l1) \/
     length l1 = length
       [[ {| Ransac.distance := S754_zero false; Ransac.queryIdx := 0;
             Ransac.trainIdx := 0 |};
          {| Ransac.distance := RansacExample.one; Ransac.queryIdx := 0;
             Ransac.trainIdx := 0 |} ]]).
Proof.
  apply (match_keypoints_count RansacExample.min_matches RansacExample.flann_knnMatch
           [(5, 5)] [(5, 5)] true true).
  - reflexivity.
  - vm_compute. reflexivity.
Defined.

(** X19 on the example batch of two items. *)
Lemma pose_by_ransac_lengths_witness :
  exists P_mat E_mat,
    RansacExample.pose_by_ransac false [1%nat; 0%nat] [1%nat; 0%nat]
    = Ok (P_mat, E_mat) /\
    length P_mat = 2%nat /\ length E_mat = 2%nat.
Proof.
  assert (H : exists P_mat E_mat,
            RansacExample.pose_by_ransac false [1%nat; 0%nat] [1%nat; 0%nat]
            = Ok (P_mat, E_mat)) by (do 2 eexists; vm_compute; reflexivity).
  destruct H as (P_mat & E_mat & H). exists P_mat, E_mat. split; [exact H|].
  unfold RansacExample.pose_by_ransac in H.
  apply pose_by_ransac_lengths in H as (HP & HE & _). auto.
Defined.

(** ** [compute_reprojection_loss]: symmetry of the L1 term *)

(** The sign given to [binary_round_aux] only decides the sign of what it
    returns. *)
Lemma binary_round_aux_abs (m e : Z) (l : location) :
  SFabs (binary_round_aux F32.prec F32.emax true m e l)
  = SFabs (binary_round_aux F32.prec F32.emax false m e l).
Proof.
  unfold binary_round_aux.
  destruct (shr_fexp _ _ m e l) as [mrs' e'].
  destruct (shr_fexp _ _ _ e' loc_Exact) as [mrs'' e''].
  destruct (shr_m mrs''); try reflexivity.
  destruct (e'' <=? F32.emax - F32.prec); reflexivity.
Qed.

Lemma binary_round_abs (m : positive) (e : Z) :
  SFabs (binary_round F32.prec F32.emax true m e)
  = SFabs (binary_round F32.prec F32.emax false m e).
Proof.
  unfold binary_round.
  destruct (shl_align m e _) as [mz ez]. apply binary_round_aux_abs.
Qed.

Lemma binary_normalize_abs (m e : Z) :
  SFabs (binary_normalize F32.prec F32.emax (- m) e false)
  = SFabs (binary_normalize F32.prec F32.emax m e false).
Proof.
  unfold binary_normalize. destruct m as [|p|p]; simpl; try reflexivity.
  - apply binary_round_abs.
  - symmetry. apply binary_round_abs.
Qed.

(** [|x - y| = |y - x|], also for zeros, infinities and NaN. *)
Lemma f32_abs_sub_comm (x y : spec_float) :
  F32.abs (F32.sub x y) = F32.abs (F32.sub y x).
Proof.
  unfold F32.abs, F32.sub, SFsub.
  destruct x as [sx|sx| |sx mx ex], y as [sy|sy| |sy my ey]; try reflexivity.
  - destruct sx, sy; reflexivity.
  - destruct sx, sy; reflexivity.
  - rewrite (Z.min_comm ey ex).
    set (a := cond_Zopp sx _). set (b := cond_Zopp sy _).
    replace (b - a) with (- (a - b)) by lia.
    symmetry. apply binary_normalize_abs.
Qed.

Lemma mapM_swap {A B C D} (f : A -> result C) (g : B -> result C) (h : C -> D)
    (xs : list A) (ys : list B) :
  Forall2 (fun x y => rbind (f x) (fun c => Ok (h c)) = rbind (g y) (fun c => Ok (h c)))
    xs ys ->
  rbind (Torch.mapM f xs) (fun l => Ok (map h l))
  = rbind (Torch.mapM g ys) (fun l => Ok (map h l)).
Proof.
  induction 1 as [|x y xs ys Hxy _ IH]; [reflexivity|]. simpl.
  destruct (f x) as [c|e], (g y) as [c'|e']; simpl in Hxy; try discriminate.
  - injection Hxy as Hxy. simpl.
    destruct (Torch.mapM f xs) as [l|e], (Torch.mapM g ys) as [l'|e'];
      simpl in *; try discriminate.
    + injection IH as IH. rewrite Hxy, IH. reflexivity.
    + injection IH as ->. reflexivity.
  - injection Hxy as ->. reflexivity.
Qed.

Lemma Forall2_zip_swap {A B} (P : A * B -> B * A -> Prop) (xs : list A) (ys : list B) :
  (forall x y, x ∈ xs -> y ∈ ys -> P (x, y) (y, x)) ->
  Forall2 P (zip xs ys) (zip ys xs).
Proof.
  revert ys. induction xs as [|x xs IH]; intros ys H.
  { destruct ys; constructor. }
  destruct ys as [|y ys]; [constructor|]. simpl. constructor.
  - apply H; apply list_elem_of_here.
  - apply IH. intros x' y' Hx Hy. apply H; apply list_elem_of_further; assumption.
Qed.

Lemma Forall2_diag {A} (P : A -> A -> Prop) (xs : list A) :
  (forall x, x ∈ xs -> P x x) -> Forall2 P xs xs.
Proof.
  induction xs as [|x xs IH]; intros H; constructor.
  - apply H, list_elem_of_here.
  - apply IH. intros y Hy. apply H, list_elem_of_further, Hy.
Qed.

(** One dimension of broadcasting, with the operands exchanged. *)
Lemma broadcast2_swap {A B C D} (f : A -> B -> result C) (g : B -> A -> result C)
    (h : C -> D) (xs : list A) (ys : list B) :
  (forall x y, x ∈ xs -> y ∈ ys ->
     rbind (f x y) (fun c => Ok (h c)) = rbind (g y x) (fun c => Ok (h c))) ->
  rbind (Torch.broadcast2 f xs ys) (fun l => Ok (map h l))
  = rbind (Torch.broadcast2 g ys xs) (fun l => Ok (map h l)).
Proof.
  intros H. unfold Torch.broadcast2.
  destruct (decide (length xs = length ys)) as [Hlen|Hlen].
  - rewrite !bool_decide_eq_true_2 by congruence.
    apply mapM_swap, Forall2_zip_swap. intros x y Hx Hy. apply H; assumption.
  - rewrite !bool_decide_eq_false_2 by congruence.
    destruct xs as [|x [|x' xs]], ys as [|y [|y' ys]];
      try reflexivity; try (exfalso; apply Hlen; reflexivity).
    + apply mapM_swap, Forall2_diag. intros b Hb. apply H; [apply list_elem_of_here | exact Hb].
    + apply mapM_swap, Forall2_diag. intros a Ha. apply H; [exact Ha | apply list_elem_of_here].
Qed.

Lemma tabs_tsub_comm (a b : Torch.tensor) :
  rbind (Torch.tsub a b) (fun d => Ok (Torch.tabs d))
  = rbind (Torch.tsub b a) (fun d => Ok (Torch.tabs d)).
Proof.
  unfold Torch.tsub, Torch.pointwise, Torch.tabs, Torch.tmap.
  apply broadcast2_swap. intros ? ? _ _.
  apply broadcast2_swap. intros ? ? _ _.
  apply broadcast2_swap. intros ? ? _ _.
  apply broadcast2_swap. intros u v _ _. simpl.
  rewrite f32_abs_sub_comm. reflexivity.
Qed.

Section ReprojectionFacts.
Import Torch Losses.
Variable ssim : tensor -> tensor -> tensor.
Variable opt : options.

(** X20.  Without SSIM the photometric loss is symmetric: exchanging the
    prediction and the target gives the same tensor, or the same exception,
    so the order in which [compute_losses] passes the warped image and the
    registered image does not matter. *)
Theorem reprojection_loss_symmetric (pred target : tensor) :
  no_ssim opt = true ->
  compute_reprojection_loss ssim opt pred target
  = compute_reprojection_loss ssim opt target pred.
Proof.
  intros Hno. unfold compute_reprojection_loss. rewrite Hno.
  pose proof (tabs_tsub_comm target pred) as H.
  destruct (tsub target pred) as [d|e], (tsub pred target) as [d'|e'];
    simpl in *; try discriminate.
  - injection H as ->. reflexivity.
  - injection H as ->. reflexivity.
Qed.

End ReprojectionFacts.

Lemma reprojection_loss_symmetric_witness :
  Losses.compute_reprojection_loss LossesExample.ssim (LossesExample.opt [0; 1])
    (LossesExample.img F32.zero) (LossesExample.img F32.one)
  = Losses.compute_reprojection_loss LossesExample.ssim (LossesExample.opt [0; 1])
      (LossesExample.img F32.one) (LossesExample.img F32.zero).
Proof. apply reprojection_loss_symmetric. reflexivity. Defined.

(** ** [compute_losses]: what it reads and what it returns *)

Section LossesKeys.
Import Torch Losses.
Variable ssim : tensor -> tensor -> tensor.
Variable get_smooth_bright : tensor -> tensor -> tensor -> tensor -> spec_float.
Variable get_smooth_loss : tensor -> tensor -> spec_float.
Variable opt : options.
Variable inputs : gmap (string * Poses.frame_id * Z) tensor.
Variable outputs : gmap string tensor.

Lemma input_item_Ok (k : string * Poses.frame_id * Z) (v : tensor) :
  Poses.input_item inputs k = Ok v -> inputs !! k = Some v.
Proof. unfold Poses.input_item. destruct (inputs !! k); congruence. Qed.

(** The lookups of one neighbour frame. *)
Lemma frame_terms_reads (scale : N) (f : Poses.frame_id) t :
  frame_terms ssim get_smooth_bright opt inputs outputs scale f = Ok t ->
  is_Some (outputs !! key_omaskb f) /\
  is_Some (outputs !! key_color f scale) /\
  is_Some (outputs !! key_r scale f) /\
  is_Some (outputs !! key_th scale f) /\
  is_Some (inputs !! ("color", Poses.Frame 0, 0)).
Proof.
  unfold frame_terms. intros H.
  apply rbind_Ok in H as (occu & Hoccu & H). apply getitem_Ok in Hoccu.
  apply rbind_Ok in H as (t1 & H1 & H).
  apply rbind_Ok in H as (t2 & _ & H).
  apply rbind_Ok in H as (t3 & H3 & _).
  unfold reprojection_term in H1.
  apply rbind_Ok in H1 as (pred & Hpred & H1). apply getitem_Ok in Hpred.
  apply rbind_Ok in H1 as (target & Htarget & _). apply getitem_Ok in Htarget.
  unfold cvt_term in H3.
  apply rbind_Ok in H3 as (th & Hth & H3). apply getitem_Ok in Hth.
  apply rbind_Ok in H3 as (color & Hcolor & _). apply input_item_Ok in Hcolor.
  eauto 10.
Qed.

(** The lookups of one scale. *)
Lemma scale_loss_reads (s : N) (l : spec_float) :
  scale_loss ssim get_smooth_bright get_smooth_loss opt inputs outputs s = Ok l ->
  is_Some (outputs !! key_disp s) /\
  is_Some (inputs !! ("color", Poses.Frame 0, Z.of_N s)) /\
  forall f, f ∈ tail (frame_ids opt) ->
    is_Some (outputs !! key_omaskb f) /\
    is_Some (outputs !! key_color f s) /\
    is_Some (outputs !! key_r s f) /\
    is_Some (outputs !! key_th s f) /\
    is_Some (inputs !! ("color", Poses.Frame 0, 0)).
Proof.
  unfold scale_loss. intros Hl.
  apply scale_loss_over_Ok in Hl as (terms & disp & color & sm & Hterms & Hd & Hc & _).
  split; [eauto|]. split; [eauto|].
  intros f Hf. destruct (mapM_elem_of _ _ _ _ Hterms Hf) as (t & Ht & _).
  exact (frame_terms_reads s f t Ht).
Qed.

(** X21.  What [compute_losses] reads.  It returns only if there is a
    scale, [outputs] holds [disp_<s>] and [inputs] holds [("color", 0, s)]
    for every scale [s], and for every neighbour frame [f], the stereo frame
    included, [outputs] holds [omaskb_0_<f>], [color_<f>_<s>], [r_<s>_<f>] and
    [th_<s>_<f>] and [inputs] holds [("color", 0, 0)]. *)
Theorem compute_losses_reads (L : gmap string spec_float) :
  compute_losses ssim get_smooth_bright get_smooth_loss opt inputs outputs = Ok L ->
  scales opt <> [] /\
  forall s, s ∈ scales opt ->
    is_Some (outputs !! key_disp s) /\
    is_Some (inputs !! ("color", Poses.Frame 0, Z.of_N s)) /\
    forall f, f ∈ tail (frame_ids opt) ->
      is_Some (outputs !! key_omaskb f) /\
      is_Some (outputs !! key_color f s) /\
      is_Some (outputs !! key_r s f) /\
      is_Some (outputs !! key_th s f) /\
      is_Some (inputs !! ("color", Poses.Frame 0, 0)).
Proof.
  intros H. apply compute_losses_Ok in H as (totals & Hall & _ & Hne).
  split.
  { intros Hs. rewrite Hs in Hall. apply Forall2_nil_inv_l in Hall. contradiction. }
  intros s Hs. apply list_elem_of_lookup in Hs as (i & Hi).
  destruct (Forall2_lookup_l _ _ _ _ _ Hall Hi) as (l & _ & Hl & _).
  exact (scale_loss_reads s l Hl).
Qed.

(** X22.  What [compute_losses] returns has exactly the keys ["loss"] and
    ["loss/<s>"] for the scales [s] of [opt.scales]. *)
Theorem compute_losses_keys (L : gmap string spec_float) (k : string) :
  compute_losses ssim get_smooth_bright get_smooth_loss opt inputs outputs = Ok L ->
  is_Some (L !! k) <-> k = "loss" \/ exists s, s ∈ scales opt /\ k = key_loss s.
Proof.
  unfold compute_losses. intros H.
  apply rbind_Ok in H as ([total L0] & Hloop & H).
  case_bool_decide as Hn; [discriminate|]. injection H as <-.
  apply scales_loop in Hloop as (totals & Hall & _ & Hframe). simpl in *.
  destruct (decide (k = "loss")) as [->|Hk].
  { rewrite lookup_insert_eq. split; eauto. }
  rewrite lookup_insert_ne by congruence.
  destruct (decide (Exists (fun s => k = key_loss s) (scales opt))) as [Hex|Hno].
  - apply Exists_exists in Hex as (s & Hs & ->).
    apply list_elem_of_lookup in Hs as (i & Hi).
    destruct (Forall2_lookup_l _ _ _ _ _ Hall Hi) as (l & _ & _ & Hl).
    rewrite Hl. split; [|eauto]. intros _. right. exists s. split; [|reflexivity].
    eapply list_elem_of_lookup_2. exact Hi.
  - rewrite Hframe.
    + rewrite lookup_empty. split.
      * intros [? ?]. discriminate.
      * intros [?|(s & Hs & ->)]; [contradiction|].
        exfalso. apply Hno, Exists_exists. eauto.
    + intros s Hs ->. apply Hno, Exists_exists. eauto.
Qed.

End LossesKeys.

(** X21 on the example batch with the neighbour frames [-1] and [1]. *)
Lemma compute_losses_reads_witness :
  Losses.scales (LossesExample.opt [0; -1; 1]) <> [] /\
  forall s, s ∈ Losses.scales (LossesExample.opt [0; -1; 1]) ->
    is_Some (LossesExample.outputs F32.one !! Losses.key_disp s) /\
    is_Some (LossesExample.inputs !! ("color", Poses.Frame 0, Z.of_N s)) /\
    forall f, f ∈ tail (Losses.frame_ids (LossesExample.opt [0; -1; 1])) ->
      is_Some (LossesExample.outputs F32.one !! Losses.key_omaskb f) /\
      is_Some (LossesExample.outputs F32.one !! Losses.key_color f s) /\
      is_Some (LossesExample.outputs F32.one !! Losses.key_r s f) /\
      is_Some (LossesExample.outputs F32.one !! Losses.key_th s f) /\
      is_Some (LossesExample.inputs !! ("color", Poses.Frame 0, 0)).
Proof.
  apply (compute_losses_reads LossesExample.ssim LossesExample.get_smooth_bright
           LossesExample.get_smooth_loss (LossesExample.opt [0; -1; 1])
           LossesExample.inputs (LossesExample.outputs F32.one)
           (LossesExample.losses LossesExample.half)).
  vm_compute. reflexivity.
Defined.

(** X22 on the example batch, at the key ["loss/0"]. *)
Lemma compute_losses_keys_witness :
  is_Some (LossesExample.losses LossesExample.half !! "loss/0") <->
  "loss/0" = "loss" \/
  exists s, s ∈ Losses.scales (LossesExample.opt [0; -1; 1]) /\
            "loss/0" = Losses.key_loss s.
Proof.
  apply (compute_losses_keys LossesExample.ssim LossesExample.get_smooth_bright
           LossesExample.get_smooth_loss (LossesExample.opt [0; -1; 1])
           LossesExample.inputs (LossesExample.outputs F32.one)
           (LossesExample.losses LossesExample.half) "loss/0").
  vm_compute. reflexivity.
Defined.

(** ** [compute_losses_val] *)

(** The loop over the scales of either loss: the running total and the
    dictionary. *)
Lemma loss_loop (f : N -> result spec_float) (ss : list N) :
  forall (total : spec_float) (L : gmap string spec_float) st,
  for_each (fun (st : spec_float * gmap string spec_float) scale =>
      loss <- f scale ;;
      Ok (F32.add st.1 loss, <[Losses.key_loss scale := loss]> st.2)) ss (total, L)
  = Ok st ->
  exists totals,
    Forall2 (fun s l => f s = Ok l /\ st.2 !! Losses.key_loss s = Some l) ss totals /\
    st.1 = fold_left F32.add totals total.
Proof.
  induction ss as [|s ss IH]; intros total L st H; simpl in H.
  - injection H as <-. exists []. split; [constructor | reflexivity].
  - apply rbind_Ok in H as (st1 & H1 & H).
    apply rbind_Ok in H1 as (l & Hl & [= <-]). simpl in H.
    assert (Hkeep : forall ss' total' L' st',
              for_each (fun (st : spec_float * gmap string spec_float) scale =>
                  loss <- f scale ;;
                  Ok (F32.add st.1 loss, <[Losses.key_loss scale := loss]> st.2))
                ss' (total', L') = Ok st' ->
              s ∉ ss' -> st'.2 !! Losses.key_loss s = L' !! Losses.key_loss s).
    { clear. induction ss' as [|x ss' IH']; intros total' L' st' H Hs; simpl in H.
      - injection H as <-. reflexivity.
      - apply rbind_Ok in H as (st1 & H1 & H).
        apply rbind_Ok in H1 as (l & _ & [= <-]). simpl in H.
        apply not_elem_of_cons in Hs as [Hne Hs].
        rewrite (IH' _ _ _ H Hs). apply lookup_insert_ne.
        intros Heq. apply key_loss_inj in Heq. congruence. }
    destruct (IH _ _ _ H) as (totals & Hall & Htot).
    exists (l :: totals). split; [|exact Htot].
    constructor; [|exact Hall]. split; [exact Hl|].
    destruct (decide (s ∈ ss)) as [Hin|Hnin].
    + apply list_elem_of_lookup in Hin as (i & Hi).
      destruct (Forall2_lookup_l _ _ _ _ _ Hall Hi) as (l' & _ & Hl' & Hk).
      rewrite Hk. congruence.
    + rewrite (Hkeep _ _ _ _ H Hnin). apply lookup_insert_eq.
Qed.

Section LossesValFacts.
Import Torch.
Variable ncc_loss : tensor -> tensor -> tensor.
Variable min_dim1 : list tensor -> result tensor.
Variable opt : Losses.options.
Variable inputs : gmap (string * Poses.frame_id * Z) tensor.
Variable outputs : gmap string tensor.

(** What the loss of one scale needs. *)
Lemma scale_loss_val_reads (s : N) (l : spec_float) :
  LossesVal.scale_loss ncc_loss min_dim1 opt inputs outputs s = Ok l ->
  tail (Losses.frame_ids opt) <> [] /\
  is_Some (inputs !! ("color", Poses.Frame 0, 0)) /\
  forall f, f ∈ tail (Losses.frame_ids opt) ->
    is_Some (outputs !! Losses.key_r s f).
Proof.
  unfold LossesVal.scale_loss. intros H.
  apply rbind_Ok in H as (target & Ht & H).
  apply rbind_Ok in H as (regs & Hregs & H).
  apply rbind_Ok in H as (m & Hm & _).
  split; [|split].
  - intros Hnil. rewrite Hnil in Hregs. injection Hregs as <-. discriminate.
  - unfold Poses.input_item in Ht.
    destruct (inputs !! ("color", Poses.Frame 0, 0)); [eauto | discriminate].
  - intros f Hf. destruct (mapM_elem_of _ _ _ _ Hregs Hf) as (t & Hreg & _).
    unfold LossesVal.registration_loss in Hreg.
    apply rbind_Ok in Hreg as (r & Hr & _). apply getitem_Ok in Hr. eauto.
Qed.

(** What [compute_losses_val] returns: one entry per scale, and their mean
    with the sign changed. *)
Lemma compute_losses_val_Ok (L : gmap string spec_float) :
  LossesVal.compute_losses_val ncc_loss min_dim1 opt inputs outputs = Ok L ->
  exists totals,
    Forall2 (fun s l =>
        LossesVal.scale_loss ncc_loss min_dim1 opt inputs outputs s = Ok l /\
        L !! Losses.key_loss s = Some l)
      (Losses.scales opt) totals /\
    L !! "loss" = Some (F32.mul (F32.of_Z (-1)) (Losses.average totals)) /\
    Losses.scales opt <> [].
Proof.
  unfold LossesVal.compute_losses_val. intros H.
  apply rbind_Ok in H as ([total L0] & Hloop & H).
  case_bool_decide as Hn; [discriminate|]. injection H as <-.
  apply loss_loop in Hloop as (totals & Hall & Htot). simpl in *.
  exists totals. split; [|split].
  - eapply Forall2_impl; [exact Hall|]. intros s l [Hl Hk]. split; [exact Hl|].
    rewrite lookup_insert_ne by (apply not_eq_sym, key_loss_not_loss). exact Hk.
  - rewrite lookup_insert_eq. unfold Losses.average.
    rewrite Htot, <- (Forall2_length _ _ _ Hall). reflexivity.
  - intros Hs. rewrite Hs in Hn. apply Hn. reflexivity.
Qed.

(** X23.  [compute_losses_val] returns only if there is a scale and a
    neighbour frame, [inputs] holds [("color", 0, 0)] and [outputs] holds the
    registered image [r_<s>_<f>] of every scale and neighbour frame; what it
    returns holds an entry ["loss/<s>"] for every scale, and under ["loss"]
    the mean of these entries times [-1]. *)
Theorem compute_losses_val_returns (L : gmap string spec_float) :
  LossesVal.compute_losses_val ncc_loss min_dim1 opt inputs outputs = Ok L ->
  Losses.scales opt <> [] /\
  tail (Losses.frame_ids opt) <> [] /\
  is_Some (inputs !! ("color", Poses.Frame 0, 0)) /\
  (forall s f, s ∈ Losses.scales opt -> f ∈ tail (Losses.frame_ids opt) ->
     is_Some (outputs !! Losses.key_r s f)) /\
  exists totals,
    Forall2 (fun s l => L !! Losses.key_loss s = Some l) (Losses.scales opt) totals /\
    L !! "loss" = Some (F32.mul (F32.of_Z (-1)) (Losses.average totals)).
Proof.
  intros H. apply compute_losses_val_Ok in H as (totals & Hall & Hloss & Hne).
  split; [exact Hne|].
  destruct (Losses.scales opt) as [|s0 ss] eqn:Hs; [contradiction|].
  assert (H0 : exists l0, LossesVal.scale_loss ncc_loss min_dim1 opt inputs outputs s0
                          = Ok l0).
  { apply Forall2_cons_inv_l in Hall as (l0 & ? & [Hl0 _] & _). eauto. }
  destruct H0 as [l0 H0]. destruct (scale_loss_val_reads s0 l0 H0) as (Hfs & Hc & _).
  split; [exact Hfs|]. split; [exact Hc|]. split.
  - intros s f Hin Hf. apply list_elem_of_lookup in Hin as (i & Hi).
    destruct (Forall2_lookup_l _ _ _ _ _ Hall Hi) as (l & _ & Hl & _).
    exact (proj2 (proj2 (scale_loss_val_reads s l Hl)) f Hf).
  - exists totals. split; [|exact Hloss].
    eapply Forall2_impl; [exact Hall|]. intros s l [_ Hk]. exact Hk.
Qed.

End LossesValFacts.

(** ** [process_batch] and [process_batch_val] *)

Lemma key_omaskb_untouched (f : Poses.frame_id) :
  Warping.untouched (Losses.key_omaskb f).
Proof. intros s g. repeat split; discriminate. Qed.

Lemma key_r_untouched (s : N) (f : Poses.frame_id) :
  Warping.untouched (Losses.key_r s f).
Proof. intros s' g. repeat split; discriminate. Qed.

Lemma key_th_untouched (s : N) (f : Poses.frame_id) :
  Warping.untouched (Losses.key_th s f).
Proof. intros s' g. repeat split; discriminate. Qed.

Section BatchFacts.
Import Torch.
Context {features : Type}.
Variable forward : Warping.batch -> result (features * gmap string tensor).
Variable frame_features : features -> gmap Poses.frame_id tensor.
Variable predictive_mask_net : features -> result tensor.
Variable position_encoder : tensor -> tensor -> tensor.
Variable position : tensor -> tensor.
Variable slice_hw :
  tensor -> Poses.binding (value:=tensor) -> Poses.binding (value:=tensor) ->
  result tensor.
Variable pose_by_ransac_call :
  tensor -> list (Poses.binding (value:=tensor)) -> result (tensor * tensor).
Variable fill_outputs :
  gmap string tensor -> Poses.frame_id -> tensor -> tensor ->
  result (gmap string tensor).
Variable str : Poses.binding (value:=tensor) -> string.
Variable interpolate : tensor -> result tensor.
Variable disp_to_depth : tensor -> result tensor.
Variable backproject_depth : N -> tensor -> tensor -> result tensor.
Variable project_3d : N -> tensor -> tensor -> tensor -> result tensor.
Variable grid_sample : tensor -> tensor -> result tensor.
Variable posecnn_pose :
  tensor -> tensor -> tensor -> Poses.frame_id -> result tensor.
Variable ssim : tensor -> tensor -> tensor.
Variable get_smooth_bright : tensor -> tensor -> tensor -> tensor -> spec_float.
Variable get_smooth_loss : tensor -> tensor -> spec_float.
Variable ncc_loss : tensor -> tensor -> tensor.
Variable min_dim1 : list tensor -> result tensor.
Variable G : Poses.globals (value:=tensor).
Variable self : Poses.trainer.
Variable opt : Batch.options.

(** [predict_poses] adds nothing to [outputs]. *)
Lemma add_poses_Ok (inputs : Warping.batch) (feats : features)
    (outputs outputs' : gmap string tensor) :
  Batch.add_poses frame_features position_encoder position slice_hw
    pose_by_ransac_call fill_outputs G self inputs feats outputs = Ok outputs' ->
  outputs' = outputs.
Proof.
  unfold Batch.add_poses. destruct (Poses.use_pose_net self); [|congruence].
  intros H. apply rbind_Ok in H as (poses & Hposes & [= <-]).
  unfold Poses.predict_poses in Hposes. case_bool_decide.
  - apply rbind_Ok in Hposes as (fs & _ & Hposes).
    apply rbind_Ok in Hposes as (st & Hloop & [= <-]).
    apply predict_loop_stereo in Hloop as [-> _]. apply map_empty_union.
  - injection Hposes as <-. apply map_empty_union.
Qed.

(** X24.  [process_batch] returns only if the depth decoder itself puts
    into [outputs], for every neighbour frame, the occlusion mask
    [omaskb_0_<f>], the registered images [r_<s>_<f>], the transforms
    [th_<s>_<f>] and, unless the frame is the stereo frame, the pose
    [cam_T_cam_0_<f>]: [predict_poses], the only code that writes these
    keys, adds nothing to [outputs] when it returns, and
    [generate_images_pred] writes other keys. *)
Theorem process_batch_needs_decoder_keys (inputs : Warping.batch)
    (outputs : gmap string tensor) (losses : gmap string spec_float) :
  Batch.process_batch forward frame_features position_encoder position slice_hw
    pose_by_ransac_call fill_outputs str interpolate disp_to_depth
    backproject_depth project_3d grid_sample posecnn_pose ssim get_smooth_bright
    get_smooth_loss G self opt inputs = Ok (outputs, losses) ->
  exists feats decoded,
    forward inputs = Ok (feats, decoded) /\
    Batch.scales opt <> [] /\
    forall f, f ∈ tail (Poses.frame_ids self) ->
      is_Some (decoded !! Losses.key_omaskb f) /\
      (f <> Poses.Stereo -> is_Some (decoded !! Warping.key_pose f)) /\
      forall s, s ∈ Batch.scales opt ->
        is_Some (decoded !! Losses.key_r s f) /\
        is_Some (decoded !! Losses.key_th s f).
Proof.
  unfold Batch.process_batch. intros H.
  apply rbind_Ok in H as ([feats decoded] & Hf & H).
  apply rbind_Ok in H as (o1 & Hposes & H). apply add_poses_Ok in Hposes as ->.
  apply rbind_Ok in H as (o2 & Hgen & H).
  apply rbind_Ok in H as (L & Hloss & [= <- <-]). simpl in *.
  exists feats, decoded. split; [exact Hf|].
  apply warp_scales_Ok in Hgen as (Hin & _ & Hkeep).
  apply compute_losses_Ok in Hloss as (totals & Hall & _ & Hne). simpl in *.
  assert (Hscales : Batch.scales opt <> []).
  { intros Hs. rewrite Hs in Hall. apply Forall2_nil_inv_l in Hall. contradiction. }
  split; [exact Hscales|].
  intros f Hf'.
  assert (Hreads : forall s, s ∈ Batch.scales opt ->
            is_Some (o2 !! Losses.key_omaskb f) /\
            is_Some (o2 !! Losses.key_r s f) /\
            is_Some (o2 !! Losses.key_th s f)).
  { intros s Hs. apply list_elem_of_lookup in Hs as (i & Hi).
    destruct (Forall2_lookup_l _ _ _ _ _ Hall Hi) as (l & _ & Hl & _).
    apply scale_loss_reads in Hl as (_ & _ & Hfr).
    destruct (Hfr f Hf') as (? & _ & ? & ? & _). auto. }
  destruct (Batch.scales opt) as [|s0 ss] eqn:Hs; [contradiction|].
  split; [|split].
  - destruct (Hreads s0 (list_elem_of_here _ _)) as (Hm & _).
    rewrite (Hkeep _ (key_omaskb_untouched f)) in Hm. exact Hm.
  - destruct (Hin s0 (list_elem_of_here _ _)) as (_ & Hfs).
    destruct (Hfs f Hf') as ((_ & _ & _ & Hpose & _) & _). exact Hpose.
  - intros s Hs'. destruct (Hreads s Hs') as (_ & Hr & Hth).
    rewrite (Hkeep _ (key_r_untouched s f)) in Hr.
    rewrite (Hkeep _ (key_th_untouched s f)) in Hth. auto.
Qed.

(** X25.  [process_batch_val] returns only if there is a scale and a
    neighbour frame and the depth decoder itself puts into [outputs] the
    registered image [r_<s>_<f>] of every scale and neighbour frame and the
    pose [cam_T_cam_0_<f>] of every neighbour frame other than the stereo
    frame. *)
Theorem process_batch_val_needs_decoder_keys (inputs : Warping.batch)
    (outputs : gmap string tensor) (losses : gmap string spec_float) :
  Batch.process_batch_val forward frame_features predictive_mask_net
    position_encoder position slice_hw pose_by_ransac_call fill_outputs str
    interpolate disp_to_depth backproject_depth project_3d grid_sample
    posecnn_pose ncc_loss min_dim1 G self opt inputs = Ok (outputs, losses) ->
  exists feats decoded,
    forward inputs = Ok (feats, decoded) /\
    Batch.scales opt <> [] /\
    tail (Poses.frame_ids self) <> [] /\
    forall f, f ∈ tail (Poses.frame_ids self) ->
      (f <> Poses.Stereo -> is_Some (decoded !! Warping.key_pose f)) /\
      forall s, s ∈ Batch.scales opt -> is_Some (decoded !! Losses.key_r s f).
Proof.
  unfold Batch.process_batch_val. intros H.
  apply rbind_Ok in H as ([feats decoded] & Hf & H).
  apply rbind_Ok in H as (o0 & Hmask & H).
  apply rbind_Ok in H as (o1 & Hposes & H). apply add_poses_Ok in Hposes as ->.
  apply rbind_Ok in H as (o2 & Hgen & H).
  apply rbind_Ok in H as (L & Hloss & [= <- <-]). simpl in *.
  exists feats, decoded. split; [exact Hf|].
  assert (Hmask' : forall k, k <> "predictive_mask" -> o0 !! k = decoded !! k).
  { intros k Hk. destruct (Batch.predictive_mask opt).
    - apply rbind_Ok in Hmask as (m & _ & [= <-]). apply lookup_insert_ne. congruence.
    - injection Hmask as <-. reflexivity. }
  apply warp_scales_Ok in Hgen as (Hin & _ & Hkeep).
  apply compute_losses_val_Ok in Hloss as (totals & Hall & _ & Hscales).
  simpl in *.
  split; [exact Hscales|].
  destruct (Batch.scales opt) as [|s0 ss] eqn:Hs; [contradiction|].
  assert (Hreads : forall s, s ∈ s0 :: ss ->
            tail (Poses.frame_ids self) <> [] /\
            forall f, f ∈ tail (Poses.frame_ids self) ->
              is_Some (o2 !! Losses.key_r s f)).
  { intros s Hin'. apply list_elem_of_lookup in Hin' as (i & Hi).
    destruct (Forall2_lookup_l _ _ _ _ _ Hall Hi) as (l & _ & Hl & _).
    apply scale_loss_val_reads in Hl as (Hfs & _ & Hr). auto. }
  split; [exact (proj1 (Hreads s0 (list_elem_of_here _ _)))|].
  intros f Hf'. split.
  - intros Hne. destruct (Hin s0 (list_elem_of_here _ _)) as (_ & Hframes).
    destruct (Hframes f Hf') as ((_ & _ & _ & Hpose & _) & _).
    specialize (Hpose Hne). rewrite Hmask' in Hpose by discriminate. exact Hpose.
  - intros s Hs'. pose proof (proj2 (Hreads s Hs') f Hf') as Hr.
    rewrite (Hkeep _ (key_r_untouched s f)), Hmask' in Hr by discriminate.
    exact Hr.
Qed.

End BatchFacts.

(** X23 on the one-pixel batch of [BatchExample]. *)
Lemma compute_losses_val_returns_witness :
  Losses.scales (Batch.losses_options BatchExample.self BatchExample.opt) <> [] /\
  tail (Losses.frame_ids (Batch.losses_options BatchExample.self BatchExample.opt))
    <> [] /\
  is_Some (Warping.items BatchExample.inputs !! ("color", Poses.Frame 0, 0)) /\
  (forall s f,
     s ∈ Losses.scales (Batch.losses_options BatchExample.self BatchExample.opt) ->
     f ∈ tail (Losses.frame_ids
                 (Batch.losses_options BatchExample.self BatchExample.opt)) ->
     is_Some (BatchExample.decoded !! Losses.key_r s f)) /\
  exists totals,
    Forall2 (fun s l => BatchExample.losses_val !! Losses.key_loss s = Some l)
      (Losses.scales (Batch.losses_options BatchExample.self BatchExample.opt))
      totals /\
    BatchExample.losses_val !! "loss"
    = Some (F32.mul (F32.of_Z (-1)) (Losses.average totals)).
Proof.
  apply (compute_losses_val_returns (fun r _ => r)
           (fun l => Ok (hd (BatchExample.px F32.zero) l))).
  vm_compute. reflexivity.
Defined.

(** X24 on the one-pixel batch: the decoder of the example hands out every
    key the theorem asks for. *)
Lemma process_batch_needs_decoder_keys_witness :
  exists feats decoded,
    BatchExample.forward BatchExample.inputs = Ok (feats, decoded) /\
    Batch.scales BatchExample.opt <> [] /\
    forall f, f ∈ tail (Poses.frame_ids BatchExample.self) ->
      is_Some (decoded !! Losses.key_omaskb f) /\
      (f <> Poses.Stereo -> is_Some (decoded !! Warping.key_pose f)) /\
      forall s, s ∈ Batch.scales BatchExample.opt ->
        is_Some (decoded !! Losses.key_r s f) /\
        is_Some (decoded !! Losses.key_th s f).
Proof.
  assert (H : exists outputs losses,
            BatchExample.process_batch = Ok (outputs, losses))
    by (do 2 eexists; vm_compute; reflexivity).
  destruct H as (outputs & losses & H).
  unfold BatchExample.process_batch in H.
  exact (process_batch_needs_decoder_keys _ _ _ _ _ _ _ _ _ _ _ _ _ _ _ _ _ _ _ _
           _ _ _ H).
Defined.

Lemma process_batch_val_needs_decoder_keys_witness :
  exists feats decoded,
    BatchExample.forward BatchExample.inputs = Ok (feats, decoded) /\
    Batch.scales BatchExample.opt <> [] /\
    tail (Poses.frame_ids BatchExample.self) <> [] /\
    forall f, f ∈ tail (Poses.frame_ids BatchExample.self) ->
      (f <> Poses.Stereo -> is_Some (decoded !! Warping.key_pose f)) /\
      forall s, s ∈ Batch.scales BatchExample.opt ->
        is_Some (decoded !! Losses.key_r s f).
Proof.
  assert (H : exists outputs losses,
            BatchExample.process_batch_val = Ok (outputs, losses))
    by (do 2 eexists; vm_compute; reflexivity).
  destruct H as (outputs & losses & H).
  unfold BatchExample.process_batch_val in H.
  eapply process_batch_val_needs_decoder_keys. exact H.
Defined.

(** Without the keys the decoder of the example adds, neither method
    returns: with nothing but the disparity in [outputs], the pose of the
    first neighbour frame is missing. *)
Lemma process_batch_plain_decoder :
  Batch.process_batch (fun _ => Ok (tt, {[ "disp_0" := BatchExample.px F32.one ]}))
    (fun _ => ∅)
    (fun a _ => a) (fun a => a) (fun a _ _ => Ok a) (fun a _ => Ok (a, a))
    (fun o _ _ _ => Ok o)
    (fun _ => "0") Ok Ok (fun _ depth _ => Ok depth) (fun _ points _ _ => Ok points)
    (fun color _ => Ok color) (fun _ _ depth _ => Ok depth)
    LossesExample.ssim LossesExample.get_smooth_bright LossesExample.get_smooth_loss
    ∅ BatchExample.self BatchExample.opt BatchExample.inputs
  = Raise (KeyError "cam_T_cam_0_-1").
Proof. vm_compute. reflexivity. Qed.

(** ** [load_model] and the training run that follows *)

Section ScheduleInvariant.
Context {state batch : Type}.
Variable set_train : state -> result state.
Variable process_batch : state -> batch -> result state.
Variable log_and_val : Schedule.trainer (state:=state) -> Z -> batch -> result state.
Variable lr_scheduler_step : state -> state.
Variable save_model : Schedule.trainer (state:=state) -> result state.
Variable opt : Schedule.options.

(** [I] is kept by every step of the run; [Q] is set up by [set_train] and
    kept by the steps after it. *)
Variable I Q : state -> Prop.
Hypothesis set_train_I : forall s s', set_train s = Ok s' -> I s -> I s'.
Hypothesis set_train_Q : forall s s', set_train s = Ok s' -> Q s'.
Hypothesis process_batch_I :
  forall s b s', process_batch s b = Ok s' -> (I s -> I s') /\ (Q s -> Q s').
Hypothesis log_and_val_I :
  forall self i b s', log_and_val self i b = Ok s' ->
    (I (Schedule.rest self) -> I s') /\ (Q (Schedule.rest self) -> Q s').
Hypothesis lr_scheduler_step_I :
  forall s, (I s -> I (lr_scheduler_step s)) /\ (Q s -> Q (lr_scheduler_step s)).
Hypothesis save_model_I :
  forall self s', save_model self = Ok s' ->
    (I (Schedule.rest self) -> I s') /\ (Q (Schedule.rest self) -> Q s').

Lemma run_batch_keeps self item self' :
  Schedule.run_batch process_batch log_and_val opt self item = Ok self' ->
  (I (Schedule.rest self) -> I (Schedule.rest self')) /\
  (Q (Schedule.rest self) -> Q (Schedule.rest self')).
Proof.
  unfold Schedule.run_batch. intros H.
  apply rbind_Ok in H as (s & Hs & H). apply process_batch_I in Hs as [HI HQ].
  apply rbind_Ok in H as (r & _ & H).
  apply rbind_Ok in H as (s2 & Hs2 & [= <-]). simpl.
  case_bool_decide.
  - apply log_and_val_I in Hs2 as [HI2 HQ2]. simpl in *. auto.
  - injection Hs2 as <-. auto.
Qed.

Lemma run_batches_keep items : forall self self',
  for_each (Schedule.run_batch process_batch log_and_val opt) items self = Ok self' ->
  (I (Schedule.rest self) -> I (Schedule.rest self')) /\
  (Q (Schedule.rest self) -> Q (Schedule.rest self')).
Proof.
  induction items as [|item items IH]; intros self self' H; simpl in H.
  - injection H as <-. auto.
  - apply rbind_Ok in H as (self1 & H1 & H).
    apply run_batch_keeps in H1 as [HI HQ]. apply IH in H as [HI' HQ']. auto.
Qed.

Lemma run_epoch_keeps train_loader self self' :
  Schedule.run_epoch set_train process_batch log_and_val lr_scheduler_step opt
    train_loader self = Ok self' ->
  (I (Schedule.rest self) -> I (Schedule.rest self')) /\ Q (Schedule.rest self').
Proof.
  unfold Schedule.run_epoch. intros H.
  apply rbind_Ok in H as (s & Hs & H).
  apply rbind_Ok in H as (self1 & H1 & [= <-]). simpl.
  apply run_batches_keep in H1 as [HI HQ]. simpl in *.
  split.
  - intros Hi. apply lr_scheduler_step_I, HI. eapply set_train_I; eassumption.
  - apply lr_scheduler_step_I, HQ. eapply set_train_Q; eassumption.
Qed.

Lemma run_and_save_keeps train_loader self e self' :
  Schedule.run_and_save set_train process_batch log_and_val lr_scheduler_step
    save_model opt train_loader self e = Ok self' ->
  (I (Schedule.rest self) -> I (Schedule.rest self')) /\ Q (Schedule.rest self').
Proof.
  unfold Schedule.run_and_save. intros H.
  apply rbind_Ok in H as (self1 & H1 & H).
  apply run_epoch_keeps in H1 as [HI HQ]. simpl in HI.
  apply rbind_Ok in H as (r & _ & H).
  case_bool_decide.
  - apply rbind_Ok in H as (s & Hs & [= <-]). simpl.
    apply save_model_I in Hs as [HI' HQ']. auto.
  - injection H as <-. auto.
Qed.

Lemma epochs_keep train_loader es : forall self self',
  for_each (Schedule.run_and_save set_train process_batch log_and_val
              lr_scheduler_step save_model opt train_loader) es self = Ok self' ->
  (I (Schedule.rest self) -> I (Schedule.rest self')) /\
  (es <> [] -> Q (Schedule.rest self')).
Proof.
  induction es as [|e es IH]; intros self self' H; simpl in H.
  - injection H as <-. split; [auto | congruence].
  - apply rbind_Ok in H as (self1 & H1 & H).
    apply run_and_save_keeps in H1 as [HI HQ].
    destruct es as [|e' es].
    + injection H as <-. auto.
    + apply IH in H as [HI' HQ']. split; [auto|]. intros _. apply HQ'. discriminate.
Qed.

(** What every step keeps holds when [train] returns, and what [set_train]
    sets up holds then if there was an epoch. *)
Lemma train_keeps train_loader s self :
  Schedule.train set_train process_batch log_and_val lr_scheduler_step save_model
    opt train_loader s = Ok self ->
  (I s -> I (Schedule.rest self)) /\
  (0 < Schedule.num_epochs opt -> Q (Schedule.rest self)).
Proof.
  unfold Schedule.train. intros H. apply epochs_keep in H as [HI HQ].
  split; [exact HI|]. intros Hn. apply HQ. unfold Schedule.range.
  destruct (Z.to_nat (Schedule.num_epochs opt)) eqn:E; [lia | discriminate].
Qed.

End ScheduleInvariant.

Section TrainingFacts.
Import Checkpoint.
Context {tensor batch : Type} (shape : tensor -> list nat).
Variable parameters_to_train : list string.
Variable adam : batch -> string -> string -> tensor -> tensor.
Variable refresh : batch -> string -> nn_module (tensor:=tensor) -> gmap string tensor.
Variable forward : gmap string (nn_module (tensor:=tensor)) -> batch -> result unit.
Variable log : gmap string (nn_module (tensor:=tensor)) -> Z -> batch -> result unit.
Variable validate : gmap string (nn_module (tensor:=tensor)) -> result unit.
Variable save : Z -> gmap string (nn_module (tensor:=tensor)) -> result unit.

(** The optimizer step leaves a module as it is when none of its
    parameters takes gradients. *)
Lemma step_module_frozen (b : batch) (n : string) (m : nn_module) :
  (forall k p, params m !! k = Some p -> requires_grad p = false) ->
  params (Training.step_module parameters_to_train adam refresh b n m) = params m /\
  training (Training.step_module parameters_to_train adam refresh b n m) = training m.
Proof.
  intros Hfr. split; [|reflexivity]. unfold Training.step_module. simpl.
  case_bool_decide; [|reflexivity].
  apply map_eq. intros k. rewrite map_lookup_imap.
  destruct (params m !! k) as [p|] eqn:Hk; [|reflexivity]. simpl.
  unfold Training.step_parameter. rewrite (Hfr k p Hk). reflexivity.
Qed.

Lemma set_train_kept n (ps : gmap string (parameter (tensor:=tensor))) ms ms' :
  Setup.set_train ms = Ok ms' -> Training.kept n ps ms -> Training.kept n ps ms'.
Proof.
  unfold Setup.set_train. intros H (m & Hm & Hp & Ht).
  apply switch_loop in H as [_ Hk]; [|reflexivity].
  specialize (Hk n). rewrite Hm in Hk. simpl in Hk.
  eexists. split; [exact Hk|]. case_bool_decide; simpl; auto.
  split; [exact Hp|]. intros; contradiction.
Qed.

Lemma set_eval_kept n (ps : gmap string (parameter (tensor:=tensor))) ms ms' :
  Setup.set_eval ms = Ok ms' -> Training.kept n ps ms -> Training.kept n ps ms'.
Proof.
  unfold Setup.set_eval. intros H (m & Hm & Hp & Ht).
  apply switch_loop in H as [_ Hk]; [|reflexivity].
  specialize (Hk n). rewrite Hm in Hk. simpl in Hk.
  eexists. split; [exact Hk|]. case_bool_decide; simpl; auto.
Qed.

Lemma set_train_in_train_mode (ms ms' : gmap string (nn_module (tensor:=tensor))) :
  Setup.set_train ms = Ok ms' -> Training.in_train_mode ms'.
Proof.
  unfold Setup.set_train. intros H n m Hn Hm.
  apply switch_loop in H as [_ Hk]; [|reflexivity].
  rewrite Hk in Hm. destruct (ms !! n) as [m0|]; [|discriminate].
  simpl in Hm. rewrite bool_decide_eq_true_2 in Hm by exact Hn.
  injection Hm as <-. reflexivity.
Qed.

Lemma train_step_kept n (ps : gmap string (parameter (tensor:=tensor))) ms b ms' :
  (forall k p, ps !! k = Some p -> requires_grad p = false) ->
  Training.train_step parameters_to_train adam refresh forward ms b = Ok ms' ->
  (Training.kept n ps ms -> Training.kept n ps ms') /\
  (Training.in_train_mode ms -> Training.in_train_mode ms').
Proof.
  unfold Training.train_step. intros Hfr H.
  apply rbind_Ok in H as (u & _ & [= <-]). split.
  - intros (m & Hm & Hp & Ht). subst ps.
    destruct (step_module_frozen b n m Hfr) as [Ep Et].
    eexists. split; [rewrite map_lookup_imap, Hm; reflexivity|].
    split; [exact Ep|]. rewrite Et. exact Ht.
  - intros Hq n' m' Hn' Hm'. rewrite map_lookup_imap in Hm'.
    destruct (ms !! n') as [m0|] eqn:Hm0; [|discriminate].
    simpl in Hm'. injection Hm' as <-. simpl. eapply Hq; eassumption.
Qed.

Lemma val_kept n (ps : gmap string (parameter (tensor:=tensor))) ms ms' :
  Training.val validate ms = Ok ms' ->
  (Training.kept n ps ms -> Training.kept n ps ms') /\ Training.in_train_mode ms'.
Proof.
  unfold Training.val. intros H.
  apply rbind_Ok in H as (ms1 & H1 & H). apply rbind_Ok in H as (u & _ & H).
  split.
  - intros Hk. eapply set_train_kept; [exact H|]. eapply set_eval_kept; eassumption.
  - eapply set_train_in_train_mode. exact H.
Qed.

(** C10.  When [load_model] returns, every module named in
    [models_to_load] is in eval mode and each of its parameters has
    [requires_grad] off; and when the training run that follows returns,
    each of these parameters still has the value that was loaded and
    [requires_grad] off, whatever the optimizer did to the parameters that
    take gradients: the loaded weights got no gradient update.  Eval mode
    itself lasts through the run only for the modules [set_train] does not
    name; the six it names are in training mode again when a run of at
    least one epoch returns. *)
Theorem load_model_freezes_loaded (t t' : trainer) n :
  load_model shape t = Ok t' ->
  n ∈ models_to_load t ->
  exists m', models t' !! n = Some m' /\
    training m' = false /\
    (forall k p, params m' !! k = Some p -> requires_grad p = false) /\
    forall opt train_loader self,
      Training.train parameters_to_train adam refresh forward log validate save
        opt train_loader (models t') = Ok self ->
      exists m, Schedule.rest self !! n = Some m /\
        params m = params m' /\
        (n ∉ Setup.switched -> training m = false) /\
        (n ∈ Setup.switched -> 0 < Schedule.num_epochs opt -> training m = true).
Proof.
  unfold load_model. intros H Hin.
  destruct (folder_isdir t); [|discriminate].
  apply rbind_Ok in H as (ms & Hloop & H). injection H as <-. simpl.
  destruct (load_loop_frozen shape t _ _ _ Hloop) as [Hl _].
  destruct (Hl n Hin) as (m' & Hm' & Htr & Hgrad). exists m'.
  split; [exact Hm'|]. split; [exact Htr|]. split; [exact Hgrad|].
  intros opt train_loader self Hrun. unfold Training.train in Hrun.
  apply (train_keeps _ _ _ _ _ _ (Training.kept n (params m'))
           Training.in_train_mode) in Hrun as [HI HQ].
  - destruct HI as (m & Hm & Hp & Ht).
    { exists m'. split; [exact Hm'|]. split; [reflexivity|]. intros _. exact Htr. }
    exists m. split; [exact Hm|]. split; [exact Hp|]. split; [exact Ht|].
    intros Hn Hpos. eapply HQ; eassumption.
  - intros s s'. apply set_train_kept.
  - intros s s'. apply set_train_in_train_mode.
  - intros s b s'. apply train_step_kept. exact Hgrad.
  - intros self0 i b s' Hs. unfold Training.log_and_val in Hs.
    apply rbind_Ok in Hs as (u & _ & Hs).
    apply (val_kept n (params m')) in Hs as [Hk Hq]. auto.
  - auto.
  - intros self0 s' Hs. unfold Training.save_model in Hs.
    apply rbind_Ok in Hs as (u & _ & [= <-]). auto.
Qed.

End TrainingFacts.

(** [load_model] on [SetupExample.loading], then four epochs of three
    batches: the encoder, loaded with the weight [5], still has it, with
    [requires_grad] off, and is back in training mode; the weight of the
    depth decoder, which was not loaded, has taken the twelve updates. *)
Lemma training_example :
  match Checkpoint.load_model CheckpointExample.shape SetupExample.loading with
  | Ok t' =>
    match TrainingExample.train (Checkpoint.models t') with
    | Ok self =>
      Schedule.rest self !! "encoder" = Some TrainingExample.encoder_trained /\
      Schedule.rest self !! "depth" = Some TrainingExample.depth_trained
    | Raise _ => False
    end
  | Raise _ => False
  end.
Proof. vm_compute. split; reflexivity. Qed.

(** C10 on [SetupExample.loading] and the run of [TrainingExample]. *)
Lemma load_model_freezes_loaded_witness :
  exists t' m',
    Checkpoint.load_model CheckpointExample.shape SetupExample.loading = Ok t' /\
    Checkpoint.models t' !! "encoder" = Some m' /\
    Checkpoint.training m' = false /\
    (forall k p, Checkpoint.params m' !! k = Some p ->
       Checkpoint.requires_grad p = false) /\
    exists self m,
      TrainingExample.train (Checkpoint.models t') = Ok self /\
      Schedule.rest self !! "encoder" = Some m /\
      Checkpoint.params m = Checkpoint.params m' /\
      Checkpoint.training m = true.
Proof.
  pose proof training_example as Hrun0.
  destruct (Checkpoint.load_model CheckpointExample.shape SetupExample.loading)
    as [t'|] eqn:Hload; [|contradiction].
  destruct (TrainingExample.train (Checkpoint.models t')) as [self|] eqn:Htrain;
    [|contradiction].
  clear Hrun0.
  destruct (load_model_freezes_loaded CheckpointExample.shape
              (Setup.parameters_to_train (SetupExample.self "separate_resnet"))
              TrainingExample.adam TrainingExample.refresh
              (fun _ _ => Ok tt) (fun _ _ _ => Ok tt) (fun _ => Ok tt)
              (fun _ _ => Ok tt) SetupExample.loading t' "encoder" Hload)
    as (m' & Hm' & Htr & Hgrad & Hrun).
  { apply list_elem_of_here. }
  exists t', m'. split; [reflexivity|]. split; [exact Hm'|].
  split; [exact Htr|]. split; [exact Hgrad|].
  destruct (Hrun (ScheduleExample.opt 2) TrainingExample.train_loader self Htrain)
    as (m & Hm & Hp & _ & Hmode).
  exists self, m. split; [exact Htrain|]. split; [exact Hm|]. split; [exact Hp|].
  apply Hmode; [|reflexivity].
  unfold Setup.switched. apply list_elem_of_here.
Defined.
